(** * kgjs: the ODE trajectory engine and its animation scheduler

    A shallow embedding of [src/ts/math/odeSystemFunction.ts] (class
    [ODESystemFunction]) and [src/ts/view/viewObjects/animationODE.ts]
    (class [AnimationODE]), followed by the properties of both that the
    specification states.

    Conventions.
    - A JavaScript number is a [JS.number]: not-a-number, an infinity or a
      finite rational.  The sign of zero is not represented.
    - [JS.round] is the rounding of binary64: to the nearest value, ties
      to even, subnormal below 2^-1022, an infinity from 2^1024 on.  The
      operations [JS.fadd], [JS.fsub], [JS.fmul] and [JS.fdiv] round
      their result, as the arithmetic of the program does: the stride
      of the sampler and the playhead of the motion loop are computed
      with them.  The operations [JS.add], [JS.sub], [JS.mul] and
      [JS.div] (scope [js]) give the result before rounding; the
      integrator, the index of the sampling loop and [evaluate] are
      written with them, and what is proved of those does not depend on
      the values rounding changes.
    - A JavaScript value is a [JS.value]: one of the primitives.
    - A string is a [string] whose characters are code units below 256.
    - [undefined] read from an array is [None].
    - A call that can throw returns a [Completion]; the receiver it has
      mutated up to the throw is returned next to it. *)

From Stdlib Require Import QArith Qround ZArith String Ascii List Bool Lia Lqa.
From stdpp Require Import gmap strings list fin_maps.
Import ListNotations.

Local Open Scope string_scope.

(* ================================================================== *)
(** ** JavaScript primitives *)
(* ================================================================== *)

Module JS.

Inductive number : Type :=
| NaN
| Inf (negative : bool)
| Fin (q : Q).

Definition of_Z (z : Z) : number := Fin (inject_Z z).
Definition of_nat (n : nat) : number := of_Z (Z.of_nat n).

Definition Qltb (a b : Q) : bool := negb (Qle_bool b a).
Definition Qzero (a : Q) : bool := Qeq_bool a 0.

(** [a + b] *)
Definition add (a b : number) : number :=
  match a, b with
  | NaN, _ | _, NaN => NaN
  | Inf s, Inf s' => if Bool.eqb s s' then Inf s else NaN
  | Inf s, Fin _ | Fin _, Inf s => Inf s
  | Fin p, Fin q => Fin (p + q)
  end.

(** [a * b] *)
Definition mul (a b : number) : number :=
  match a, b with
  | NaN, _ | _, NaN => NaN
  | Inf s, Inf s' => Inf (xorb s s')
  | Inf s, Fin q | Fin q, Inf s =>
      if Qzero q then NaN else Inf (xorb s (Qltb q 0))
  | Fin p, Fin q => Fin (p * q)
  end.

(** [a / b] *)
Definition div (a b : number) : number :=
  match a, b with
  | NaN, _ | _, NaN => NaN
  | Inf _, Inf _ => NaN
  | Inf s, Fin q => Inf (xorb s (Qltb q 0))
  | Fin _, Inf _ => Fin 0
  | Fin p, Fin q =>
      if Qzero q then (if Qzero p then NaN else Inf (Qltb p 0))
      else Fin (p / q)
  end.

Definition neg (a : number) : number :=
  match a with
  | NaN => NaN
  | Inf s => Inf (negb s)
  | Fin q => Fin (- q)
  end.

(** [a - b] *)
Definition sub (a b : number) : number := add a (neg b).

(** *** Rounding to binary64 *)

(** The exponent [e] of a positive rational [a / d]: the whole number
    with 2^e <= a / d < 2^(e + 1). *)
Definition exponentOf (a d : positive) : Z :=
  let e0 := (Z.log2 (Zpos a) - Z.log2 (Zpos d))%Z in
  let reaches :=
    if (0 <=? e0)%Z then (Zpos d * 2 ^ e0 <=? Zpos a)%Z
    else (Zpos d <=? Zpos a * 2 ^ (- e0))%Z in
  if reaches then e0 else (e0 - 1)%Z.

(** The exponent of the unit in the last of the 53 places: that of the
    subnormal numbers below 2^-1022. *)
Definition ulpOf (a d : positive) : Z :=
  (Z.max (exponentOf a d) (-1022) - 52)%Z.

(** The whole number nearest to [n / d], the even one of two that are
    equally near. *)
Definition nearestEven (n d : Z) : Z :=
  let qt := (n / d)%Z in
  let rm := (n mod d)%Z in
  if (2 * rm <? d)%Z then qt
  else if (d <? 2 * rm)%Z then (qt + 1)%Z
  else if Z.even qt then qt else (qt + 1)%Z.

(** [a / d] in units of the last place, rounded. *)
Definition significand (a d : positive) : Z :=
  let u := ulpOf a d in
  if (0 <=? u)%Z then nearestEven (Zpos a) (Zpos d * 2 ^ u)
  else nearestEven (Zpos a * 2 ^ (- u)) (Zpos d).

(** The binary64 value nearest to the positive rational [a / d]; [None]
    when it is 2^1024 or more. *)
Definition roundMagnitude (a d : positive) : option Q :=
  let u := ulpOf a d in
  let m := significand a d in
  if (0 <=? u)%Z
  then if (2 ^ 1024 <=? m * 2 ^ u)%Z then None
       else Some (inject_Z (m * 2 ^ u))
  else Some (Qmake m (Z.to_pos (2 ^ (- u)))).

(** The binary64 value of an exact result. *)
Definition round (q : Q) : number :=
  match Qnum q with
  | Z0 => Fin 0
  | Zpos a => match roundMagnitude a (Qden q) with
              | Some v => Fin v
              | None => Inf false
              end
  | Zneg a => match roundMagnitude a (Qden q) with
              | Some v => Fin (- v)
              | None => Inf true
              end
  end.

Definition rounded (a : number) : number :=
  match a with
  | Fin q => round q
  | _ => a
  end.

(** [a + b], [a - b], [a * b] and [a / b] as the program computes
    them. *)
Definition fadd (a b : number) : number := rounded (add a b).
Definition fsub (a b : number) : number := rounded (sub a b).
Definition fmul (a b : number) : number := rounded (mul a b).
Definition fdiv (a b : number) : number := rounded (div a b).

(** [a < b] *)
Definition lt (a b : number) : bool :=
  match a, b with
  | NaN, _ | _, NaN => false
  | Inf s, Inf s' => s && negb s'
  | Inf s, Fin _ => s
  | Fin _, Inf s => negb s
  | Fin p, Fin q => Qltb p q
  end.

(** [a === b] on numbers: not-a-number equals nothing, itself included. *)
Definition strict_eq (a b : number) : bool :=
  match a, b with
  | Inf s, Inf s' => Bool.eqb s s'
  | Fin p, Fin q => Qeq_bool p q
  | _, _ => false
  end.

(** [Math.floor] *)
Definition floor (a : number) : number :=
  match a with
  | Fin q => of_Z (Qfloor q)
  | _ => a
  end.

(** [Math.min] and [Math.max] of two numbers. *)
Definition min (a b : number) : number :=
  match a, b with
  | NaN, _ | _, NaN => NaN
  | _, _ => if lt b a then b else a
  end.

Definition max (a b : number) : number :=
  match a, b with
  | NaN, _ | _, NaN => NaN
  | _, _ => if lt a b then b else a
  end.

(** The primitive values. *)
Inductive value : Type :=
| VUndefined
| VNull
| VBool (b : bool)
| VNum (n : number)
| VStr (s : string).

(** ToBoolean: what [!v], [v || d] and [if (v)] test. *)
Definition truthy (v : value) : bool :=
  match v with
  | VUndefined | VNull => false
  | VBool b => b
  | VNum NaN => false
  | VNum (Inf _) => true
  | VNum (Fin q) => negb (Qzero q)
  | VStr s => negb (String.eqb s "")
  end.

(** [v || d] *)
Definition or_else (v d : value) : value := if truthy v then v else d.

(** [a[i]] for an array [a] and a number [i]: an element when [i] is a
    whole number inside the array, [undefined] otherwise. *)
Definition index {A : Type} (a : list A) (i : number) : option A :=
  match i with
  | Fin q =>
      if Qeq_bool (inject_Z (Qfloor q)) q && (0 <=? Qfloor q)%Z
      then a !! Z.to_nat (Qfloor q)
      else None
  | _ => None
  end.

(** *** Strings *)

(** White space and line terminators among the code units below 256. *)
Definition is_white (c : ascii) : bool :=
  let n := nat_of_ascii c in
  ((9 <=? n)%nat && (n <=? 13)%nat) || (n =? 32)%nat || (n =? 160)%nat.

Fixpoint trimStart (s : string) : string :=
  match s with
  | EmptyString => EmptyString
  | String c r => if is_white c then trimStart r else s
  end.

Fixpoint trimEnd (s : string) : string :=
  match s with
  | EmptyString => EmptyString
  | String c r =>
      match trimEnd r with
      | EmptyString => if is_white c then EmptyString else String c EmptyString
      | r' => String c r'
      end
  end.

(** [s.trim()] *)
Definition trim (s : string) : string := trimEnd (trimStart s).

(** [s.startsWith(p)] *)
Definition startsWith (s p : string) : bool := String.prefix p s.

Definition apostrophe : ascii := ascii_of_nat 39.
Definition dquote : ascii := ascii_of_nat 34.

Definition is_quote (c : ascii) : bool :=
  Ascii.eqb c apostrophe || Ascii.eqb c dquote.

Fixpoint dropLastQuote (s : string) : string :=
  match s with
  | EmptyString => EmptyString
  | String c EmptyString => if is_quote c then EmptyString else s
  | String c r => String c (dropLastQuote r)
  end.

(** The [replace] call of [evaluateExpr]: its pattern matches one quote
    character (single or double) at the very start and, scanning on, one
    at the very end; both are deleted. *)
Definition stripQuotes (s : string) : string :=
  match s with
  | EmptyString => EmptyString
  | String c r => if is_quote c then dropLastQuote r else dropLastQuote s
  end.

End JS.

Export JS(number, NaN, Inf, Fin, value, VUndefined, VNull, VBool, VNum, VStr).

Declare Scope js_scope.
Delimit Scope js_scope with js.
Bind Scope js_scope with JS.number.
Notation "a + b" := (JS.add a b) : js_scope.
Notation "a - b" := (JS.sub a b) : js_scope.
Notation "a * b" := (JS.mul a b) : js_scope.
Notation "a / b" := (JS.div a b) : js_scope.
Notation "a <? b" := (JS.lt a b) : js_scope.
Notation "a === b" := (JS.strict_eq a b) (at level 70) : js_scope.
Notation "a !== b" := (negb (JS.strict_eq a b)) (at level 70) : js_scope.

(** Number literals of the source. *)
Definition num (z : Z) : number := JS.of_Z z.
Definition half : number := Fin (1 # 2).

(** The outcome of a call: a normal return or a thrown exception. *)
Inductive Completion (A : Type) : Type :=
| Normal (a : A)
| Throw.
Arguments Normal {A} a.
Arguments Throw {A}.

(* ================================================================== *)
(** ** The collaborators of the engine *)
(* ================================================================== *)

(** A point of the trajectory, [{ x: number, y: number }]. *)
Module State.
Record t : Type := mk { x : number; y : number }.
End State.

(** The live model of the diagram: the three snapshots the code reads.
    [currentParamValues] is read the way the engine casts it, as a
    [Record<string, number>]. *)
Record Model : Type := {
  currentParamValues : gmap string number;
  currentCalcValues : gmap string value;
  currentColors : gmap string string
}.

(** [fn.scope], rebuilt from the model by [generateData] and [update]. *)
Record Scope : Type := {
  params : gmap string number;
  calcs : gmap string value;
  colors : gmap string string
}.

Definition scope_of (model : Model) : Scope :=
  {| params := currentParamValues model;
     calcs := currentCalcValues model;
     colors := currentColors model |}.

(** A compiled mathjs expression: [evaluate(scope)] gives a number, or
    throws ([None]). *)
Definition EvalFunction : Type := gmap string number -> option number.

(** What the engine calls and does not define itself: the JavaScript
    runtime, mathjs, and a method it inherits. *)
Class Host : Type := {
  (** The function [evaluateExpr] builds with [new Function] around
      [return expr] under [with(params){with(calcs){with(colors)...}}],
      applied to the three snapshots of the model; [None] when building
      it or calling it throws. *)
  evalFormula : string -> Model -> option value;
  (** [MathFunction.updateFunctionString], inherited by the engine. *)
  updateFunctionString : string -> Scope -> string;
  (** [math.compile]; [None] when it throws (a formula that does not
      parse). *)
  math_compile : string -> option EvalFunction;
  (** ToNumber on strings. *)
  StringToNumber : string -> number;
  (** What the sampling loop of [generateDots] pushes after index 0 when
      its stride is a string that is not below 1: the index then grows by
      string concatenation. *)
  stringStrideRest : string -> list State.t -> list (option State.t)
}.

(** ToNumber *)
Definition ToNumber `{Host} (v : value) : number :=
  match v with
  | VUndefined => NaN
  | VNull => num 0
  | VBool b => if b then num 1 else num 0
  | VNum n => n
  | VStr s => StringToNumber s
  end.

(* ================================================================== *)
(** ** The engine: class [ODESystemFunction] *)
(* ================================================================== *)

(** The visual attributes of an [ODESystemDefinition], which the
    constructor evaluates into fields of the same names. *)
Inductive Attr : Type :=
| showDots | dotSpacing | dotRadius | dotColor | animation | speed
| movingDotColor | movingDotRadius | restartDelay.

(** The fields of an engine.  [steps] is a whole number of iterations;
    [version] counts regenerations; [hasChanged] is the flag of the
    inherited update listener; [graph] is the [hasChanged] flag of the
    attached graph, when one is attached.  The nine attribute fields are
    read through [attr]. *)
Record ODE : Type := mkODE {
  dxdtDef : string;
  dydtDef : string;
  dxdtCompiled : option EvalFunction;
  dydtCompiled : option EvalFunction;
  initial : number * number;
  steps : Z;
  dt : number;
  lastInitial : number * number;
  lastParams : gmap string number;
  data : list State.t;
  dots : list (option State.t);
  attr : Attr -> value;
  version : nat;
  hasChanged : bool;
  graph : option bool
}.

Definition set_dxdtCompiled (v : option EvalFunction) (fn : ODE) : ODE :=
  mkODE (dxdtDef fn) (dydtDef fn) v (dydtCompiled fn) (initial fn) (steps
    fn) (dt fn) (lastInitial fn) (lastParams fn) (data fn) (dots fn) (attr
    fn) (version fn) (hasChanged fn) (graph fn).

Definition set_dydtCompiled (v : option EvalFunction) (fn : ODE) : ODE :=
  mkODE (dxdtDef fn) (dydtDef fn) (dxdtCompiled fn) v (initial fn) (steps
    fn) (dt fn) (lastInitial fn) (lastParams fn) (data fn) (dots fn) (attr
    fn) (version fn) (hasChanged fn) (graph fn).

Definition set_lastInitial (v : number * number) (fn : ODE) : ODE :=
  mkODE (dxdtDef fn) (dydtDef fn) (dxdtCompiled fn) (dydtCompiled fn)
    (initial fn) (steps fn) (dt fn) v (lastParams fn) (data fn) (dots fn)
    (attr fn) (version fn) (hasChanged fn) (graph fn).

Definition set_lastParams (v : gmap string number) (fn : ODE) : ODE :=
  mkODE (dxdtDef fn) (dydtDef fn) (dxdtCompiled fn) (dydtCompiled fn)
    (initial fn) (steps fn) (dt fn) (lastInitial fn) v (data fn) (dots fn)
    (attr fn) (version fn) (hasChanged fn) (graph fn).

Definition set_data (v : list State.t) (fn : ODE) : ODE :=
  mkODE (dxdtDef fn) (dydtDef fn) (dxdtCompiled fn) (dydtCompiled fn)
    (initial fn) (steps fn) (dt fn) (lastInitial fn) (lastParams fn) v
    (dots fn) (attr fn) (version fn) (hasChanged fn) (graph fn).

Definition set_dots (v : list (option State.t)) (fn : ODE) : ODE :=
  mkODE (dxdtDef fn) (dydtDef fn) (dxdtCompiled fn) (dydtCompiled fn)
    (initial fn) (steps fn) (dt fn) (lastInitial fn) (lastParams fn) (data
    fn) v (attr fn) (version fn) (hasChanged fn) (graph fn).

Definition set_attr (v : Attr -> value) (fn : ODE) : ODE :=
  mkODE (dxdtDef fn) (dydtDef fn) (dxdtCompiled fn) (dydtCompiled fn)
    (initial fn) (steps fn) (dt fn) (lastInitial fn) (lastParams fn) (data
    fn) (dots fn) v (version fn) (hasChanged fn) (graph fn).

Definition set_version (v : nat) (fn : ODE) : ODE :=
  mkODE (dxdtDef fn) (dydtDef fn) (dxdtCompiled fn) (dydtCompiled fn)
    (initial fn) (steps fn) (dt fn) (lastInitial fn) (lastParams fn) (data
    fn) (dots fn) (attr fn) v (hasChanged fn) (graph fn).

Definition set_hasChanged (v : bool) (fn : ODE) : ODE :=
  mkODE (dxdtDef fn) (dydtDef fn) (dxdtCompiled fn) (dydtCompiled fn)
    (initial fn) (steps fn) (dt fn) (lastInitial fn) (lastParams fn) (data
    fn) (dots fn) (attr fn) (version fn) v (graph fn).

Definition set_graph (v : option bool) (fn : ODE) : ODE :=
  mkODE (dxdtDef fn) (dydtDef fn) (dxdtCompiled fn) (dydtCompiled fn)
    (initial fn) (steps fn) (dt fn) (lastInitial fn) (lastParams fn) (data
    fn) (dots fn) (attr fn) (version fn) (hasChanged fn) v.

(** [ODESystemDefinition]: an absent optional property is [None]. *)
Record ODESystemDefinition : Type := {
  dxdt : string;
  dydt : string;
  def_initial : option (number * number);
  def_steps : option Z;
  def_dt : option number;
  def_attr : Attr -> option value
}.

(** Modelled from the spec: the defaults of the visual options, which the
    constructor hands to [setDefaults] (a helper defined outside this
    class): an option the definition leaves out takes the listed
    default. *)
Definition default_attr (a : Attr) : value :=
  match a with
  | showDots => VBool false
  | dotSpacing => VNum (num 60)
  | dotRadius => VNum (num 3)
  | dotColor => VStr "green"
  | animation => VBool false
  | speed => VNum (num 1)
  | movingDotColor => VStr "red"
  | movingDotRadius => VNum (num 5)
  | restartDelay => VNum (num 1000)
  end.

(** [property || fallback] on an optional property. *)
Definition withDefault {A : Type} (o : option A) (d : A) : A :=
  match o with Some a => a | None => d end.

(** *** 1. The evaluator of attribute expressions *)

(** The test that protects literals and colour strings. *)
Definition isLiteral (trimmed : string) : bool :=
  JS.startsWith trimmed (String JS.apostrophe EmptyString)
  || JS.startsWith trimmed (String JS.dquote EmptyString)
  || JS.startsWith trimmed "#"
  || JS.startsWith trimmed "rgb" || JS.startsWith trimmed "hsl".

Definition evaluateExpr `{Host} (expr : value) (model : Model) : value :=
  match expr with
  | VUndefined | VNull => expr
  | VBool _ | VNum _ => expr
  | VStr e =>
      let trimmed := JS.trim e in
      if isLiteral trimmed then VStr (JS.stripQuotes trimmed)
      else match evalFormula e model with
           | Some v => v
           | None => expr
           end
  end.

(** The constructor, with its call of [setDefaults] folded into the reads
    of the options.  The model is the one the definition carries. *)
Definition new_ODE `{Host} (def : ODESystemDefinition) (model : Model) : ODE :=
  {| dxdtDef := dxdt def;
     dydtDef := dydt def;
     dxdtCompiled := None;
     dydtCompiled := None;
     initial := withDefault (def_initial def) (num 0, num 0);
     steps := withDefault (def_steps def) 400%Z;
     dt := withDefault (def_dt def) (Fin (5 # 100));
     lastInitial := (NaN, NaN);
     lastParams := ∅;
     data := [];
     dots := [];
     attr := fun a =>
       evaluateExpr (withDefault (def_attr def a) (default_attr a)) model;
     version := 0;
     hasChanged := false;
     graph := None |}.

(** *** 2. Derivatives and the RK4 step *)

(** The object [{ x: state.x, y: state.y, ...scope.params }]: a parameter
    named [x] or [y] overrides the coordinate. *)
Definition evalScope (state : State.t) (scope : Scope) : gmap string number :=
  params scope ∪ <["y" := State.y state]> (<["x" := State.x state]> ∅).

(** One [try { d = compiled.evaluate(...) } catch { d = 0 }].  A field
    that was never compiled is [undefined], and calling [evaluate] on it
    throws inside the [try]. *)
Definition tryEvaluate (compiled : option EvalFunction)
    (env : gmap string number) : number :=
  match compiled with
  | Some f => match f env with Some d => d | None => num 0 end
  | None => num 0
  end.

Record Deriv : Type := { dx : number; dy : number }.

Definition deriv (fn : ODE) (state : State.t) (scope : Scope) : Deriv :=
  {| dx := tryEvaluate (dxdtCompiled fn) (evalScope state scope);
     dy := tryEvaluate (dydtCompiled fn) (evalScope state scope) |}.

Definition rk4Step (fn : ODE) (s : State.t) (scope : Scope) (h : number)
  : State.t :=
  let k1 := deriv fn s scope in
  let s2 := State.mk (State.x s + half * h * dx k1)%js
                     (State.y s + half * h * dy k1)%js in
  let k2 := deriv fn s2 scope in
  let s3 := State.mk (State.x s + half * h * dx k2)%js
                     (State.y s + half * h * dy k2)%js in
  let k3 := deriv fn s3 scope in
  let s4s := State.mk (State.x s + h * dx k3)%js
                      (State.y s + h * dy k3)%js in
  let k4 := deriv fn s4s scope in
  State.mk
    (State.x s + (h / num 6) * (dx k1 + num 2 * dx k2 + num 2 * dx k3 + dx k4))%js
    (State.y s + (h / num 6) * (dy k1 + num 2 * dy k2 + num 2 * dy k3 + dy k4))%js.

(** *** 3. Data and dots generation *)

(** The initial condition: [px] and [py], each where the parameters
    define it, else the component of [initial]. *)
Definition resolveInitial (params : gmap string number)
    (initial : number * number) : number * number :=
  (withDefault (params !! "px") (fst initial),
   withDefault (params !! "py") (snd initial)).

(** The body of the [for] loop of [generateData], [n] times: the states
    pushed after the initial one. *)
Fixpoint integrate (fn : ODE) (scope : Scope) (n : nat) (state : State.t)
  : list State.t :=
  match n with
  | O => []
  | S n' =>
      let state' := rk4Step fn state scope (dt fn) in
      state' :: integrate fn scope n' state'
  end.

Definition generateData `{Host} (model : Model) (fn : ODE)
  : Completion (list State.t) * ODE :=
  let scope := scope_of model in
  let '(x0, y0) := resolveInitial (params scope) (initial fn) in
  match math_compile (updateFunctionString (dxdtDef fn) scope) with
  | None => (Throw, fn)
  | Some cx =>
      let fn := set_dxdtCompiled (Some cx) fn in
      match math_compile (updateFunctionString (dydtDef fn) scope) with
      | None => (Throw, fn)
      | Some cy =>
          let fn := set_dydtCompiled (Some cy) fn in
          let state := State.mk x0 y0 in
          let data := state :: integrate fn scope (Z.to_nat (steps fn)) state in
          let fn := set_data data fn in
          let fn := set_version (S (version fn)) fn in
          (Normal data, fn)
      end
  end.

(** The stride of the sampling loop, from the spacing once it is a
    number. *)
Definition dotStride (totalSteps : nat) (dotSpacing : number) : number :=
  if (dotSpacing <? num 1)%js
  then JS.max (num 1) (JS.floor (JS.fmul (JS.of_nat totalSteps) dotSpacing))
  else dotSpacing.

(** The sampling loop from index [i] on.  The stride is at least 1, so
    the loop ends within [length data] iterations, which is the fuel
    [sampleDots] gives it. *)
Fixpoint dotsLoop (fuel : nat) (data : list State.t) (i dotSpacing : number)
  : list (option State.t) :=
  match fuel with
  | O => []
  | S fuel' =>
      if (i <? JS.of_nat (length data))%js
      then JS.index data i :: dotsLoop fuel' data (i + dotSpacing)%js dotSpacing
      else []
  end.

(** The sampling of a non-empty trajectory, from [this.dotSpacing || 10]. *)
Definition sampleDots `{Host} (data : list State.t) (dotSpacing : value)
  : list (option State.t) :=
  let n := ToNumber dotSpacing in
  match dotSpacing with
  | VStr s =>
      if (n <? num 1)%js
      then dotsLoop (length data) data (num 0) (dotStride (length data) n)
      else JS.index data (num 0) :: stringStrideRest s data
  | _ => dotsLoop (length data) data (num 0) (dotStride (length data) n)
  end.

Definition generateDots `{Host} (fn : ODE) : list (option State.t) * ODE :=
  if negb (JS.truthy (attr fn showDots)) || (length (data fn) =? 0)%nat
  then ([], fn)
  else
    let dotSpacing := JS.or_else (attr fn dotSpacing) (VNum (num 10)) in
    let dots := sampleDots (data fn) dotSpacing in
    (dots, set_dots dots fn).

Definition evaluate (fn : ODE) (t : number) : option State.t :=
  let i := JS.min (JS.floor (t / dt fn)%js)
                  (JS.of_nat (length (data fn)) - num 1)%js in
  JS.index (data fn) i.

(** *** 4. Update *)

(** The attributes [update] evaluates again: all but [restartDelay]. *)
Definition reevaluated (a : Attr) : bool :=
  match a with restartDelay => false | _ => true end.

Definition changedInitial (fn : ODE) (x0 y0 : number) : bool :=
  (fst (lastInitial fn) !== x0)%js || (snd (lastInitial fn) !== y0)%js.

(** [params[k] !== fn.lastParams[k]]: a name the last snapshot lacks reads
    [undefined] there, which no number equals. *)
Definition paramDiffers (lastParams : gmap string number)
    (kv : string * number) : bool :=
  match lastParams !! kv.1 with
  | Some old => (kv.2 !== old)%js
  | None => true
  end.

Definition changedParams (fn : ODE) (params : gmap string number) : bool :=
  existsb (paramDiffers (lastParams fn)) (map_to_list params).

(** The condition of the [if] of [update]. *)
Definition stale (force : bool) (model : Model) (fn : ODE) : bool :=
  let '(x0, y0) := resolveInitial (currentParamValues model) (initial fn) in
  force || changedInitial fn x0 y0
  || changedParams fn (currentParamValues model)
  || (length (data fn) =? 0)%nat.

(** The eight assignments [fn.a = fn.evaluateExpr(fn.a, fn.model)]. *)
Definition reevaluateAttrs `{Host} (model : Model) (fn : ODE) : ODE :=
  set_attr (fun a => if reevaluated a then evaluateExpr (attr fn a) model
                     else attr fn a) fn.

(** Modelled from the spec: the [update] the engine inherits and calls
    first (class [MathFunction], defined outside this class).  The update
    gate of the specification starts from the engine as the last tick left
    it, so the inherited method returns its receiver and changes none of
    the fields above but [hasChanged], which both branches of [update]
    overwrite. *)
Definition inheritedUpdate (force : bool) (fn : ODE) : ODE := fn.

Definition update `{Host} (force : bool) (model : Model) (fn : ODE)
  : Completion unit * ODE :=
  let fn := inheritedUpdate force fn in
  let scope := scope_of model in
  let '(x0, y0) := resolveInitial (params scope) (initial fn) in
  let changedInitial := changedInitial fn x0 y0 in
  let changedParams := changedParams fn (params scope) in
  let fn := reevaluateAttrs model fn in
  if force || changedInitial || changedParams || (length (data fn) =? 0)%nat
  then
    let fn := set_lastInitial (x0, y0) fn in
    let fn := set_lastParams (params scope) fn in
    match generateData model fn with
    | (Throw, fn) => (Throw, fn)
    | (Normal data, fn) =>
        let fn := set_data data fn in
        let fn := if JS.truthy (attr fn showDots) then snd (generateDots fn)
                  else fn in
        let fn := set_hasChanged true fn in
        let fn := match graph fn with
                  | Some _ => set_graph (Some true) fn
                  | None => fn
                  end in
        (Normal tt, fn)
    end
  else (Normal tt, set_hasChanged false fn).

(* ================================================================== *)
(** ** The scheduler: class [AnimationODE] *)
(* ================================================================== *)

Module Animation.

(** The engine's [update], before the scheduler's own takes the name. *)
Abbreviation engineUpdate := update.

(** The fields of a scheduler.  A handle is the number [setTimeout] or
    [requestAnimationFrame] returned; [None] is [null]. *)
Record AnimationODE : Type := mkAnimationODE {
  _active : bool;
  _handle : option nat;
  _paused : bool;
  _restartTimeout : option nat
}.

(** The callbacks the browser holds for the scheduler: the pending
    timeouts (each will run the restart callback of [update]) and the
    pending animation frames (each will run the [animate] closure of
    [start]), with the next handle of each kind. *)
Record Browser : Type := mkBrowser {
  timeouts : list nat;
  animationFrames : list nat;
  nextTimeout : nat;
  nextFrame : nat
}.

(** A curve's scheduler, the engine object it shares with the curve, the
    browser, and a count of the motion loops [start] has begun (kept for
    the statements below; the code has no such counter). *)
Record World : Type := mkWorld {
  animator : AnimationODE;
  fn : ODE;
  browser : Browser;
  motionLoops : nat
}.

Definition initialWorld (fn : ODE) : World :=
  {| animator := mkAnimationODE false None false None;
     fn := fn;
     browser := mkBrowser [] [] 1 1;
     motionLoops := 0 |}.

(** [if (handle)]: a handle is set when it is neither [null] nor 0. *)
Definition isSet (handle : option nat) : bool :=
  match handle with
  | Some h => negb (h =? 0)%nat
  | None => false
  end.

Definition cancel (h : nat) (pending : list nat) : list nat :=
  filter (fun h' => h' ≠ h) pending.

Definition clearTimeout (h : nat) (b : Browser) : Browser :=
  mkBrowser (cancel h (timeouts b)) (animationFrames b)
            (nextTimeout b) (nextFrame b).

Definition cancelAnimationFrame (h : nat) (b : Browser) : Browser :=
  mkBrowser (timeouts b) (cancel h (animationFrames b))
            (nextTimeout b) (nextFrame b).

(** [setTimeout] and [requestAnimationFrame]: the new handle and the
    browser that holds the callback. *)
Definition setTimeout (b : Browser) : nat * Browser :=
  (nextTimeout b,
   mkBrowser (timeouts b ++ [nextTimeout b]) (animationFrames b)
             (S (nextTimeout b)) (nextFrame b)).

Definition requestAnimationFrame (b : Browser) : nat * Browser :=
  (nextFrame b,
   mkBrowser (timeouts b) (animationFrames b ++ [nextFrame b])
             (nextTimeout b) (S (nextFrame b))).

(** *** 4. Stop *)
Definition stop (w : World) : World :=
  let a := animator w in
  if negb (_active a) && negb (isSet (_handle a)) then w
  else
    let b := match _handle a with
             | Some h => if isSet (Some h)
                         then cancelAnimationFrame h (browser w)
                         else browser w
             | None => browser w
             end in
    mkWorld (mkAnimationODE false None (_paused a) (_restartTimeout a))
            (fn w) b (motionLoops w).

(** *** 3. Start *)
Definition start (optsAnimation : value) (data : list State.t) (w : World)
  : World :=
  let w := stop w in
  if negb (JS.truthy optsAnimation) || (length data =? 0)%nat then w
  else
    let a := animator w in
    let '(h, b) := requestAnimationFrame (browser w) in
    mkWorld (mkAnimationODE true (Some h) (_paused a) (_restartTimeout a))
            (fn w) b (S (motionLoops w)).

(** The [animate] closure, run by the browser for a pending frame.  Its
    [data] is the array [start] found non-empty, and no code of the
    engine changes the length of an array it has published. *)
Definition animate (w : World) : World :=
  let a := animator w in
  if negb (_active a) then w
  else
    let '(h, b) := requestAnimationFrame (browser w) in
    mkWorld (mkAnimationODE (_active a) (Some h) (_paused a)
                            (_restartTimeout a))
            (fn w) b (motionLoops w).

(** *** 6. Is the animation on? *)
Definition isOn (val : value) : bool :=
  match val with
  | VBool b => b
  | VStr s => String.eqb s "true" || String.eqb s "1"
  | VNum n => (n === num 1)%js
  | _ => false
  end.

Definition isAnimationOn `{Host} (fn : ODE) (model : Model) : bool :=
  let val :=
    match currentParamValues model !! "animation" with
    | Some n => VNum n
    | None => evaluateExpr (attr fn animation) model
    end in
  isOn val.

(** The restart callback [update] hands to [setTimeout]; it reads the
    engine when it runs. *)
Definition restart (w : World) : World :=
  let a := animator w in
  let w := mkWorld (mkAnimationODE (_active a) (_handle a) (_paused a) None)
                   (fn w) (browser w) (motionLoops w) in
  if _active (animator w) then w
  else start (attr (fn w) animation) (data (fn w)) w.

(** *** 1. Update
    [present] tells whether both arguments are given; [rendered] whether
    [renderDots] returns rather than throws (it draws, and touches
    nothing here).  The delay handed to [setTimeout] only sets when the
    browser runs the callback. *)
Definition update `{Host} (present rendered : bool) (model : Model)
    (w : World) : Completion unit * World :=
  if negb present then (Normal tt, w)
  else
    match generateData model (fn w) with
    | (Throw, f) => (Throw, mkWorld (animator w) f (browser w) (motionLoops w))
    | (Normal _, f) =>
        let f := if JS.truthy (attr f showDots) then snd (generateDots f)
                 else f in
        let w := mkWorld (animator w) f (browser w) (motionLoops w) in
        if negb rendered then (Throw, w)
        else
          let w := stop w in
          let a := animator w in
          let w :=
            match _restartTimeout a with
            | Some h =>
                if isSet (Some h)
                then mkWorld (mkAnimationODE (_active a) (_handle a)
                                             (_paused a) None)
                             (fn w) (clearTimeout h (browser w))
                             (motionLoops w)
                else w
            | None => w
            end in
          if isAnimationOn (fn w) model then
            let a := animator w in
            let '(h, b) := setTimeout (browser w) in
            (Normal tt,
             mkWorld (mkAnimationODE (_active a) (_handle a) (_paused a)
                                     (Some h))
                     (fn w) b (motionLoops w))
          else (Normal tt, w)
    end.

(** *** 5. Pause and resume *)
Definition pause (w : World) : World :=
  let a := animator w in
  if _active a then
    stop (mkWorld (mkAnimationODE (_active a) (_handle a) true
                                  (_restartTimeout a))
                  (fn w) (browser w) (motionLoops w))
  else w.

Definition resume (optsAnimation : value) (data : list State.t) (w : World)
  : World :=
  let a := animator w in
  if _paused a then
    start optsAnimation data
      (mkWorld (mkAnimationODE (_active a) (_handle a) false
                               (_restartTimeout a))
               (fn w) (browser w) (motionLoops w))
  else w.

(** *** What can happen to a world
    A method of the scheduler is called, the engine is ticked, or the
    browser runs a callback it holds (and forgets its handle). *)
Inductive Event : Type :=
| CallUpdate (present rendered : bool) (model : Model)
| CallStop
| CallPause
| CallResume (optsAnimation : value) (data : list State.t)
| EngineUpdate (force : bool) (model : Model)
| TimeoutFires (h : nat)
| FrameFires (h : nat).

Definition step `{Host} (e : Event) (w : World) : World :=
  match e with
  | CallUpdate present rendered model => snd (update present rendered model w)
  | CallStop => stop w
  | CallPause => pause w
  | CallResume o d => resume o d w
  | EngineUpdate force model =>
      mkWorld (animator w) (snd (engineUpdate force model (fn w)))
              (browser w) (motionLoops w)
  | TimeoutFires h =>
      if bool_decide (h ∈ timeouts (browser w))
      then restart (mkWorld (animator w) (fn w)
                            (clearTimeout h (browser w)) (motionLoops w))
      else w
  | FrameFires h =>
      if bool_decide (h ∈ animationFrames (browser w))
      then animate (mkWorld (animator w) (fn w)
                            (cancelAnimationFrame h (browser w))
                            (motionLoops w))
      else w
  end.

Definition run `{Host} (events : list Event) (w : World) : World :=
  fold_left (fun w e => step e w) events w.

End Animation.

(* ================================================================== *)
(** ** Vocabulary of the statements *)
(* ================================================================== *)

(** Both derivative formulas of the engine compile against the model. *)
Definition compiles `{Host} (model : Model) (fn : ODE) : Prop :=
  is_Some (math_compile (updateFunctionString (dxdtDef fn) (scope_of model)))
  /\ is_Some (math_compile (updateFunctionString (dydtDef fn) (scope_of model))).

(** The update gate's staleness, as the specification lists its causes:
    [force]; an empty trajectory; a resolved initial condition that is not
    strictly equal to the recorded one; a parameter whose value is not
    strictly equal to its recorded value, a name without a recorded value
    counting as a difference. *)
Definition declaredStale (force : bool) (model : Model) (fn : ODE) : Prop :=
  let ps := currentParamValues model in
  let r := resolveInitial ps (initial fn) in
  force = true
  \/ data fn = []
  \/ (fst (lastInitial fn) !== fst r)%js = true
  \/ (snd (lastInitial fn) !== snd r)%js = true
  \/ exists k v, ps !! k = Some v
       /\ forall old, lastParams fn !! k = Some old -> (v !== old)%js = true.

(** The number [n] is the whole number [k]. *)
Definition isWhole (n : number) (k : nat) : Prop :=
  match n with
  | Fin q => q == inject_Z (Z.of_nat k)
  | _ => False
  end.

(** The stride [generateDots] steps by when its spacing is a number. *)
Definition strideOf (length : nat) (spacing : number) : number :=
  dotStride length (if JS.truthy (VNum spacing) then spacing else num 10).

(** A string without white space. *)
Fixpoint solid (p : string) : bool :=
  match p with
  | EmptyString => true
  | String c r => negb (JS.is_white c) && solid r
  end.

(** The number [n] is at least the whole number [k]. *)
Definition atLeast (n : number) (k : nat) : Prop :=
  match n with
  | Fin q => (inject_Z (Z.of_nat k) <= q)%Q
  | Inf negative => negative = false
  | NaN => False
  end.

(** [clamp(i, lo, hi)] *)
Definition clamp (i lo hi : number) : number := JS.max lo (JS.min i hi).

(** [evaluateAt(t)] as the specification has it. *)
Definition evaluateAt (fn : ODE) (t : number) : option State.t :=
  JS.index (data fn)
    (clamp (JS.floor (t / dt fn)%js) (num 0)
           (JS.of_nat (length (data fn)) - num 1)%js).

(** The stride as the specification's claim has it. *)
Definition claimedStride (length : nat) (spacing : number) : number :=
  if (num 0 <? spacing)%js && (spacing <? num 1)%js
  then JS.max (num 1) (JS.floor (JS.fmul (JS.of_nat length) spacing))
  else spacing.

(** [dots] is exactly the trajectory states at the indices
    [0, stride, 2 * stride, ...] below the length. *)
Definition sampledAt (data : list State.t) (stride : number)
    (dots : list (option State.t)) : Prop :=
  forall k : nat,
    if (JS.of_nat k * stride <? JS.of_nat (length data))%js
    then exists s, JS.index data (JS.of_nat k * stride)%js = Some s
                   /\ dots !! k = Some (Some s)
    else dots !! k = None.

(** What the scheduler keeps true of the browser: the only timeout it
    can hold is the one [_restartTimeout] names, and the only animation
    frame the one [_handle] names; handles are positive and below the next
    handle to be given out. *)
Definition timerHeld (w : Animation.World) : Prop :=
  match Animation._restartTimeout (Animation.animator w) with
  | Some h => (1 <= h < Animation.nextTimeout (Animation.browser w))%nat
              /\ Animation.timeouts (Animation.browser w) = [h]
  | None => Animation.timeouts (Animation.browser w) = []
  end.

Definition frameHeld (w : Animation.World) : Prop :=
  Animation.animationFrames (Animation.browser w) = []
  \/ exists h, (1 <= h)%nat
       /\ Animation._handle (Animation.animator w) = Some h
       /\ Animation.animationFrames (Animation.browser w) = [h].

Definition wellFormed (w : Animation.World) : Prop :=
  (1 <= Animation.nextTimeout (Animation.browser w))%nat
  /\ (1 <= Animation.nextFrame (Animation.browser w))%nat
  /\ timerHeld w
  /\ frameHeld w.

(* ================================================================== *)
(** ** Concrete collaborators and engines
    Used to run the definitions above on explicit inputs. *)
(* ================================================================== *)

(** A host that knows a few formulas.  Attribute expressions: a property
    of [params] reads the parameter; anything else throws.  Derivative
    formulas: two constants, the coordinate [x], a formula whose
    evaluation throws, and everything else fails to parse. *)
Definition demoEvalFormula (e : string) (model : Model) : option value :=
  if String.eqb e "params.show" then
    Some (match currentParamValues model !! "show" with
          | Some n => VNum n
          | None => VUndefined
          end)
  else None.

Definition demoCompile (formula : string) : option EvalFunction :=
  if String.eqb formula "1" then Some (fun _ => Some (num 1))
  else if String.eqb formula "0" then Some (fun _ => Some (num 0))
  else if String.eqb formula "x" then Some (fun env => env !! "x")
  else if String.eqb formula "q" then Some (fun _ => None)
  else None.

Definition demoHost : Host :=
  {| evalFormula := demoEvalFormula;
     updateFunctionString := fun s _ => s;
     math_compile := demoCompile;
     StringToNumber := fun _ => NaN;
     stringStrideRest := fun _ _ => [] |}.

Definition modelOf (ps : list (string * number)) : Model :=
  {| currentParamValues := list_to_map ps;
     currentCalcValues := ∅;
     currentColors := ∅ |}.

Definition noAttrs : Attr -> option value := fun _ => None.

Definition defOf (fx fy : string) (n : Z) (attrs : Attr -> option value)
  : ODESystemDefinition :=
  {| dxdt := fx; dydt := fy;
     def_initial := Some (num 0, num 0);
     def_steps := Some n;
     def_dt := Some (Fin (1 # 10));
     def_attr := attrs |}.

(** dx/dt = 1, dy/dt = 0 from (0, 0), three steps of 0.1. *)
Definition line3 : ODE := @new_ODE demoHost (defOf "1" "0" 3 noAttrs) (modelOf []).

(** The same with a first formula that does not parse. *)
Definition broken : ODE := @new_ODE demoHost (defOf "1 +" "0" 3 noAttrs) (modelOf []).

(** An engine holding a trajectory of [n] points (k, 0), with a step of 1
    and the given attributes. *)
Definition points (n : nat) : list State.t :=
  map (fun k => State.mk (JS.of_nat k) (num 0)) (seq 0 n).

Definition holding (n : nat) (attrs : Attr -> option value) : ODE :=
  set_data (points n)
    (@new_ODE demoHost
       {| dxdt := "1"; dydt := "0"; def_initial := None; def_steps := None;
          def_dt := Some (num 1); def_attr := attrs |}
       (modelOf [])).

Definition dotsOn (spacing : number) (a : Attr) : option value :=
  match a with
  | showDots => Some (VBool true)
  | dotSpacing => Some (VNum spacing)
  | _ => None
  end.

(** A definition whose show-dots attribute is an expression. *)
Definition showExpr (a : Attr) : option value :=
  match a with
  | showDots => Some (VStr "params.show")
  | _ => None
  end.

(** The engine after a first tick under parameters [a] and [gone]. *)
Definition ticked : ODE :=
  snd (@update demoHost false (modelOf [("a", num 1); ("gone", num 2)]) line3).

(** Twelve points sampled every ten, then the dots switched off. *)
Definition sampled : ODE := snd (@generateDots demoHost (holding 12 (dotsOn (num 10)))).

Definition hidden : ODE :=
  set_attr (fun a => match a with
                     | showDots => VBool false
                     | _ => attr sampled a
                     end) sampled.

(** An engine built while the parameter [show] is 1. *)
Definition shown : ODE :=
  @new_ODE demoHost (defOf "1" "0" 3 showExpr) (modelOf [("show", num 1)]).

(** The [x] coordinates of the dots, [None] for an [undefined] dot. *)
Definition dotXs (dots : list (option State.t)) : list (option number) :=
  map (option_map State.x) dots.

(** A hundred points with dots on. *)
Definition hundred (spacing : number) : ODE := holding 100 (dotsOn spacing).

(** Twelve points with dots on and a spacing of 0. *)
Definition spacedZero : ODE := holding 12 (dotsOn (num 0)).

(** An engine whose animation attribute is on. *)
Definition animationOn (a : Attr) : option value :=
  match a with
  | animation => Some (VBool true)
  | _ => None
  end.

Definition animated : ODE :=
  @new_ODE demoHost (defOf "1" "0" 3 animationOn) (modelOf []).

(* ================================================================== *)
(** ** Further definitions: runs of ticks and the playhead *)
(* ================================================================== *)

(** A run of update ticks, each with its force flag and the model it
    finds; a tick that throws leaves the engine as it was at the throw,
    and the next tick starts from there. *)
Definition runTicks `{Host} (ticks : list (bool * Model)) (fn : ODE) : ODE :=
  fold_left (fun f t => snd (update t.1 t.2 f)) ticks fn.

(** Two numbers that are the same number: finite ones are equal as
    rationals. *)
Definition sameNumber (a b : number) : Prop :=
  match a, b with
  | NaN, NaN => True
  | Inf s, Inf s' => s = s'
  | Fin p, Fin q => p == q
  | _, _ => False
  end.

Definition sameState (s s' : State.t) : Prop :=
  sameNumber (State.x s) (State.x s') /\ sameNumber (State.y s) (State.y s').

(** Rounding towards zero. *)
Definition truncate (q : Q) : Z :=
  if JS.Qltb q 0 then Qceiling q else Qfloor q.

(** [a % b]: the remainder has the sign of the dividend. *)
Definition remainder (a b : number) : number :=
  match a, b with
  | NaN, _ | _, NaN => NaN
  | Inf _, _ => NaN
  | Fin p, Inf _ => Fin p
  | Fin p, Fin q =>
      if JS.Qzero q then NaN
      else Fin (p - q * inject_Z (truncate (p / q)))
  end.

(** The variables the [animate] closure of [start] keeps between
    frames. *)
Record Playhead : Type := mkPlayhead {
  frame : number;
  lastTime : number
}.

(** [data[idx] || data[0]] *)
Definition pointAt (data : list State.t) (idx : number) : option State.t :=
  match JS.index data idx with
  | Some p => Some p
  | None => JS.index data (num 0)
  end.

(** The body of the [animate] closure once its guard has passed: from the
    time of the frame, the new playhead and the point the moving dot is
    drawn at. *)
Definition animateFrame (data : list State.t) (speed : number) (time : number)
    (p : Playhead) : Playhead * option State.t :=
  let total := JS.of_nat (length data) in
  let delta :=
    JS.fdiv (JS.fsub time (lastTime p)) (JS.fdiv (num 1000) (num 60)) in
  let frame := remainder (JS.fadd (frame p) (JS.fmul speed delta)) total in
  let idx := JS.floor frame in
  (mkPlayhead frame time, pointAt data idx).

(** A number that is not negative, and one that is not positive: an
    infinity of that sign included, not-a-number excluded. *)
Definition nonNegative (n : number) : Prop :=
  match n with
  | NaN => False
  | Inf negative => negative = false
  | Fin q => (0 <= q)%Q
  end.

Definition nonPositive (n : number) : Prop :=
  match n with
  | NaN => False
  | Inf negative => negative = true
  | Fin q => (q <= 0)%Q
  end.

(** The playhead of a loop that runs forwards: not negative, or lost
    (not-a-number, after an overflow).  The playhead of a loop whose speed
    is negative: not positive, or lost. *)
Definition forwards (frame : number) : Prop :=
  match frame with
  | NaN => True
  | Inf _ => False
  | Fin q => (0 <= q)%Q
  end.

Definition backwards (frame : number) : Prop :=
  match frame with
  | NaN => True
  | Inf _ => False
  | Fin q => (q <= 0)%Q
  end.

(** An engine that holds two points and whose first formula does not
    parse. *)
Definition stuck : ODE := set_data (points 2) broken.

(** A world in which a motion loop runs while a restart is armed: an
    update arms timeout 1, which fires and starts a loop; the loop is
    paused; a second update arms timeout 2; the loop is resumed. *)
Definition busy : Animation.World :=
  @Animation.run demoHost
    [Animation.CallUpdate true true (modelOf []);
     Animation.TimeoutFires 1;
     Animation.CallPause;
     Animation.CallUpdate true true (modelOf []);
     Animation.CallResume (VBool true) (points 2)]
    (Animation.initialWorld animated).

(** The same world before the loop is resumed: paused, with timeout 2
    armed. *)
Definition pausedArmed : Animation.World :=
  @Animation.run demoHost
    [Animation.CallUpdate true true (modelOf []);
     Animation.TimeoutFires 1;
     Animation.CallPause;
     Animation.CallUpdate true true (modelOf [])]
    (Animation.initialWorld animated).

(* ================================================================== *)
(** ** Properties of the engine *)
(* ================================================================== *)

Section Trajectory.
Context `{Host}.

Lemma integrate_length (fn : ODE) (scope : Scope) (n : nat) (s : State.t) :
  length (integrate fn scope n s) = n.
Proof.
  revert s. induction n as [|n IH]; intros s; cbn; [reflexivity|].
  now rewrite IH.
Qed.

(** What [generateData] does once both formulas have compiled. *)
Lemma generateData_compiled (model : Model) (fn : ODE) (cx cy : EvalFunction) :
  math_compile (updateFunctionString (dxdtDef fn) (scope_of model)) = Some cx ->
  math_compile (updateFunctionString (dydtDef fn) (scope_of model)) = Some cy ->
  let r := resolveInitial (currentParamValues model) (initial fn) in
  let fn2 := set_dydtCompiled (Some cy) (set_dxdtCompiled (Some cx) fn) in
  let s0 := State.mk (fst r) (snd r) in
  let trajectory :=
    s0 :: integrate fn2 (scope_of model) (Z.to_nat (steps fn)) s0 in
  generateData model fn
  = (Normal trajectory, set_version (S (version fn)) (set_data trajectory fn2)).
Proof.
  intros Hx Hy. unfold generateData. cbn.
  rewrite Hx. cbn. rewrite Hy. reflexivity.
Qed.

(** A formula that does not compile makes [generateData] throw, with no
    trajectory stored and no version counted. *)
Lemma generateData_compile_failure (model : Model) (fn : ODE) :
  ~ compiles model fn ->
  fst (generateData model fn) = Throw
  /\ data (snd (generateData model fn)) = data fn
  /\ version (snd (generateData model fn)) = version fn.
Proof.
  intros Hn. unfold generateData. cbn.
  destruct (math_compile (updateFunctionString (dxdtDef fn) (scope_of model)))
    as [cx|] eqn:Hx; cbn; [|auto].
  destruct (math_compile (updateFunctionString (dydtDef fn) (scope_of model)))
    as [cy|] eqn:Hy; cbn; [|auto].
  exfalso. apply Hn. unfold compiles. rewrite Hx, Hy. split; eexists; eauto.
Qed.

(** [generateData] returns normally exactly when both formulas compile:
    no evaluation of a compiled formula can make it throw. *)
Lemma generateData_normal_iff (model : Model) (fn : ODE) :
  compiles model fn <-> exists d, fst (generateData model fn) = Normal d.
Proof.
  split.
  - intros [[cx Hx] [cy Hy]].
    rewrite (generateData_compiled model fn cx cy Hx Hy). cbn. eauto.
  - intros [d Hd].
    unfold compiles.
    unfold generateData in Hd. cbn in Hd.
    destruct (math_compile (updateFunctionString (dxdtDef fn) (scope_of model)))
      as [cx|]; cbn in Hd; [|discriminate].
    destruct (math_compile (updateFunctionString (dydtDef fn) (scope_of model)))
      as [cy|]; cbn in Hd; [|discriminate].
    split; eexists; eauto.
Qed.

(** An evaluation that throws, or a formula never compiled, counts as a
    zero derivative of its component; the other component is kept. *)
Lemma deriv_recovers (fn : ODE) (state : State.t) (scope : Scope) :
  (forall f, dxdtCompiled fn = Some f -> f (evalScope state scope) = None ->
     dx (deriv fn state scope) = num 0)
  /\ (forall f, dydtCompiled fn = Some f -> f (evalScope state scope) = None ->
     dy (deriv fn state scope) = num 0)
  /\ (forall f d, dxdtCompiled fn = Some f -> f (evalScope state scope) = Some d ->
     dx (deriv fn state scope) = d)
  /\ (forall f d, dydtCompiled fn = Some f -> f (evalScope state scope) = Some d ->
     dy (deriv fn state scope) = d)
  /\ (dxdtCompiled fn = None -> dx (deriv fn state scope) = num 0)
  /\ (dydtCompiled fn = None -> dy (deriv fn state scope) = num 0).
Proof.
  unfold deriv, tryEvaluate; cbn.
  repeat split; intros; repeat match goal with
    | E : _ = _ |- _ => rewrite E
    end; reflexivity.
Qed.

(** C1.  For a valid configuration (both formulas compile) with a whole,
    non-negative number of steps, whatever the step size and the
    parameters, [generateData] returns and stores a trajectory of exactly
    [steps + 1] states whose first state is the resolved initial
    condition: ([px], [py]) when the parameters define both, the static
    pair when they define neither, each component being resolved on its
    own. *)
Theorem generateData_trajectory (model : Model) (fn : ODE) :
  compiles model fn ->
  (0 <= steps fn)%Z ->
  let ps := currentParamValues model in
  exists trajectory : list State.t,
    fst (generateData model fn) = Normal trajectory
    /\ data (snd (generateData model fn)) = trajectory
    /\ Z.of_nat (length trajectory) = (steps fn + 1)%Z
    /\ trajectory !! 0%nat
       = Some (State.mk (fst (resolveInitial ps (initial fn)))
                        (snd (resolveInitial ps (initial fn))))
    /\ (forall px py, ps !! "px" = Some px -> ps !! "py" = Some py ->
          trajectory !! 0%nat = Some (State.mk px py))
    /\ (ps !! "px" = None -> ps !! "py" = None ->
          trajectory !! 0%nat
          = Some (State.mk (fst (initial fn)) (snd (initial fn)))).
Proof.
  intros [[cx Hx] [cy Hy]] Hsteps ps.
  rewrite (generateData_compiled model fn cx cy Hx Hy). cbn.
  eexists. split; [reflexivity|]. split; [reflexivity|].
  split; [|split; [reflexivity|split]].
  - cbn. rewrite integrate_length. lia.
  - intros px py Hpx Hpy. cbn. subst ps. now rewrite Hpx, Hpy.
  - intros Hpx Hpy. cbn. subst ps. now rewrite Hpx, Hpy.
Qed.

End Trajectory.

(** C1 at a concrete engine: the parameters define both reserved names. *)
Lemma generateData_trajectory_witness :
  let model := modelOf [("px", num 5); ("py", num 7)] in
  @compiles demoHost model line3
  /\ (0 <= steps line3)%Z
  /\ exists trajectory : list State.t,
       fst (@generateData demoHost model line3) = Normal trajectory
       /\ length trajectory = 4%nat
       /\ trajectory !! 0%nat = Some (State.mk (num 5) (num 7)).
Proof.
  intros model.
  assert (Hc : @compiles demoHost model line3)
    by (split; eexists; reflexivity).
  assert (Hs : (0 <= steps line3)%Z) by (vm_compute; discriminate).
  split; [exact Hc|]. split; [exact Hs|].
  destruct (@generateData_trajectory demoHost model line3 Hc Hs)
    as (trajectory & Hfst & _ & Hlen & _ & Hboth & _).
  exists trajectory. split; [exact Hfst|]. split.
  - change (steps line3) with 3%Z in Hlen. lia.
  - apply Hboth; reflexivity.
Defined.

(** C2.  On a first formula that does not parse, [math.compile] throws
    and nothing in [generateData] catches it: the call throws, and so
    does an [update] that regenerates. *)
Theorem generateData_throws_on_unparsable_formula :
  fst (@generateData demoHost (modelOf []) broken) = Throw
  /\ fst (@update demoHost true (modelOf []) broken) = Throw.
Proof. split; reflexivity. Qed.

Section Gate.
Context `{Host}.

(** The trajectory depends on the engine through its compiled formulas
    and its step size only. *)
Lemma integrate_ext (fn fn' : ODE) (scope : Scope) (n : nat) (s : State.t) :
  dxdtCompiled fn = dxdtCompiled fn' ->
  dydtCompiled fn = dydtCompiled fn' ->
  dt fn = dt fn' ->
  integrate fn scope n s = integrate fn' scope n s.
Proof.
  intros Hx Hy Hdt. revert s.
  induction n as [|n IH]; intros s; cbn; [reflexivity|].
  unfold rk4Step, deriv. rewrite Hx, Hy, Hdt.
  f_equal. apply IH.
Qed.

Lemma paramDiffers_spec (lastParams : gmap string number) (k : string)
    (v : number) :
  paramDiffers lastParams (k, v) = true
  <-> forall old, lastParams !! k = Some old -> (v !== old)%js = true.
Proof.
  unfold paramDiffers; cbn.
  destruct (lastParams !! k) as [old|]; split; intros Hd.
  - intros old' [= <-]. exact Hd.
  - now apply Hd.
  - intros old' [=].
  - reflexivity.
Qed.

Lemma changedParams_spec (fn : ODE) (ps : gmap string number) :
  changedParams fn ps = true
  <-> exists k v, ps !! k = Some v
        /\ forall old, lastParams fn !! k = Some old -> (v !== old)%js = true.
Proof.
  unfold changedParams. rewrite existsb_exists. split.
  - intros [[k v] [Hin Hd]].
    exists k, v. split.
    + apply elem_of_map_to_list, list_elem_of_In, Hin.
    + now apply paramDiffers_spec.
  - intros (k & v & Hk & Hd).
    exists (k, v). split.
    + apply list_elem_of_In, elem_of_map_to_list, Hk.
    + now apply paramDiffers_spec.
Qed.

(** The condition [update] tests is the staleness the specification
    describes. *)
Lemma stale_declared (force : bool) (model : Model) (fn : ODE) :
  stale force model fn = true <-> declaredStale force model fn.
Proof.
  unfold stale, declaredStale, changedInitial. cbn.
  rewrite !orb_true_iff, Nat.eqb_eq, changedParams_spec.
  rewrite length_zero_iff_nil. cbn. tauto.
Qed.

Lemma update_unfold (force : bool) (model : Model) (fn : ODE) :
  update force model fn
  = if stale force model fn then
      let fn1 :=
        set_lastParams (currentParamValues model)
          (set_lastInitial (resolveInitial (currentParamValues model) (initial fn))
             (reevaluateAttrs model fn)) in
      match generateData model fn1 with
      | (Throw, fn2) => (Throw, fn2)
      | (Normal d, fn2) =>
          let fn3 := set_data d fn2 in
          let fn4 := if JS.truthy (attr fn3 showDots)
                     then snd (generateDots fn3) else fn3 in
          let fn5 := set_hasChanged true fn4 in
          (Normal tt,
           match graph fn5 with
           | Some _ => set_graph (Some true) fn5
           | None => fn5
           end)
      end
    else (Normal tt, set_hasChanged false (reevaluateAttrs model fn)).
Proof. reflexivity. Qed.

(** [generateDots] writes no field but [dots]. *)
Lemma generateDots_fields (fn : ODE) :
  let fn' := snd (generateDots fn) in
  data fn' = data fn /\ version fn' = version fn /\ attr fn' = attr fn
  /\ lastInitial fn' = lastInitial fn /\ lastParams fn' = lastParams fn
  /\ hasChanged fn' = hasChanged fn /\ graph fn' = graph fn
  /\ dxdtCompiled fn' = dxdtCompiled fn /\ dydtCompiled fn' = dydtCompiled fn.
Proof.
  unfold generateDots.
  destruct (negb (JS.truthy (attr fn showDots)) || (length (data fn) =? 0)%nat);
    cbn; repeat split; reflexivity.
Qed.

(** A tick that finds the state fresh: nothing is recomputed. *)
Lemma update_fresh (force : bool) (model : Model) (fn : ODE) :
  stale force model fn = false ->
  let after := snd (update force model fn) in
  fst (update force model fn) = Normal tt
  /\ hasChanged after = false
  /\ version after = version fn
  /\ data after = data fn
  /\ dots after = dots fn
  /\ lastInitial after = lastInitial fn
  /\ lastParams after = lastParams fn
  /\ dxdtCompiled after = dxdtCompiled fn
  /\ dydtCompiled after = dydtCompiled fn.
Proof.
  intros Hs. rewrite update_unfold, Hs. cbn. repeat split; reflexivity.
Qed.

(** What a normal return of [generateData] leaves in the engine. *)
Lemma generateData_fields (model : Model) (fn fn' : ODE) (d : list State.t) :
  generateData model fn = (Normal d, fn') ->
  data fn' = d /\ version fn' = S (version fn) /\ attr fn' = attr fn
  /\ lastInitial fn' = lastInitial fn /\ lastParams fn' = lastParams fn
  /\ hasChanged fn' = hasChanged fn /\ graph fn' = graph fn
  /\ dots fn' = dots fn.
Proof.
  unfold generateData. cbn.
  destruct (math_compile (updateFunctionString (dxdtDef fn) (scope_of model)));
    cbn; [|discriminate].
  destruct (math_compile (updateFunctionString (dydtDef fn) (scope_of model)));
    cbn; [|discriminate].
  intros [= <- <-]. cbn. repeat split; reflexivity.
Qed.

(** The outcome of [generateData] depends on the engine through its two
    formulas, its initial condition, its step count and its step size. *)
Lemma generateData_ext (model : Model) (fn fn' : ODE) :
  dxdtDef fn = dxdtDef fn' -> dydtDef fn = dydtDef fn' ->
  initial fn = initial fn' -> steps fn = steps fn' -> dt fn = dt fn' ->
  fst (generateData model fn) = fst (generateData model fn').
Proof.
  intros Hx Hy Hi Hn Hdt. unfold generateData. cbn.
  rewrite <- Hx, <- Hy, <- Hi, <- Hn.
  destruct (math_compile (updateFunctionString (dxdtDef fn) (scope_of model)));
    cbn; [|reflexivity].
  destruct (math_compile (updateFunctionString (dydtDef fn) (scope_of model)));
    cbn; [|reflexivity].
  do 2 f_equal. now apply integrate_ext.
Qed.

(** A tick that finds the state stale, with formulas that compile: the
    trajectory is the one [generateData] computes, and it is counted. *)
Lemma update_regenerates (force : bool) (model : Model) (fn : ODE) :
  stale force model fn = true ->
  compiles model fn ->
  let after := snd (update force model fn) in
  exists trajectory : list State.t,
    fst (generateData model fn) = Normal trajectory
    /\ fst (update force model fn) = Normal tt
    /\ data after = trajectory
    /\ version after = S (version fn)
    /\ hasChanged after = true
    /\ lastInitial after = resolveInitial (currentParamValues model) (initial fn)
    /\ lastParams after = currentParamValues model.
Proof.
  intros Hs Hc.
  destruct (proj1 (generateData_normal_iff model fn) Hc) as [d Hd].
  exists d. split; [exact Hd|].
  rewrite update_unfold, Hs. cbv zeta.
  set (fn1 := set_lastParams _ _).
  assert (Hd1 : fst (generateData model fn1) = Normal d)
    by (rewrite <- Hd; symmetry; now apply generateData_ext).
  destruct (generateData model fn1) as [c fn2] eqn:E. cbn in Hd1. subst c.
  destruct (generateData_fields model fn1 fn2 d E)
    as (F1 & F2 & F3 & F4 & F5 & F6 & F7 & _).
  set (fn3 := set_data d fn2).
  destruct (generateDots_fields fn3) as (G1 & G2 & G3 & G4 & G5 & G6 & G7 & _).
  set (fn4 := if JS.truthy (attr fn3 showDots) then _ else _).
  assert (K : data fn4 = d /\ version fn4 = S (version fn)
              /\ lastInitial fn4
                 = resolveInitial (currentParamValues model) (initial fn)
              /\ lastParams fn4 = currentParamValues model).
  { subst fn4. destruct (JS.truthy (attr fn3 showDots)).
    - rewrite G1, G2, G4, G5. subst fn3. cbn. rewrite F2, F4, F5.
      repeat split; reflexivity.
    - subst fn3. cbn. rewrite F2, F4, F5. repeat split; reflexivity. }
  destruct K as (K1 & K2 & K3 & K4).
  destruct (graph (set_hasChanged true fn4)); cbn; repeat split; assumption.
Qed.

End Gate.

Section Ticks.
Context `{Host}.

Lemma generateData_attr (model : Model) (fn : ODE) :
  attr (snd (generateData model fn)) = attr fn.
Proof.
  unfold generateData. cbn.
  destruct (math_compile (updateFunctionString (dxdtDef fn) (scope_of model)));
    cbn; [|reflexivity].
  destruct (math_compile (updateFunctionString (dydtDef fn) (scope_of model)));
    reflexivity.
Qed.

(** Whatever the branch and the outcome, the attributes a tick leaves are
    those its eight assignments computed. *)
Lemma update_attr (force : bool) (model : Model) (fn : ODE) :
  attr (snd (update force model fn)) = attr (reevaluateAttrs model fn).
Proof.
  rewrite update_unfold.
  destruct (stale force model fn); [|reflexivity].
  cbv zeta. set (fn1 := set_lastParams _ _).
  pose proof (generateData_attr model fn1) as Ha.
  destruct (generateData model fn1) as [[d|] fn2]; cbn [fst snd] in Ha |- *.
  - set (fn3 := set_data d fn2).
    destruct (generateDots_fields fn3) as (_ & _ & G3 & _).
    set (fn4 := if JS.truthy (attr fn3 showDots) then _ else _).
    assert (K : attr fn4 = attr fn1).
    { subst fn4. destruct (JS.truthy (attr fn3 showDots));
        [rewrite G3|]; exact Ha. }
    destruct (graph (set_hasChanged true fn4)); exact K.
  - exact Ha.
Qed.

(** Each of the eight attributes is passed through [evaluateExpr] on
    every tick, stale or not. *)
Lemma update_reevaluates (force : bool) (model : Model) (fn : ODE) (a : Attr) :
  reevaluated a = true ->
  attr (snd (update force model fn)) a = evaluateExpr (attr fn a) model.
Proof.
  intros Ha. rewrite update_attr. unfold reevaluateAttrs. cbn.
  now rewrite Ha.
Qed.

(** What is passed is the field's current value: once it holds a value
    that is not a string, no later tick changes it, whatever the model. *)
Lemma update_keeps_evaluated (force : bool) (model : Model) (fn : ODE)
    (a : Attr) :
  (forall e, attr fn a <> VStr e) ->
  attr (snd (update force model fn)) a = attr fn a.
Proof.
  intros Hns. rewrite update_attr. unfold reevaluateAttrs. cbn.
  destruct (reevaluated a); [|reflexivity].
  destruct (attr fn a) as [| | b | n | e]; try reflexivity.
  now destruct (Hns e).
Qed.

(** C3.  With formulas that compile, a tick regenerates the trajectory
    and counts a new version exactly when the state is stale as the
    specification declares it (forced, empty trajectory, resolved initial
    condition not strictly equal to the recorded one, or a parameter not
    strictly equal to its recorded value, a new name included); otherwise
    it reports unchanged, recomputes nothing and keeps the version. *)
Theorem update_gate (force : bool) (model : Model) (fn : ODE) :
  compiles model fn ->
  let after := snd (update force model fn) in
  (declaredStale force model fn ->
     exists trajectory : list State.t,
       fst (generateData model fn) = Normal trajectory
       /\ fst (update force model fn) = Normal tt
       /\ data after = trajectory
       /\ version after = S (version fn)
       /\ hasChanged after = true
       /\ lastInitial after
          = resolveInitial (currentParamValues model) (initial fn)
       /\ lastParams after = currentParamValues model)
  /\ (~ declaredStale force model fn ->
        fst (update force model fn) = Normal tt
        /\ hasChanged after = false
        /\ version after = version fn
        /\ data after = data fn
        /\ dots after = dots fn
        /\ dxdtCompiled after = dxdtCompiled fn
        /\ dydtCompiled after = dydtCompiled fn)
  /\ (version after = S (version fn) <-> declaredStale force model fn).
Proof.
  intros Hc after. subst after.
  destruct (stale force model fn) eqn:Hs.
  - pose proof (proj1 (stale_declared force model fn) Hs) as Hd.
    destruct (update_regenerates force model fn Hs Hc)
      as (d & R1 & R2 & R3 & R4 & R5 & R6 & R7).
    split; [|split].
    + intros _. exists d. repeat split; assumption.
    + intros Hn. now destruct Hn.
    + tauto.
  - assert (Hn : ~ declaredStale force model fn).
    { intros Hd. apply stale_declared in Hd. congruence. }
    destruct (update_fresh force model fn Hs)
      as (R1 & R2 & R3 & R4 & R5 & _ & _ & R8 & R9).
    split; [|split].
    + intros Hd. now destruct Hn.
    + intros _. repeat split; assumption.
    + split; [|tauto]. intros Hv. rewrite R3 in Hv. lia.
Qed.

(** C9.  Only the names of the current snapshot are compared: when every
    current parameter is strictly equal to its recorded value, the
    resolved initial condition is strictly equal to the recorded one and
    the trajectory is not empty, an unforced tick reports unchanged and
    keeps version and trajectory, whatever other names the recorded
    snapshot holds. *)
Theorem update_ignores_removed_parameters (model : Model) (fn : ODE) :
  let ps := currentParamValues model in
  let r := resolveInitial ps (initial fn) in
  data fn <> [] ->
  (fst (lastInitial fn) === fst r)%js = true ->
  (snd (lastInitial fn) === snd r)%js = true ->
  (forall k v, ps !! k = Some v ->
     exists old, lastParams fn !! k = Some old /\ (v === old)%js = true) ->
  let after := snd (update false model fn) in
  fst (update false model fn) = Normal tt
  /\ hasChanged after = false
  /\ version after = version fn
  /\ data after = data fn
  /\ lastParams after = lastParams fn.
Proof.
  intros ps r Hdata Hx Hy Hps after. subst after.
  assert (Hs : stale false model fn = false).
  { destruct (stale false model fn) eqn:Hs; [|reflexivity]. exfalso.
    apply stale_declared in Hs.
    destruct Hs as [Hf | [He | [Hi | [Hi | (k & v & Hk & Hd)]]]].
    - discriminate.
    - contradiction.
    - fold ps in Hi. fold r in Hi. rewrite Hx in Hi. discriminate.
    - fold ps in Hi. fold r in Hi. rewrite Hy in Hi. discriminate.
    - destruct (Hps k v Hk) as (old & Ho & Heq).
      specialize (Hd old Ho). rewrite Heq in Hd. discriminate. }
  destruct (update_fresh false model fn Hs)
    as (R1 & R2 & R3 & R4 & _ & _ & R7 & _).
  repeat split; assumption.
Qed.

(** C10.  With the dots switched off or an empty trajectory,
    [generateDots] returns the empty sequence and leaves the engine, its
    [dots] field included, as it was; in the remaining case the sequence
    it returns is the one it stores in [dots]. *)
Theorem generateDots_keeps_dots_when_disabled (fn : ODE) :
  (JS.truthy (attr fn showDots) = false \/ data fn = [] ->
     generateDots fn = ([], fn))
  /\ (JS.truthy (attr fn showDots) = true -> data fn <> [] ->
        dots (snd (generateDots fn)) = fst (generateDots fn)).
Proof.
  unfold generateDots. split.
  - intros [Hoff | Hempty].
    + now rewrite Hoff.
    + rewrite Hempty. cbn. now rewrite orb_true_r.
  - intros Hon Hdata. rewrite Hon. cbn.
    destruct (data fn); [contradiction|]. reflexivity.
Qed.

(** A stale tick whose formulas do not compile throws: no trajectory is
    stored and no version counted, yet the initial condition and the
    parameters have already been recorded. *)
Lemma update_throws (force : bool) (model : Model) (fn : ODE) :
  stale force model fn = true ->
  ~ compiles model fn ->
  let after := snd (update force model fn) in
  fst (update force model fn) = Throw
  /\ data after = data fn
  /\ version after = version fn
  /\ lastParams after = currentParamValues model.
Proof.
  intros Hs Hn. rewrite update_unfold, Hs. cbv zeta.
  set (fn1 := set_lastParams _ _).
  assert (Hn1 : ~ compiles model fn1) by exact Hn.
  destruct (generateData_compile_failure model fn1 Hn1) as (T1 & T2 & T3).
  assert (T4 : lastParams (snd (generateData model fn1))
               = currentParamValues model).
  { unfold generateData. cbn.
    destruct (math_compile (updateFunctionString (dxdtDef fn) (scope_of model)));
      cbn; [|reflexivity].
    destruct (math_compile (updateFunctionString (dydtDef fn) (scope_of model)));
      reflexivity. }
  destruct (generateData model fn1) as [[d|] fn2]; cbn [fst snd] in *;
    [discriminate|].
  repeat split; assumption.
Qed.

End Ticks.

(** C3 at a concrete engine: the first tick finds an empty trajectory and
    regenerates; the next one, under the same parameters, does not; a
    changed parameter value regenerates again. *)
Lemma update_gate_witness :
  let model := modelOf [("a", num 1)] in
  let fresh := snd (@update demoHost false model line3) in
  @compiles demoHost model line3
  /\ version fresh = 1%nat
  /\ hasChanged fresh = true
  /\ version (snd (@update demoHost false model fresh)) = 1%nat
  /\ hasChanged (snd (@update demoHost false model fresh)) = false
  /\ version (snd (@update demoHost false (modelOf [("a", num 2)]) fresh))
     = 2%nat.
Proof.
  intros model fresh.
  assert (Hc : forall m f, dxdtDef f = "1" -> dydtDef f = "0" ->
                 @compiles demoHost m f).
  { intros m f Hx Hy. unfold compiles. cbn. rewrite Hx, Hy.
    split; eexists; reflexivity. }
  split; [apply Hc; reflexivity|].
  destruct (@update_gate demoHost false model line3
              (Hc model line3 eq_refl eq_refl)) as (Hstale & _ & _).
  destruct Hstale as (d & _ & _ & _ & Hv & Hh & _).
  { right. left. reflexivity. }
  split; [exact Hv|]. split; [exact Hh|].
  destruct (@update_gate demoHost false model fresh
              (Hc model fresh eq_refl eq_refl)) as (_ & Hfresh & _).
  destruct Hfresh as (_ & Hh' & Hv' & _).
  { intros Hd. apply stale_declared in Hd.
    vm_compute in Hd. discriminate. }
  split; [rewrite Hv'; exact Hv|]. split; [exact Hh'|].
  destruct (@update_gate demoHost false (modelOf [("a", num 2)]) fresh
              (Hc (modelOf [("a", num 2)]) fresh eq_refl eq_refl))
    as (Hstale & _ & _).
  destruct Hstale as (d' & _ & _ & _ & Hv'' & _).
  { apply stale_declared. vm_compute. reflexivity. }
  rewrite Hv''. apply (f_equal S). exact Hv.
Defined.

(** C9 at a concrete engine: the recorded snapshot holds [a] and [gone],
    the current one only [a]. *)
Lemma update_ignores_removed_parameters_witness :
  let model := modelOf [("a", num 1)] in
  lastParams ticked !! "gone" = Some (num 2)
  /\ currentParamValues model !! "gone" = None
  /\ data ticked <> []
  /\ fst (@update demoHost false model ticked) = Normal tt
  /\ hasChanged (snd (@update demoHost false model ticked)) = false
  /\ version (snd (@update demoHost false model ticked)) = version ticked.
Proof.
  intros model.
  assert (Hdata : data ticked <> []) by (vm_compute; discriminate).
  split; [vm_compute; reflexivity|].
  split; [vm_compute; reflexivity|].
  split; [exact Hdata|].
  destruct (@update_ignores_removed_parameters demoHost model ticked Hdata)
    as (R1 & R2 & R3 & _).
  - vm_compute. reflexivity.
  - vm_compute. reflexivity.
  - intros k v Hk. cbn in Hk.
    destruct (decide (k = "a")) as [->|Hne].
    + rewrite lookup_insert_eq in Hk. injection Hk as <-.
      exists (num 1). split; vm_compute; reflexivity.
    + rewrite lookup_insert_ne in Hk by congruence.
      rewrite lookup_empty in Hk. discriminate.
  - exact (conj R1 (conj R2 R3)).
Defined.

(** C10 at a concrete engine: dots sampled, then switched off; the next
    [generateDots] returns nothing and the two old samples stay
    published. *)
Lemma generateDots_keeps_dots_when_disabled_witness :
  JS.truthy (attr hidden showDots) = false
  /\ @generateDots demoHost hidden = ([], hidden)
  /\ dots hidden
     = [Some (State.mk (num 0) (num 0)); Some (State.mk (num 10) (num 0))]
  /\ JS.truthy (attr sampled showDots) = true
  /\ data sampled <> []
  /\ dots sampled = fst (@generateDots demoHost (holding 12 (dotsOn (num 10)))).
Proof.
  assert (Hoff : JS.truthy (attr hidden showDots) = false) by reflexivity.
  split; [exact Hoff|].
  split; [apply (@generateDots_keeps_dots_when_disabled demoHost hidden);
          left; exact Hoff|].
  split; [vm_compute; reflexivity|].
  split; [reflexivity|].
  split; [vm_compute; discriminate|].
  apply (@generateDots_keeps_dots_when_disabled demoHost
           (holding 12 (dotsOn (num 10)))).
  - reflexivity.
  - vm_compute. discriminate.
Defined.

(** C6.  An attribute configured as the expression [params.show] is
    evaluated by the constructor and the number it gave replaces the
    expression in the field; later ticks pass that number to
    [evaluateExpr], which returns it, so the field stays 1 while the
    expression, under the current parameters, is 0. *)
Theorem attribute_expression_is_evaluated_once :
  let later := modelOf [("show", num 0)] in
  attr shown showDots = VNum (num 1)
  /\ @evaluateExpr demoHost (VStr "params.show") later = VNum (num 0)
  /\ attr (snd (@update demoHost false later shown)) showDots = VNum (num 1)
  /\ attr (snd (@update demoHost true later shown)) showDots = VNum (num 1)
  /\ attr (snd (@update demoHost false later
                  (snd (@update demoHost false later shown)))) showDots
     = VNum (num 1).
Proof.
  intros later.
  split; [vm_compute; reflexivity|].
  split; [vm_compute; reflexivity|].
  split; [vm_compute; reflexivity|].
  split; vm_compute; reflexivity.
Qed.

(** C4.  For a negative time the index [floor(t / dt)] is negative,
    [Math.min] leaves it negative, and the array read gives [undefined],
    where the clamped index of the specification gives the first
    state. *)
Theorem evaluate_negative_time_is_undefined :
  let fn := holding 2 noAttrs in
  dt fn = num 1
  /\ data fn = [State.mk (num 0) (num 0); State.mk (num 1) (num 0)]
  /\ evaluate fn (num (-1)) = None
  /\ evaluateAt fn (num (-1)) = Some (State.mk (num 0) (num 0)).
Proof.
  intros fn.
  split; [vm_compute; reflexivity|].
  split; [vm_compute; reflexivity|].
  split; vm_compute; reflexivity.
Qed.

(* ================================================================== *)
(** ** The dot sampler *)
(* ================================================================== *)

Section WholeNumbers.

Lemma isWhole_of_nat (k : nat) : isWhole (JS.of_nat k) k.
Proof. cbn. reflexivity. Qed.

Lemma isWhole_add (a b : number) (m k : nat) :
  isWhole a m -> isWhole b k -> isWhole (a + b)%js (m + k).
Proof.
  destruct a as [| |p], b as [| |q]; cbn; try contradiction.
  intros -> ->. rewrite Nat2Z.inj_add, inject_Z_plus. reflexivity.
Qed.

Lemma isWhole_mul (a b : number) (m k : nat) :
  isWhole a m -> isWhole b k -> isWhole (a * b)%js (m * k).
Proof.
  destruct a as [| |p], b as [| |q]; cbn; try contradiction.
  intros -> ->. rewrite Nat2Z.inj_mul, inject_Z_mult. reflexivity.
Qed.

Lemma lt_whole (a b : number) (m k : nat) :
  isWhole a m -> isWhole b k -> (a <? b)%js = (m <? k)%nat.
Proof.
  destruct a as [| |p], b as [| |q]; cbn [isWhole]; try contradiction.
  intros Hp Hq. cbn [JS.lt]. unfold JS.Qltb.
  destruct (Nat.ltb_spec m k) as [Hlt|Hge].
  - apply negb_true_iff, not_true_iff_false. rewrite Qle_bool_iff.
    rewrite Hp, Hq, <- Zle_Qle. lia.
  - apply negb_false_iff. rewrite Qle_bool_iff.
    rewrite Hp, Hq, <- Zle_Qle. lia.
Qed.

Lemma index_whole {A : Type} (a : list A) (n : number) (m : nat) :
  isWhole n m -> JS.index a n = a !! m.
Proof.
  destruct n as [| |q]; cbn; try contradiction.
  intros Hq.
  assert (Hf : Qfloor q = Z.of_nat m) by (rewrite Hq; apply Qfloor_Z).
  rewrite Hf.
  replace (Qeq_bool (inject_Z (Z.of_nat m)) q) with true
    by (symmetry; apply Qeq_bool_iff; now symmetry).
  replace (0 <=? Z.of_nat m)%Z with true by (symmetry; apply Z.leb_le; lia).
  cbn. now rewrite Nat2Z.id.
Qed.

(** The sampling loop with a whole stride of at least 1 and enough fuel:
    its [k]-th push is the read at index [m + k * stride], as long as that
    index is below the length. *)
Lemma dotsLoop_lookup (data : list State.t) (sn : number) (stride : nat) :
  isWhole sn stride -> (1 <= stride)%nat ->
  forall (fuel : nat) (i : number) (m k : nat),
    isWhole i m ->
    (length data <= m + fuel)%nat ->
    dotsLoop fuel data i sn !! k
    = if (m + k * stride <? length data)%nat
      then Some (data !! (m + k * stride)%nat)
      else None.
Proof.
  intros Hsn Hpos fuel.
  induction fuel as [|fuel IH]; intros i m k Hi Hfuel.
  - destruct (Nat.ltb_spec (m + k * stride) (length data)); [lia|].
    reflexivity.
  - cbn [dotsLoop]. rewrite (lt_whole i _ m (length data) Hi (isWhole_of_nat _)).
    destruct (Nat.ltb_spec m (length data)) as [Hlt|Hge].
    + destruct k as [|k].
      * rewrite Nat.mul_0_l, Nat.add_0_r.
        destruct (Nat.ltb_spec m (length data)); [|lia].
        cbn [lookup list_lookup].
        now rewrite (index_whole data i m Hi).
      * cbn [lookup list_lookup].
        change (dotsLoop fuel data (i + sn)%js sn !! k
                = if (m + S k * stride <? length data)%nat
                  then Some (data !! (m + S k * stride)%nat) else None).
        rewrite (IH (i + sn)%js (m + stride)%nat k
                   (isWhole_add _ _ _ _ Hi Hsn)) by lia.
        replace (m + stride + k * stride)%nat with (m + S k * stride)%nat
          by lia.
        reflexivity.
    + destruct (Nat.ltb_spec (m + k * stride) (length data)) as [Hlt|_];
        [lia|]. reflexivity.
Qed.

End WholeNumbers.

Section Sampler.
Context `{Host}.

Lemma isWhole_one : isWhole (num 1) 1.
Proof. cbn. reflexivity. Qed.

Lemma isWhole_inj (n : number) (j k : nat) :
  isWhole n j -> isWhole n k -> j = k.
Proof.
  destruct n as [| |q]; cbn; try contradiction.
  intros Hj Hk.
  assert (E : inject_Z (Z.of_nat j) == inject_Z (Z.of_nat k))
    by (rewrite <- Hj; exact Hk).
  apply (proj1 (inject_Z_injective _ _)) in E. lia.
Qed.

(** [Math.max(1, v)] is 1 or [v], and [v] only when it exceeds 1. *)
Lemma max_one_cases (v : number) :
  JS.max (num 1) v = NaN
  \/ JS.max (num 1) v = num 1
  \/ (JS.max (num 1) v = v /\ (num 1 <? v)%js = true).
Proof.
  destruct v as [|s|q].
  - left. reflexivity.
  - right. unfold JS.max. change (num 1) with (Fin (inject_Z 1)). cbv iota.
    destruct (Fin (inject_Z 1) <? Inf s)%js; auto.
  - right. unfold JS.max. change (num 1) with (Fin (inject_Z 1)). cbv iota.
    destruct (Fin (inject_Z 1) <? Fin q)%js; auto.
Qed.

(** The stride of the loop is never below 1. *)
Lemma strideOf_at_least_one (length : nat) (spacing : number) (stride : nat) :
  isWhole (strideOf length spacing) stride -> (1 <= stride)%nat.
Proof.
  unfold strideOf, dotStride.
  set (s := if JS.truthy (VNum spacing) then spacing else num 10).
  destruct (s <? num 1)%js eqn:Hlt.
  - destruct (max_one_cases (JS.floor (JS.fmul (JS.of_nat length) s)))
      as [-> | [-> | [-> Hgt]]].
    + contradiction.
    + intros Hw. now rewrite (isWhole_inj _ _ _ Hw isWhole_one).
    + intros Hw. rewrite (lt_whole _ _ 1 stride isWhole_one Hw) in Hgt.
      apply Nat.ltb_lt in Hgt. lia.
  - intros Hw. rewrite (lt_whole _ _ stride 1 Hw isWhole_one) in Hlt.
    apply Nat.ltb_ge in Hlt. exact Hlt.
Qed.

(** For a positive spacing the stride of the loop is the stride the
    specification describes. *)
Lemma strideOf_positive (length : nat) (spacing : number) :
  (num 0 <? spacing)%js = true ->
  strideOf length spacing = claimedStride length spacing.
Proof.
  intros Hpos. unfold strideOf, claimedStride, dotStride. rewrite Hpos.
  assert (Ht : JS.truthy (VNum spacing) = true).
  { destruct spacing as [|s|q]; cbn in Hpos |- *; try discriminate.
    - reflexivity.
    - unfold JS.Qltb in Hpos. unfold JS.Qzero.
      apply negb_true_iff. apply not_true_iff_false.
      rewrite Qeq_bool_iff. intros Hq.
      apply negb_true_iff, not_true_iff_false in Hpos. apply Hpos.
      apply Qle_bool_iff. rewrite Hq. apply Qle_refl. }
  rewrite Ht. reflexivity.
Qed.

(** The sampling branch stores what it returns. *)
Lemma generateDots_stores (fn : ODE) :
  JS.truthy (attr fn showDots) = true -> data fn <> [] ->
  dots (snd (generateDots fn)) = fst (generateDots fn).
Proof.
  intros Hon Hdata. unfold generateDots. rewrite Hon. cbn.
  destruct (data fn); [contradiction|]. reflexivity.
Qed.

(** What [generateDots] returns when it samples with a numeric spacing. *)
Lemma generateDots_numeric (fn : ODE) (spacing : number) :
  JS.truthy (attr fn showDots) = true ->
  data fn <> [] ->
  attr fn dotSpacing = VNum spacing ->
  fst (generateDots fn)
  = dotsLoop (length (data fn)) (data fn) (num 0)
      (strideOf (length (data fn)) spacing).
Proof.
  intros Hon Hdata Hsp. unfold generateDots. rewrite Hon, Hsp.
  destruct (data fn) as [|s0 rest] eqn:Ed; [contradiction|].
  cbn [negb orb length Nat.eqb fst].
  unfold strideOf, JS.or_else.
  destruct (JS.truthy (VNum spacing)); reflexivity.
Qed.

(** C5, as the code has it.  With dots enabled, a non-empty trajectory
    and a numeric spacing, the loop steps by [strideOf]: a spacing of 0 or
    NaN is first replaced by 10; a spacing below 1, negative ones included,
    gives [max(1, floor(length * spacing))], the product rounded to
    binary64 as the program computes it; any other spacing is the stride
    itself.  For a positive spacing this is the stride of the
    specification.  Whenever the stride is a whole number, it is at least
    1 and the dots are exactly the trajectory states at the indices
    [0, stride, 2 * stride, ...] below the length, index 0 included, and
    they are what the [dots] field then holds. *)
Theorem generateDots_samples (fn : ODE) (spacing : number) (stride : nat) :
  JS.truthy (attr fn showDots) = true ->
  data fn <> [] ->
  attr fn dotSpacing = VNum spacing ->
  isWhole (strideOf (length (data fn)) spacing) stride ->
  let pushed := fst (generateDots fn) in
  (1 <= stride)%nat
  /\ ((num 0 <? spacing)%js = true ->
        strideOf (length (data fn)) spacing
        = claimedStride (length (data fn)) spacing)
  /\ sampledAt (data fn) (strideOf (length (data fn)) spacing) pushed
  /\ (forall k, (k * stride < length (data fn))%nat ->
        exists s, data fn !! (k * stride)%nat = Some s
                  /\ pushed !! k = Some (Some s))
  /\ (forall k, (length (data fn) <= k * stride)%nat -> pushed !! k = None)
  /\ pushed !! 0%nat = Some (data fn !! 0%nat)
  /\ dots (snd (generateDots fn)) = pushed.
Proof.
  intros Hon Hdata Hsp Hw pushed.
  pose proof (strideOf_at_least_one _ _ _ Hw) as Hpos.
  assert (Hk : forall k,
             pushed !! k
             = if (k * stride <? length (data fn))%nat
               then Some (data fn !! (k * stride)%nat) else None).
  { intros k. subst pushed. rewrite (generateDots_numeric fn spacing Hon Hdata Hsp).
    rewrite (dotsLoop_lookup (data fn) _ stride Hw Hpos
               (length (data fn)) (num 0) 0 k (isWhole_of_nat 0)) by lia.
    reflexivity. }
  assert (Hin : forall k, (k * stride < length (data fn))%nat ->
             exists s, data fn !! (k * stride)%nat = Some s
                       /\ pushed !! k = Some (Some s)).
  { intros k Hlt. destruct (lookup_lt_is_Some_2 (data fn) _ Hlt) as [s Hs].
    exists s. split; [exact Hs|]. rewrite Hk.
    destruct (Nat.ltb_spec (k * stride) (length (data fn))); [|lia].
    now rewrite Hs. }
  assert (Hout : forall k, (length (data fn) <= k * stride)%nat ->
             pushed !! k = None).
  { intros k Hge. rewrite Hk.
    destruct (Nat.ltb_spec (k * stride) (length (data fn))); [lia|].
    reflexivity. }
  split; [exact Hpos|]. split; [apply strideOf_positive|].
  split; [|split; [exact Hin|split; [exact Hout|split]]].
  - intros k.
    pose proof (isWhole_mul _ _ _ _ (isWhole_of_nat k) Hw) as Hi.
    rewrite (lt_whole _ _ _ _ Hi (isWhole_of_nat (length (data fn)))).
    rewrite (index_whole (data fn) _ _ Hi).
    destruct (Nat.ltb_spec (k * stride) (length (data fn))) as [Hlt|Hge].
    + apply Hin, Hlt.
    + apply Hout, Hge.
  - destruct (Hin 0%nat) as (s & Hs & Hd).
    + destruct (data fn); [contradiction|]. cbn. lia.
    + rewrite Hd. rewrite Nat.mul_0_l in Hs. now rewrite Hs.
  - apply generateDots_stores; assumption.
Qed.

End Sampler.

(** C5, the claim as stated, fails at a spacing of 0: it is not a fraction
    in (0,1), so the claimed stride is the spacing itself, and no finite
    sequence holds a state for every multiple of 0; the code replaces the
    0 by 10 and returns the states at indices 0 and 10. *)
Lemma spacing_zero_is_not_the_stride :
  JS.truthy (attr spacedZero showDots) = true
  /\ data spacedZero <> []
  /\ attr spacedZero dotSpacing = VNum (num 0)
  /\ claimedStride (length (data spacedZero)) (num 0) = num 0
  /\ strideOf (length (data spacedZero)) (num 0) = num 10
  /\ fst (@generateDots demoHost spacedZero)
     = [Some (State.mk (num 0) (num 0)); Some (State.mk (num 10) (num 0))]
  /\ ~ sampledAt (data spacedZero)
         (claimedStride (length (data spacedZero)) (num 0))
         (fst (@generateDots demoHost spacedZero)).
Proof.
  split; [reflexivity|].
  split; [vm_compute; discriminate|].
  split; [reflexivity|].
  split; [vm_compute; reflexivity|].
  split; [vm_compute; reflexivity|].
  split; [vm_compute; reflexivity|].
  intros Hs. specialize (Hs 2%nat). vm_compute in Hs.
  destruct Hs as (s & _ & Hs). discriminate.
Qed.

(** C5 at the specification's first example: a hundred states and a
    spacing of 0.25 give the stride 25 and the indices 0, 25, 50, 75. *)
Lemma generateDots_samples_witness :
  let fn := hundred (Fin (1 # 4)) in
  JS.truthy (attr fn showDots) = true
  /\ data fn <> []
  /\ attr fn dotSpacing = VNum (Fin (1 # 4))
  /\ isWhole (strideOf (length (data fn)) (Fin (1 # 4))) 25
  /\ sampledAt (data fn) (strideOf (length (data fn)) (Fin (1 # 4)))
       (fst (@generateDots demoHost fn))
  /\ dotXs (fst (@generateDots demoHost fn))
     = [Some (num 0); Some (num 25); Some (num 50); Some (num 75)].
Proof.
  intros fn.
  assert (Hon : JS.truthy (attr fn showDots) = true) by reflexivity.
  assert (Hdata : data fn <> []) by (vm_compute; discriminate).
  assert (Hsp : attr fn dotSpacing = VNum (Fin (1 # 4))) by reflexivity.
  assert (Hw : isWhole (strideOf (length (data fn)) (Fin (1 # 4))) 25)
    by (vm_compute; reflexivity).
  split; [exact Hon|]. split; [exact Hdata|]. split; [exact Hsp|].
  split; [exact Hw|].
  split.
  - exact (proj1 (proj2 (proj2
             (@generateDots_samples demoHost fn (Fin (1 # 4)) 25
                Hon Hdata Hsp Hw)))).
  - vm_compute. reflexivity.
Defined.

(** The specification's second example: a spacing of 10 gives the
    indices 0, 10, ..., 90. *)
Lemma generateDots_every_ten :
  dotXs (fst (@generateDots demoHost (hundred (num 10))))
  = map (fun k => Some (JS.of_nat (10 * k))) (seq 0 10).
Proof. vm_compute. reflexivity. Qed.

(** A stride that is not a whole number reads between the states: the
    dot pushed for index 1.5 is [undefined]. *)
Lemma generateDots_fractional_stride :
  dotXs (fst (@generateDots demoHost (holding 4 (dotsOn (Fin (3 # 2))))))
  = [Some (num 0); None; Some (num 3)].
Proof. vm_compute. reflexivity. Qed.

(** A negative spacing is below 1 and gives the stride 1. *)
Lemma generateDots_negative_spacing :
  strideOf 4 (num (-2)) = num 1
  /\ dotXs (fst (@generateDots demoHost (holding 4 (dotsOn (num (-2))))))
     = [Some (num 0); Some (num 1); Some (num 2); Some (num 3)].
Proof. split; vm_compute; reflexivity. Qed.

(** [JS.round] at values of the program: 0.1 + 0.2 is
    0.30000000000000004 and not 0.3; 0.1 added three times, as the
    integrator adds a step of 0.1 along dx/dt = 1, is the same value;
    1e308 * 3 overflows; the least subnormal number is kept and half of
    it is rounded to zero; whole numbers up to 2^53 are kept and 2^53 + 1
    is rounded to 2^53. *)
Lemma round_examples :
  (JS.fadd (JS.round (1 # 10)) (JS.round (2 # 10))
   === JS.round (30000000000000004 # 100000000000000000))%js = true
  /\ (JS.fadd (JS.round (1 # 10)) (JS.round (2 # 10))
      === JS.round (3 # 10))%js = false
  /\ (JS.fadd (JS.fadd (JS.round (1 # 10)) (JS.round (1 # 10)))
               (JS.round (1 # 10))
      === JS.round (30000000000000004 # 100000000000000000))%js = true
  /\ JS.fmul (JS.round (inject_Z (10 ^ 308))) (num 3) = Inf false
  /\ (JS.round (1 # Pos.pow 2 1074) === Fin (1 # Pos.pow 2 1074))%js = true
  /\ (JS.round (1 # Pos.pow 2 1075) === num 0)%js = true
  /\ (JS.round (inject_Z (2 ^ 53)) === JS.of_Z (2 ^ 53))%js = true
  /\ (JS.round (inject_Z (2 ^ 53 + 1)) === JS.of_Z (2 ^ 53))%js = true.
Proof. repeat split; vm_compute; reflexivity. Qed.

(** The product is the program's.  For a hundred states and the
    binary64 value nearest to 0.3 the product before rounding is below
    30 and its floor is 29; the program rounds the product to 30, and
    the stride is 30: the indices are 0, 30, 60, 90. *)
Lemma generateDots_rounded_product :
  JS.floor (JS.of_nat 100 * JS.round (3 # 10))%js = num 29
  /\ strideOf 100 (JS.round (3 # 10)) = num 30
  /\ dotXs (fst (@generateDots demoHost (hundred (JS.round (3 # 10)))))
     = [Some (num 0); Some (num 30); Some (num 60); Some (num 90)].
Proof. repeat split; vm_compute; reflexivity. Qed.

(* ================================================================== *)
(** ** Properties of the scheduler *)
(* ================================================================== *)

Section Scheduler.
Context `{Host}.
Import Animation.

Lemma cancel_same (h : nat) : cancel h [h] = [].
Proof.
  unfold cancel. rewrite filter_cons_False by (intros Hn; now apply Hn).
  reflexivity.
Qed.

Lemma isSet_positive (h : nat) : (1 <= h)%nat -> isSet (Some h) = true.
Proof.
  intros Hh. cbn. apply negb_true_iff, Nat.eqb_neq. lia.
Qed.

(** [stop] leaves no animation frame pending and touches nothing else of
    the browser. *)
Lemma stop_spec (w : World) :
  frameHeld w ->
  animationFrames (browser (stop w)) = []
  /\ _active (animator (stop w)) = false
  /\ timeouts (browser (stop w)) = timeouts (browser w)
  /\ nextTimeout (browser (stop w)) = nextTimeout (browser w)
  /\ nextFrame (browser (stop w)) = nextFrame (browser w)
  /\ _restartTimeout (animator (stop w)) = _restartTimeout (animator w)
  /\ _paused (animator (stop w)) = _paused (animator w)
  /\ motionLoops (stop w) = motionLoops w
  /\ fn (stop w) = fn w.
Proof.
  intros Hf. unfold stop.
  destruct (negb (_active (animator w)) && negb (isSet (_handle (animator w))))
    eqn:Hguard.
  - apply andb_true_iff in Hguard as [Ha Hh].
    apply negb_true_iff in Ha, Hh.
    destruct Hf as [Hf | (h & Hpos & Hhandle & Hf)].
    + repeat split; auto.
    + rewrite Hhandle, (isSet_positive h Hpos) in Hh. discriminate.
  - destruct Hf as [Hf | (h & Hpos & Hhandle & Hf)].
    + destruct (_handle (animator w)) as [h|]; cbn;
        [destruct (negb (h =? 0)%nat); cbn|]; rewrite ?Hf;
        repeat split; reflexivity.
    + rewrite Hhandle, (isSet_positive h Hpos). cbn. rewrite Hf, cancel_same.
      repeat split; reflexivity.
Qed.

Lemma stop_wellFormed (w : World) : wellFormed w -> wellFormed (stop w).
Proof.
  intros (Ht & Hn & Htimer & Hframe).
  destruct (stop_spec w Hframe) as (S1 & _ & S3 & S4 & S5 & S6 & _).
  unfold wellFormed, timerHeld, frameHeld.
  rewrite S1, S3, S4, S5, S6. repeat split; auto.
Qed.

(** [start] begins at most one motion loop, and exactly one when the
    animation option is truthy and the data are not empty; the frame it
    requests is then the only one pending. *)
Lemma start_spec (o : value) (d : list State.t) (w : World) :
  wellFormed w ->
  wellFormed (start o d w)
  /\ timeouts (browser (start o d w)) = timeouts (browser w)
  /\ _restartTimeout (animator (start o d w)) = _restartTimeout (animator w)
  /\ fn (start o d w) = fn w
  /\ (if JS.truthy o && negb (length d =? 0)%nat
      then motionLoops (start o d w) = S (motionLoops w)
           /\ length (animationFrames (browser (start o d w))) = 1%nat
      else motionLoops (start o d w) = motionLoops w
           /\ animationFrames (browser (start o d w)) = []).
Proof.
  intros Hw. pose proof (stop_wellFormed w Hw) as (Ht & Hn & Htimer & Hframe).
  destruct Hw as (_ & _ & _ & Hframe0).
  destruct (stop_spec w Hframe0) as (S1 & S2 & S3 & S4 & S5 & S6 & S7 & S8 & S9).
  unfold start.
  destruct (JS.truthy o); cbn [negb orb andb].
  - destruct (length d =? 0)%nat; cbn [negb].
    + repeat split; auto.
    + cbn. unfold wellFormed, timerHeld, frameHeld. cbn.
      rewrite S1, S3, S6, S8, S9. cbn.
      unfold timerHeld in Htimer. rewrite S3, S6 in Htimer.
      repeat split; auto; try lia.
      right. exists (nextFrame (browser (stop w))).
      repeat split; auto.
  - repeat split; auto.
Qed.

(** The [animate] closure keeps at most one frame pending. *)
Lemma animate_wellFormed (w : World) :
  wellFormed w -> animationFrames (browser w) = [] ->
  wellFormed (animate w) /\ motionLoops (animate w) = motionLoops w.
Proof.
  intros (Ht & Hn & Htimer & Hframe) Hnone. unfold animate.
  destruct (_active (animator w)); cbn [negb].
  - cbn. unfold wellFormed, timerHeld, frameHeld. cbn. rewrite Hnone. cbn.
    repeat split; auto; try lia.
    right. exists (nextFrame (browser w)). repeat split; auto.
  - repeat split; auto.
Qed.

(** Replacing the engine or the loop count of a world keeps it well
    formed. *)
Lemma wellFormed_same_scheduler (w w' : World) :
  animator w' = animator w -> browser w' = browser w ->
  wellFormed w -> wellFormed w'.
Proof.
  intros Ha Hb. unfold wellFormed, timerHeld, frameHeld.
  now rewrite Ha, Hb.
Qed.

(** A trajectory [generateData] returns is never empty. *)
Lemma generateData_nonempty (model : Model) (f f' : ODE) (d : list State.t) :
  generateData model f = (Normal d, f') -> d <> [] /\ data f' = d.
Proof.
  unfold generateData. cbn.
  destruct (math_compile (updateFunctionString (dxdtDef f) (scope_of model)));
    cbn; [|discriminate].
  destruct (math_compile (updateFunctionString (dydtDef f) (scope_of model)));
    cbn; [|discriminate].
  intros [= <- <-]. split; [discriminate|reflexivity].
Qed.

(** The scheduler's [update]: it starts no motion loop; when it gets past
    drawing, no animation frame is left pending, the scheduler is
    inactive, the engine holds a non-empty trajectory, and the only
    timeout pending is the one it has just armed, if it armed one. *)
Lemma update_spec (present rendered : bool) (model : Model) (w : World) :
  wellFormed w ->
  let w' := snd (update present rendered model w) in
  wellFormed w'
  /\ motionLoops w' = motionLoops w
  /\ (present = true ->
      fst (update present rendered model w) = Normal tt ->
      animationFrames (browser w') = []
      /\ _active (animator w') = false
      /\ data (fn w') <> []
      /\ (if isAnimationOn (fn w') model
          then timeouts (browser w') = [nextTimeout (browser w)]
               /\ _restartTimeout (animator w')
                  = Some (nextTimeout (browser w))
          else timeouts (browser w') = []
               /\ _restartTimeout (animator w') = None)).
Proof.
  intros Hw. unfold update.
  destruct present; cbn [negb];
    [|split; [exact Hw|split; [reflexivity|discriminate]]].
  destruct (generateData model (fn w)) as [[d|] f] eqn:Eg;
    [|split; [now apply (wellFormed_same_scheduler w)
             |split; [reflexivity|discriminate]]].
  destruct (generateData_nonempty model (fn w) f d Eg) as [Hne Hdf].
  set (f' := if JS.truthy (attr f showDots) then snd (generateDots f) else f).
  assert (Hd' : data f' <> []).
  { subst f'. destruct (JS.truthy (attr f showDots)).
    - destruct (generateDots_fields f) as (Gd & _). rewrite Gd. congruence.
    - congruence. }
  set (w0 := mkWorld (animator w) f' (browser w) (motionLoops w)).
  assert (Hw0 : wellFormed w0)
    by now apply (wellFormed_same_scheduler w).
  destruct rendered; cbn [negb];
    [|split; [exact Hw0|split; [reflexivity|discriminate]]].
  pose proof (stop_wellFormed w0 Hw0) as (Ht & Hn & Htimer & Hframe).
  destruct Hw0 as (_ & _ & _ & Hframe0).
  destruct (stop_spec w0 Hframe0)
    as (S1 & S2 & S3 & S4 & S5 & S6 & S7 & S8 & S9).
  set (w1 := stop w0) in *.
  unfold timerHeld in Htimer.
  set (w2 := match _restartTimeout (animator w1) with
             | Some h => if isSet (Some h) then _ else w1
             | None => w1
             end).
  assert (K : nextTimeout (browser w2) = nextTimeout (browser w)
              /\ nextFrame (browser w2) = nextFrame (browser w1)
              /\ timeouts (browser w2) = []
              /\ animationFrames (browser w2) = []
              /\ _restartTimeout (animator w2) = None
              /\ _active (animator w2) = false
              /\ _handle (animator w2) = _handle (animator w1)
              /\ motionLoops w2 = motionLoops w
              /\ fn w2 = f').
  { subst w2. destruct (_restartTimeout (animator w1)) as [h|] eqn:Er.
    - destruct Htimer as [Hpos Hth].
      rewrite (isSet_positive h (proj1 Hpos)). cbn. rewrite Hth, cancel_same.
      repeat split; auto.
    - repeat split; auto. }
  destruct K as (K1 & K2 & K3 & K4 & K5 & K6 & K7 & K8 & K9).
  rewrite K9.
  destruct (isAnimationOn f' model) eqn:Eon; cbn.
  - rewrite ?K1, ?K2, ?K3, ?K4, ?K6, ?K8, ?Eon.
    unfold wellFormed, timerHeld, frameHeld. cbn.
    destruct Hw as (Hw1 & _).
    repeat split; auto; lia.
  - rewrite ?K3, ?K4, ?K5, ?K6, ?K8, ?Eon.
    unfold wellFormed, timerHeld, frameHeld.
    rewrite ?K1, ?K2, ?K3, ?K4, ?K5, ?K9, ?Eon.
    destruct Hw as (Hw1 & _).
    repeat split; auto.
Qed.

(** The restart callback, run for the pending timeout: no timeout is
    left, and at most one motion loop begins; when the scheduler is
    inactive, one begins exactly if the engine's animation attribute is
    truthy and its trajectory is not empty. *)
Lemma restart_spec (h : nat) (w : World) :
  wellFormed w ->
  h ∈ timeouts (browser w) ->
  let w' := restart (mkWorld (animator w) (fn w) (clearTimeout h (browser w))
                             (motionLoops w)) in
  wellFormed w'
  /\ timeouts (browser w') = []
  /\ (motionLoops w' <= S (motionLoops w))%nat
  /\ (_active (animator w) = false ->
      if JS.truthy (attr (fn w) animation)
         && negb (length (data (fn w)) =? 0)%nat
      then motionLoops w' = S (motionLoops w)
           /\ length (animationFrames (browser w')) = 1%nat
      else motionLoops w' = motionLoops w).
Proof.
  intros (Ht & Hn & Htimer & Hframe) Hin.
  unfold timerHeld in Htimer.
  destruct (_restartTimeout (animator w)) as [h0|] eqn:Er;
    [|rewrite Htimer in Hin; now apply elem_of_nil in Hin].
  destruct Htimer as [Hpos Hth].
  rewrite Hth in Hin. apply list_elem_of_singleton in Hin. subst h0.
  unfold restart. cbn.
  set (w1 := mkWorld _ _ _ _).
  assert (Hw1 : wellFormed w1).
  { subst w1. unfold wellFormed, timerHeld, frameHeld. cbn.
    rewrite Hth, cancel_same. repeat split; auto. }
  assert (Ht1 : timeouts (browser w1) = []).
  { subst w1. cbn. rewrite Hth. apply cancel_same. }
  destruct (_active (animator w)) eqn:Ea.
  - split; [exact Hw1|]. split; [exact Ht1|].
    split; [cbn; lia|discriminate].
  - destruct (start_spec (attr (fn w) animation) (data (fn w)) w1 Hw1)
      as (Q1 & Q2 & Q3 & Q4 & Q5).
    split; [exact Q1|]. split; [now rewrite Q2|].
    change (motionLoops w1) with (motionLoops w) in Q5.
    destruct (JS.truthy (attr (fn w) animation)
              && negb (length (data (fn w)) =? 0)%nat).
    + destruct Q5 as [Q5 Q6]. split; [lia|]. intros _. now split.
    + destruct Q5 as [Q5 Q6]. split; [lia|]. intros _. exact Q5.
Qed.

Lemma step_wellFormed (e : Event) (w : World) :
  wellFormed w -> wellFormed (step e w).
Proof.
  intros Hw.
  destruct e as [present rendered model | | | o d | force model | h | h];
    cbn [step].
  - apply (update_spec present rendered model w Hw).
  - now apply stop_wellFormed.
  - unfold pause. destruct (_active (animator w)); [|exact Hw].
    apply stop_wellFormed.
    destruct Hw as (Ht & Hn & Htimer & Hframe).
    repeat split; assumption.
  - unfold resume. destruct (_paused (animator w)); [|exact Hw].
    apply start_spec.
    destruct Hw as (Ht & Hn & Htimer & Hframe).
    repeat split; assumption.
  - now apply (wellFormed_same_scheduler w).
  - case_bool_decide as Hin; [|exact Hw].
    apply (restart_spec h w Hw Hin).
  - case_bool_decide as Hin; [|exact Hw].
    destruct Hw as (Ht & Hn & Htimer & Hframe).
    assert (Hf : animationFrames (browser w) = [h]).
    { destruct Hframe as [Hf | (h0 & _ & _ & Hf)]; rewrite Hf in Hin.
      - now apply elem_of_nil in Hin.
      - apply list_elem_of_singleton in Hin. now subst h0. }
    apply animate_wellFormed.
    + unfold wellFormed, timerHeld, frameHeld. cbn.
      rewrite Hf, cancel_same. repeat split; auto.
    + cbn. rewrite Hf. apply cancel_same.
Qed.

Lemma run_wellFormed (events : list Event) (w : World) :
  wellFormed w -> wellFormed (run events w).
Proof.
  revert w. induction events as [|e events IH]; intros w Hw; [exact Hw|].
  cbn. apply IH, step_wellFormed, Hw.
Qed.

Lemma initialWorld_wellFormed (f : ODE) : wellFormed (initialWorld f).
Proof.
  unfold wellFormed, timerHeld, frameHeld. cbn. repeat split; auto.
Qed.

Lemma wellFormed_at_most_one (w : World) :
  wellFormed w ->
  (length (timeouts (browser w)) <= 1)%nat
  /\ (length (animationFrames (browser w)) <= 1)%nat.
Proof.
  intros (_ & _ & Htimer & Hframe). unfold timerHeld in Htimer. split.
  - destruct (_restartTimeout (animator w)) as [h|].
    + destruct Htimer as [_ ->]. cbn. lia.
    + rewrite Htimer. cbn. lia.
  - destruct Hframe as [-> | (h & _ & _ & ->)]; cbn; lia.
Qed.

End Scheduler.

Section Debounce.
Context `{Host}.
Import Animation.

(** C8.  After any sequence of scheduler calls, engine ticks and browser
    callbacks, the browser holds at most one restart timeout and at most
    one animation frame (hence at most one motion loop) of the scheduler.
    An [update] that gets as far as arming has first stopped the motion
    loop and cleared the pending timeout: of two [update] calls with no
    timeout firing in between, whatever the first did, the second leaves
    no frame pending and, when the animation is on, exactly one timeout,
    its own; when that timeout fires no timeout remains and at most one
    motion loop has begun, exactly one when the engine's animation
    attribute is truthy. *)
Theorem scheduler_single_loop_single_timer (engine : ODE)
    (events : list Event) (present1 rendered1 : bool) (model1 model2 : Model) :
  let w := run events (initialWorld engine) in
  let w1 := snd (update present1 rendered1 model1 w) in
  let w2 := snd (update true true model2 w1) in
  ((length (timeouts (browser w)) <= 1)%nat
   /\ (length (animationFrames (browser w)) <= 1)%nat)
  /\ (fst (update true true model2 w1) = Normal tt ->
      animationFrames (browser w2) = []
      /\ _active (animator w2) = false
      /\ motionLoops w2 = motionLoops w
      /\ (isAnimationOn (fn w2) model2 = false ->
            timeouts (browser w2) = [])
      /\ (isAnimationOn (fn w2) model2 = true ->
            let h := nextTimeout (browser w1) in
            let w3 := step (TimeoutFires h) w2 in
            timeouts (browser w2) = [h]
            /\ (forall h1, h1 ∈ timeouts (browser w1) -> h1 <> h)
            /\ timeouts (browser w3) = []
            /\ (length (animationFrames (browser w3)) <= 1)%nat
            /\ (motionLoops w3 <= S (motionLoops w))%nat
            /\ (JS.truthy (attr (fn w2) animation) = true ->
                  motionLoops w3 = S (motionLoops w)
                  /\ length (animationFrames (browser w3)) = 1%nat)
            /\ (JS.truthy (attr (fn w2) animation) = false ->
                  motionLoops w3 = motionLoops w))).
Proof.
  intros w w1 w2.
  assert (Hw : wellFormed w)
    by apply run_wellFormed, initialWorld_wellFormed.
  destruct (update_spec present1 rendered1 model1 w Hw) as (Hw1 & Hm1 & _).
  fold w1 in Hw1, Hm1.
  destruct (update_spec true true model2 w1 Hw1) as (Hw2 & Hm2 & Hu2).
  fold w2 in Hw2, Hm2, Hu2.
  split; [now apply wellFormed_at_most_one|].
  intros Hnormal.
  destruct (Hu2 eq_refl Hnormal) as (Hf2 & Ha2 & Hd2 & Harm).
  split; [exact Hf2|]. split; [exact Ha2|]. split; [congruence|].
  destruct (isAnimationOn (fn w2) model2) eqn:Eon.
  - split; [discriminate|]. intros _ h w3.
    destruct Harm as [Ht2 Hr2].
    split; [exact Ht2|].
    split.
    { intros h1 Hin. destruct Hw1 as (_ & _ & Htimer1 & _).
      unfold timerHeld in Htimer1.
      destruct (_restartTimeout (animator w1)) as [h0|].
      - destruct Htimer1 as [Hb Hh0]. rewrite Hh0 in Hin.
        apply list_elem_of_singleton in Hin. subst h1 h. lia.
      - rewrite Htimer1 in Hin. now apply elem_of_nil in Hin. }
    assert (Hin : h ∈ timeouts (browser w2))
      by (rewrite Ht2; now apply list_elem_of_singleton).
    destruct (restart_spec h w2 Hw2 Hin) as (Hw3 & Ht3 & Hle & Hstart).
    assert (E3 : w3 = restart (mkWorld (animator w2) (fn w2)
                                 (clearTimeout h (browser w2))
                                 (motionLoops w2))).
    { subst w3. cbn [step]. now rewrite (bool_decide_eq_true_2 _ Hin). }
    rewrite <- E3 in Hw3, Ht3, Hle, Hstart.
    specialize (Hstart Ha2).
    split; [exact Ht3|].
    split; [now apply wellFormed_at_most_one|].
    split; [lia|].
    assert (Hlen : (length (data (fn w2)) =? 0)%nat = false).
    { apply Nat.eqb_neq. intros Hz. apply Hd2.
      now apply length_zero_iff_nil. }
    rewrite Hlen in Hstart. cbn [negb] in Hstart.
    split; intros Htr; rewrite Htr in Hstart; cbn [andb] in Hstart.
    + destruct Hstart as [Hs1 Hs2]. split; [lia|exact Hs2].
    + lia.
  - split; [intros _; apply Harm|discriminate].
Qed.

End Debounce.

(** C8 at a concrete world: two updates in a row on an engine whose
    animation is on arm the timeouts 1 and 2; only 2 is pending after the
    second, and when it fires one motion loop begins. *)
Lemma scheduler_single_loop_single_timer_witness :
  let w := Animation.initialWorld animated in
  let w1 := snd (@Animation.update demoHost true true (modelOf []) w) in
  let w2 := snd (@Animation.update demoHost true true (modelOf []) w1) in
  let w3 := @Animation.step demoHost (Animation.TimeoutFires 2) w2 in
  fst (@Animation.update demoHost true true (modelOf []) w1) = Normal tt
  /\ Animation.timeouts (Animation.browser w1) = [1%nat]
  /\ Animation.timeouts (Animation.browser w2) = [2%nat]
  /\ Animation.timeouts (Animation.browser w3) = []
  /\ Animation.motionLoops w2 = 0%nat
  /\ Animation.motionLoops w3 = 1%nat
  /\ length (Animation.animationFrames (Animation.browser w3)) = 1%nat.
Proof.
  intros w w1 w2 w3.
  assert (Hn : fst (@Animation.update demoHost true true (modelOf []) w1)
               = Normal tt) by (vm_compute; reflexivity).
  destruct (@scheduler_single_loop_single_timer demoHost animated []
              true true (modelOf []) (modelOf []))
    as (_ & Hsecond).
  destruct (Hsecond Hn) as (_ & _ & Hm2 & _ & Harmed).
  destruct Harmed as (Ht2 & _ & Ht3 & _ & _ & Hone & _);
    [vm_compute; reflexivity|].
  destruct Hone as [Hm3 Hf3]; [vm_compute; reflexivity|].
  split; [exact Hn|].
  split; [vm_compute; reflexivity|].
  split; [exact Ht2|].
  split; [exact Ht3|].
  split; [exact Hm2|].
  split; [exact Hm3|exact Hf3].
Defined.

(* ================================================================== *)
(** ** Further facts about the definitions *)
(* ================================================================== *)

Section Literals.

Lemma prefix_trimEnd (p : string) :
  solid p = true ->
  forall s, String.prefix p s = true -> String.prefix p (JS.trimEnd s) = true.
Proof.
  induction p as [|a p IH]; intros Hp s Hs;
    [destruct (JS.trimEnd s); reflexivity|].
  cbn in Hp. apply andb_true_iff in Hp as [Ha Hp].
  destruct s as [|b s]; [discriminate|].
  cbn in Hs. destruct (ascii_dec a b) as [<-|]; [|discriminate].
  specialize (IH Hp s Hs). cbn [JS.trimEnd].
  destruct (JS.trimEnd s) as [|c r'].
  - apply negb_true_iff in Ha. rewrite Ha.
    destruct p; [|discriminate]. cbn.
    destruct (ascii_dec a a); [reflexivity|contradiction].
  - cbn. destruct (ascii_dec a a); [exact IH|contradiction].
Qed.

Lemma prefix_trimStart (a : ascii) (p s : string) :
  solid (String a p) = true ->
  String.prefix (String a p) s = true -> JS.trimStart s = s.
Proof.
  intros Hp Hs. cbn in Hp. apply andb_true_iff in Hp as [Ha _].
  destruct s as [|b s]; [reflexivity|].
  cbn in Hs. destruct (ascii_dec a b) as [<-|]; [|discriminate].
  cbn. apply negb_true_iff in Ha. now rewrite Ha.
Qed.

Lemma startsWith_trim (a : ascii) (p s : string) :
  solid (String a p) = true ->
  JS.startsWith s (String a p) = true ->
  JS.startsWith (JS.trim s) (String a p) = true.
Proof.
  unfold JS.startsWith, JS.trim. intros Hp Hs.
  rewrite (prefix_trimStart a p s Hp Hs).
  now apply prefix_trimEnd.
Qed.

(** A string that itself begins with a quote, [#], [rgb] or [hsl] passes
    the test [evaluateExpr] makes on its trimmed form. *)
Lemma isLiteral_trim (e : string) :
  isLiteral e = true -> isLiteral (JS.trim e) = true.
Proof.
  unfold isLiteral. rewrite !orb_true_iff.
  intros [[[[Hq | Hq] | Hq] | Hq] | Hq].
  - do 4 left. now apply startsWith_trim.
  - do 3 left. right. now apply startsWith_trim.
  - do 2 left. right. now apply startsWith_trim.
  - left. right. now apply startsWith_trim.
  - right. now apply startsWith_trim.
Qed.

Lemma dropLastQuote_snoc (s : string) (q : ascii) :
  JS.is_quote q = true ->
  JS.dropLastQuote (s ++ String q EmptyString) = s.
Proof.
  intros Hq. induction s as [|c s IH].
  - change (JS.dropLastQuote (String q EmptyString) = EmptyString).
    cbn [JS.dropLastQuote]. now rewrite Hq.
  - change (JS.dropLastQuote (String c (s ++ String q EmptyString))
            = String c s).
    destruct s as [|d s'].
    + change (JS.dropLastQuote (String c (String q EmptyString))
              = String c EmptyString).
      cbn [JS.dropLastQuote]. now rewrite Hq.
    + change (String c (JS.dropLastQuote (String d s' ++ String q EmptyString))
              = String c (String d s')).
      now rewrite IH.
Qed.

(** The outer quotes of a quoted string are both removed. *)
Lemma stripQuotes_wrapped (q q' : ascii) (s : string) :
  JS.is_quote q = true -> JS.is_quote q' = true ->
  JS.stripQuotes (String q (s ++ String q' EmptyString)) = s.
Proof.
  intros Hq Hq'. cbn [JS.stripQuotes]. rewrite Hq.
  now apply dropLastQuote_snoc.
Qed.

End Literals.

Section Evaluator.
Context `{Host}.

(** C7.  [evaluateExpr] returns [undefined], [null], booleans and numbers
    unchanged; a string that begins with a quote, [#], [rgb] or [hsl],
    itself or once trimmed, is returned trimmed and without its outer
    quotes whatever the host would evaluate it to; and a string whose
    formula is evaluated and throws is returned unchanged. *)
Theorem evaluateExpr_cases (model : Model) :
  evaluateExpr VUndefined model = VUndefined
  /\ evaluateExpr VNull model = VNull
  /\ (forall b, evaluateExpr (VBool b) model = VBool b)
  /\ (forall n, evaluateExpr (VNum n) model = VNum n)
  /\ (forall e, isLiteral e = true \/ isLiteral (JS.trim e) = true ->
        forall host : Host,
          @evaluateExpr host (VStr e) model = VStr (JS.stripQuotes (JS.trim e)))
  /\ (forall e, isLiteral (JS.trim e) = false ->
        evalFormula e model = None ->
        evaluateExpr (VStr e) model = VStr e).
Proof.
  repeat split; try reflexivity.
  - intros e He host.
    assert (Ht : isLiteral (JS.trim e) = true)
      by (destruct He as [He | He]; [now apply isLiteral_trim|exact He]).
    cbn. now rewrite Ht.
  - intros e He Hf. cbn. now rewrite He, Hf.
Qed.

End Evaluator.

(** C7 on two strings: a quoted colour with blanks around it, and a
    formula the host cannot evaluate. *)
Lemma evaluateExpr_cases_witness :
  isLiteral (JS.trim "  'rgb(1,2,3)' ") = true
  /\ @evaluateExpr demoHost (VStr "  'rgb(1,2,3)' ") (modelOf [])
     = VStr "rgb(1,2,3)"
  /\ isLiteral (JS.trim "no such name") = false
  /\ demoEvalFormula "no such name" (modelOf []) = None
  /\ @evaluateExpr demoHost (VStr "no such name") (modelOf [])
     = VStr "no such name".
Proof.
  destruct (@evaluateExpr_cases demoHost (modelOf []))
    as (_ & _ & _ & _ & Hlit & Hfail).
  assert (H1 : isLiteral (JS.trim "  'rgb(1,2,3)' ") = true)
    by (vm_compute; reflexivity).
  assert (H2 : isLiteral (JS.trim "no such name") = false)
    by (vm_compute; reflexivity).
  assert (H3 : demoEvalFormula "no such name" (modelOf []) = None)
    by (vm_compute; reflexivity).
  split; [exact H1|]. split; [exact (Hlit _ (or_intror H1) demoHost)|].
  split; [exact H2|]. split; [exact H3|].
  exact (Hfail _ H2 H3).
Defined.

(** The specification's examples of the evaluator. *)
Lemma evaluateExpr_examples :
  @evaluateExpr demoHost (VStr "#ff0000") (modelOf []) = VStr "#ff0000"
  /\ @evaluateExpr demoHost (VStr "  'rgb(1,2,3)' ") (modelOf [])
     = VStr "rgb(1,2,3)"
  /\ @evaluateExpr demoHost VUndefined (modelOf []) = VUndefined
  /\ @evaluateExpr demoHost (VStr "params.show") (modelOf [("show", num 5)])
     = VNum (num 5)
  /\ @evaluateExpr demoHost (VStr "no such name") (modelOf [])
     = VStr "no such name".
Proof. repeat split; vm_compute; reflexivity. Qed.

Section Lookup.

Lemma index_max_zero {A : Type} (a : list A) (m : number) :
  (m <? num 0)%js = false ->
  JS.index a (JS.max (num 0) m) = JS.index a m.
Proof.
  destruct m as [|s|q]; [reflexivity| |].
  - destruct s; [discriminate|reflexivity].
  - intros Hm. unfold JS.max. change (num 0) with (Fin (inject_Z 0)).
    cbv iota. cbn [JS.lt].
    destruct (JS.Qltb (inject_Z 0) q) eqn:Hq; [reflexivity|].
    assert (Hz : isWhole (Fin q) 0).
    { cbn in Hm |- *. unfold JS.Qltb in Hm, Hq.
      apply negb_false_iff, Qle_bool_iff in Hm, Hq.
      apply Qle_antisym; assumption. }
    rewrite (index_whole a (Fin q) 0 Hz).
    now rewrite (index_whole a (Fin (inject_Z 0)) 0).
Qed.

(** From time zero on, [evaluate] is the clamped lookup of the
    specification: only the lower bound is missing. *)
Lemma evaluate_from_zero (fn : ODE) (t : number) :
  data fn <> [] ->
  (JS.floor (t / dt fn)%js <? num 0)%js = false ->
  evaluate fn t = evaluateAt fn t.
Proof.
  intros Hdata Hi. unfold evaluate, evaluateAt, clamp.
  symmetry. apply index_max_zero.
  set (i := JS.floor (t / dt fn)%js) in *.
  assert (Hhi : exists qh, (JS.of_nat (length (data fn)) - num 1)%js = Fin qh
                           /\ (0 <= qh)%Q).
  { eexists. split; [reflexivity|].
    rewrite <- inject_Z_opp, <- inject_Z_plus.
    change 0%Q with (inject_Z 0). rewrite <- Zle_Qle.
    destruct (data fn); [contradiction|]. cbn [length]. lia. }
  destruct Hhi as (qh & -> & Hqh).
  assert (Hh0 : (Fin qh <? num 0)%js = false).
  { cbn. unfold JS.Qltb. apply negb_false_iff, Qle_bool_iff. exact Hqh. }
  destruct i as [|s|q]; [reflexivity| |].
  - destruct s; [discriminate|]. exact Hh0.
  - unfold JS.min. cbv iota.
    destruct (Fin qh <? Fin q)%js; assumption.
Qed.

End Lookup.

Section Fuel.

(** Rounding gives a number. *)
Lemma round_not_NaN (q : Q) : JS.round q <> NaN.
Proof.
  unfold JS.round.
  destruct (Qnum q) as [|a|a]; [discriminate| |];
    destruct (JS.roundMagnitude a (Qden q)); discriminate.
Qed.

Lemma floor_not_NaN (a : number) : a <> NaN -> JS.floor a <> NaN.
Proof. destruct a; [contradiction|discriminate|discriminate]. Qed.

(** The product of a positive whole number and a number is a number. *)
Lemma fmul_not_NaN (len : nat) (s : number) :
  (1 <= len)%nat -> s <> NaN -> JS.fmul (JS.of_nat len) s <> NaN.
Proof.
  intros Hlen Hs. unfold JS.fmul, JS.of_nat, JS.of_Z.
  destruct s as [|b|q]; [contradiction| |]; cbn [JS.mul].
  - assert (Hz : JS.Qzero (inject_Z (Z.of_nat len)) = false).
    { unfold JS.Qzero. apply not_true_iff_false.
      rewrite Qeq_bool_iff. change 0%Q with (inject_Z 0).
      rewrite inject_Z_injective. lia. }
    rewrite Hz. discriminate.
  - cbn [JS.rounded]. apply round_not_NaN.
Qed.

Lemma atLeast_add (i sn : number) (m : nat) :
  atLeast i m -> atLeast sn 1 -> atLeast (i + sn)%js (S m).
Proof.
  destruct i as [|s|p], sn as [|s'|q]; cbn [atLeast JS.add];
    try contradiction; try (intros -> ->; reflexivity); try (intros; assumption).
  intros Hp Hq. rewrite Nat2Z.inj_succ. unfold Z.succ.
  rewrite inject_Z_plus. now apply Qplus_le_compat.
Qed.

Lemma atLeast_not_lt (i : number) (m len : nat) :
  atLeast i m -> (len <= m)%nat -> (i <? JS.of_nat len)%js = false.
Proof.
  destruct i as [|s|p]; cbn [atLeast]; [contradiction|now intros ->|].
  intros Hp Hlen. cbn. unfold JS.Qltb.
  apply negb_false_iff, Qle_bool_iff.
  apply Qle_trans with (inject_Z (Z.of_nat m)); [|exact Hp].
  rewrite <- Zle_Qle. lia.
Qed.

(** Once the fuel covers what is left of the array, more fuel changes
    nothing: the loop has ended by itself. *)
Lemma dotsLoop_fuel (data : list State.t) (sn : number) :
  atLeast sn 1 ->
  forall (fuel fuel' : nat) (i : number) (m : nat),
    atLeast i m ->
    (length data <= m + fuel)%nat -> (length data <= m + fuel')%nat ->
    dotsLoop fuel data i sn = dotsLoop fuel' data i sn.
Proof.
  intros Hsn fuel.
  induction fuel as [|fuel IH]; intros fuel' i m Hi Hf Hf'.
  - destruct fuel' as [|fuel']; [reflexivity|]. cbn [dotsLoop].
    now rewrite (atLeast_not_lt i m (length data) Hi) by lia.
  - destruct fuel' as [|fuel'].
    + cbn [dotsLoop].
      now rewrite (atLeast_not_lt i m (length data) Hi) by lia.
    + cbn [dotsLoop].
      destruct (i <? JS.of_nat (length data))%js; [|reflexivity].
      f_equal. apply (IH fuel' _ (S m)); [now apply atLeast_add|lia|lia].
Qed.

Lemma Qzero_of_positive (n : nat) :
  (1 <= n)%nat -> JS.Qzero (inject_Z (Z.of_nat n)) = false.
Proof.
  intros Hn. unfold JS.Qzero. apply not_true_iff_false.
  rewrite Qeq_bool_iff. change 0%Q with (inject_Z 0).
  rewrite inject_Z_injective. lia.
Qed.

(** The stride of a non-empty trajectory is a number, at least 1. *)
Lemma strideOf_atLeast (len : nat) (spacing : number) :
  (1 <= len)%nat -> atLeast (strideOf len spacing) 1.
Proof.
  intros Hlen. unfold strideOf, dotStride.
  set (s := if JS.truthy (VNum spacing) then spacing else num 10).
  assert (Hs : s <> NaN).
  { subst s. destruct spacing as [|b|q]; cbn; try discriminate.
    destruct (negb (JS.Qzero q)); discriminate. }
  destruct (s <? num 1)%js eqn:Hlt.
  - set (v := JS.floor (JS.fmul (JS.of_nat len) s)).
    assert (Hv : v <> NaN).
    { subst v. apply floor_not_NaN, fmul_not_NaN; [exact Hlen|exact Hs]. }
    destruct (max_one_cases v) as [Hm | [-> | [-> Hgt]]].
    + destruct v as [|b|q]; [contradiction| |];
        unfold JS.max in Hm; change (num 1) with (Fin (inject_Z 1)) in Hm;
        cbv iota in Hm;
        match type of Hm with
        | (if ?c then _ else _) = _ => destruct c; discriminate Hm
        end.
    + cbn. apply Qle_refl.
    + destruct v as [|b|q]; [contradiction| |].
      * cbn in Hgt |- *. now apply negb_true_iff in Hgt.
      * cbn in Hgt |- *. unfold JS.Qltb in Hgt.
        apply negb_true_iff, not_true_iff_false in Hgt.
        rewrite Qle_bool_iff in Hgt. apply Qlt_le_weak, Qnot_le_lt, Hgt.
  - destruct s as [|b|q]; [contradiction| |].
    + cbn in Hlt |- *. exact Hlt.
    + cbn in Hlt |- *. unfold JS.Qltb in Hlt.
      apply negb_false_iff, Qle_bool_iff in Hlt. exact Hlt.
Qed.

(** The fuel [generateDots] gives its loop is enough for every numeric
    spacing: the loop of the source ends, with these dots. *)
Lemma sampling_ends (data : list State.t) (spacing : number) (extra : nat) :
  data <> [] ->
  dotsLoop (length data + extra) data (num 0) (strideOf (length data) spacing)
  = dotsLoop (length data) data (num 0) (strideOf (length data) spacing).
Proof.
  intros Hdata.
  assert (Hlen : (1 <= length data)%nat)
    by (destruct data; [contradiction|cbn [length]; lia]).
  apply (dotsLoop_fuel data _ (strideOf_atLeast _ spacing Hlen) _ _ _ 0%nat).
  - cbn. apply Qle_refl.
  - lia.
  - lia.
Qed.

(** Below 1 the stride computed for a non-empty trajectory is always a
    whole number. *)
Lemma strideOf_below_one_whole (len : nat) (spacing : number) :
  (1 <= len)%nat ->
  ((if JS.truthy (VNum spacing) then spacing else num 10) <? num 1)%js = true ->
  (exists stride : nat, isWhole (strideOf len spacing) stride)
  \/ strideOf len spacing = Inf false.
Proof.
  intros Hlen Hlt. unfold strideOf, dotStride.
  set (s := if JS.truthy (VNum spacing) then spacing else num 10) in *.
  rewrite Hlt.
  set (v := JS.floor (JS.fmul (JS.of_nat len) s)).
  assert (Hs : s <> NaN) by (intros E; rewrite E in Hlt; discriminate).
  assert (Hv : (exists b, v = Inf b) \/ exists z, v = JS.of_Z z).
  { subst v.
    pose proof (fmul_not_NaN len s Hlen Hs) as Hm.
    destruct (JS.fmul (JS.of_nat len) s) as [|b|q]; [contradiction| |].
    - left. now exists b.
    - right. eexists. reflexivity. }
  destruct Hv as [[[|] ->] | [z ->]].
  - left. exists 1%nat. cbn. reflexivity.
  - right. reflexivity.
  - left. destruct (max_one_cases (JS.of_Z z)) as [Hm | [-> | [-> Hgt]]].
    + unfold JS.max, JS.of_Z in Hm.
      change (num 1) with (Fin (inject_Z 1)) in Hm. cbv iota in Hm.
      match type of Hm with
      | (if ?c then _ else _) = _ => destruct c; discriminate Hm
      end.
    + exists 1%nat. apply isWhole_one.
    + exists (Z.to_nat z). cbn in Hgt |- *. unfold JS.Qltb in Hgt.
      apply negb_true_iff, not_true_iff_false in Hgt.
      rewrite Qle_bool_iff in Hgt. apply Qnot_le_lt in Hgt.
      change (inject_Z 1 < inject_Z z)%Q in Hgt. rewrite <- Zlt_Qlt in Hgt.
      rewrite Z2Nat.id by lia. reflexivity.
Qed.

End Fuel.

(* ================================================================== *)
(** ** More about the engine *)
(* ================================================================== *)

Section Outcomes.
Context `{Host}.

(** The fields [generateData] never writes, whatever its outcome. *)
Lemma generateData_keeps (model : Model) (fn : ODE) :
  let fn' := snd (generateData model fn) in
  dxdtDef fn' = dxdtDef fn /\ dydtDef fn' = dydtDef fn
  /\ initial fn' = initial fn /\ steps fn' = steps fn /\ dt fn' = dt fn
  /\ lastInitial fn' = lastInitial fn /\ lastParams fn' = lastParams fn
  /\ attr fn' = attr fn /\ dots fn' = dots fn
  /\ hasChanged fn' = hasChanged fn /\ graph fn' = graph fn.
Proof.
  unfold generateData. cbn.
  destruct (math_compile (updateFunctionString (dxdtDef fn) (scope_of model)));
    cbn; [|repeat split; reflexivity].
  destruct (math_compile (updateFunctionString (dydtDef fn) (scope_of model)));
    cbn; repeat split; reflexivity.
Qed.

Lemma generateDots_keeps (fn : ODE) :
  let fn' := snd (generateDots fn) in
  dxdtDef fn' = dxdtDef fn /\ dydtDef fn' = dydtDef fn
  /\ initial fn' = initial fn /\ steps fn' = steps fn /\ dt fn' = dt fn.
Proof.
  unfold generateDots.
  destruct (negb (JS.truthy (attr fn showDots)) || (length (data fn) =? 0)%nat);
    cbn; repeat split; reflexivity.
Qed.

Lemma compiles_dec (model : Model) (fn : ODE) :
  compiles model fn \/ ~ compiles model fn.
Proof.
  unfold compiles.
  destruct (math_compile (updateFunctionString (dxdtDef fn) (scope_of model)));
    [|right; intros [[? [=]] _]].
  destruct (math_compile (updateFunctionString (dydtDef fn) (scope_of model)));
    [|right; intros [_ [? [=]]]].
  left. split; eexists; reflexivity.
Qed.

(** The three ways a tick can go, with what each leaves in the engine. *)
Lemma update_cases (force : bool) (model : Model) (fn : ODE) :
  let after := snd (update force model fn) in
  let ps := currentParamValues model in
  (dxdtDef after = dxdtDef fn /\ dydtDef after = dydtDef fn
   /\ initial after = initial fn /\ steps after = steps fn /\ dt after = dt fn)
  /\ ((stale force model fn = false
       /\ fst (update force model fn) = Normal tt
       /\ version after = version fn /\ data after = data fn
       /\ lastInitial after = lastInitial fn /\ lastParams after = lastParams fn
       /\ hasChanged after = false)
      \/ (stale force model fn = true /\ compiles model fn
          /\ fst (update force model fn) = Normal tt
          /\ version after = S (version fn) /\ data after <> []
          /\ fst (generateData model fn) = Normal (data after)
          /\ lastInitial after = resolveInitial ps (initial fn)
          /\ lastParams after = ps
          /\ hasChanged after = true)
      \/ (stale force model fn = true /\ ~ compiles model fn
          /\ fst (update force model fn) = Throw
          /\ version after = version fn /\ data after = data fn
          /\ lastInitial after = resolveInitial ps (initial fn)
          /\ lastParams after = ps
          /\ hasChanged after = hasChanged fn)).
Proof.
  intros after ps. subst after.
  destruct (stale force model fn) eqn:Hs.
  - rewrite update_unfold, Hs. cbv zeta.
    set (fn1 := set_lastParams _ _).
    destruct (generateData_keeps model fn1)
      as (C1 & C2 & C3 & C4 & C5 & C6 & C7 & C8 & C9 & C10 & C11).
    destruct (compiles_dec model fn) as [Hc | Hn].
    + destruct (proj1 (generateData_normal_iff model fn) Hc) as [d Hd].
      assert (Hd1 : fst (generateData model fn1) = Normal d)
        by (rewrite <- Hd; symmetry; now apply generateData_ext).
      destruct (generateData model fn1) as [c fn2] eqn:E.
      cbn [fst snd] in *. subst c.
      destruct (generateData_fields model fn1 fn2 d E) as (F1 & F2 & _).
      destruct (generateData_nonempty model fn1 fn2 d E) as [Hne _].
      set (fn3 := set_data d fn2).
      destruct (generateDots_fields fn3) as (G1 & G2 & _ & G4 & G5 & _).
      destruct (generateDots_keeps fn3) as (D1 & D2 & D3 & D4 & D5).
      set (fn4 := if JS.truthy (attr fn3 showDots) then _ else _).
      assert (K : dxdtDef fn4 = dxdtDef fn /\ dydtDef fn4 = dydtDef fn
                  /\ initial fn4 = initial fn /\ steps fn4 = steps fn
                  /\ dt fn4 = dt fn /\ data fn4 = d
                  /\ version fn4 = S (version fn)
                  /\ lastInitial fn4 = resolveInitial ps (initial fn)
                  /\ lastParams fn4 = ps).
      { subst fn4. destruct (JS.truthy (attr fn3 showDots)).
        - rewrite D1, D2, D3, D4, D5, G1, G2, G4, G5. subst fn3. cbn.
          rewrite C1, C2, C3, C4, C5, C6, C7, F2. repeat split; reflexivity.
        - subst fn3. cbn.
          rewrite C1, C2, C3, C4, C5, C6, C7, F2. repeat split; reflexivity. }
      destruct K as (K1 & K2 & K3 & K4 & K5 & K6 & K7 & K8 & K9).
      assert (R : forall g, (match graph (set_hasChanged true fn4) with
                             | Some _ => set_graph (Some true)
                                           (set_hasChanged true fn4)
                             | None => set_hasChanged true fn4
                             end) = g ->
                  dxdtDef g = dxdtDef fn4 /\ dydtDef g = dydtDef fn4
                  /\ initial g = initial fn4 /\ steps g = steps fn4
                  /\ dt g = dt fn4 /\ data g = data fn4
                  /\ version g = version fn4
                  /\ lastInitial g = lastInitial fn4
                  /\ lastParams g = lastParams fn4 /\ hasChanged g = true).
      { intros g <-. destruct (graph (set_hasChanged true fn4));
          cbn; repeat split; reflexivity. }
      destruct (R _ eq_refl) as (R1 & R2 & R3 & R4 & R5 & R6 & R7 & R8 & R9 & R10).
      cbn [fst snd].
      split.
      * rewrite R1, R2, R3, R4, R5. repeat split; assumption.
      * right. left. rewrite R6, R7, R8, R9, R10, K6, K7, K8, K9.
        repeat split; auto; apply Hc.
    + assert (Hn1 : ~ compiles model fn1) by exact Hn.
      destruct (generateData_compile_failure model fn1 Hn1) as (T1 & T2 & T3).
      destruct (generateData model fn1) as [c fn2]. cbn [fst snd] in *.
      subst c. cbv iota beta. cbn [fst snd]. split.
      * rewrite C1, C2, C3, C4, C5. repeat split; reflexivity.
      * right. right. rewrite T2, T3, C6, C7, C10.
        repeat split; auto.
  - rewrite update_unfold, Hs. cbn. split; [repeat split; reflexivity|].
    left. repeat split; reflexivity.
Qed.

End Outcomes.

Section EngineExtras.
Context `{Host}.

(** The staleness test reads the engine through four fields only. *)
Lemma stale_fields (force : bool) (model : Model) (a b : ODE) :
  initial a = initial b -> lastInitial a = lastInitial b ->
  lastParams a = lastParams b -> data a = data b ->
  stale force model a = stale force model b.
Proof.
  intros Hi Hl Hp Hd. unfold stale, changedInitial, changedParams.
  now rewrite Hi, Hl, Hp, Hd.
Qed.

Lemma stale_unforced (force : bool) (model : Model) (fn : ODE) :
  stale force model fn = false -> stale false model fn = false.
Proof.
  unfold stale. cbn. destruct force; [discriminate|]. exact id.
Qed.

(** An engine that has recorded the current snapshot and holds a
    trajectory is fresh, provided no value involved is NaN. *)
Lemma recorded_is_fresh (model : Model) (fn : ODE) :
  let ps := currentParamValues model in
  let r := resolveInitial ps (initial fn) in
  lastInitial fn = r -> lastParams fn = ps -> data fn <> [] ->
  (fst r === fst r)%js = true -> (snd r === snd r)%js = true ->
  (forall k v, ps !! k = Some v -> (v === v)%js = true) ->
  stale false model fn = false.
Proof.
  intros ps r Hl Hp Hd Hx Hy Hv.
  destruct (stale false model fn) eqn:Hs; [|reflexivity]. exfalso.
  apply stale_declared in Hs.
  destruct Hs as [Hf | [He | [Hi | [Hi | (k & v & Hk & Hdiff)]]]].
  - discriminate.
  - contradiction.
  - fold ps in Hi. fold r in Hi. rewrite Hl, Hx in Hi. discriminate.
  - fold ps in Hi. fold r in Hi. rewrite Hl, Hy in Hi. discriminate.
  - fold ps in Hk. rewrite Hp in Hdiff. specialize (Hdiff v Hk).
    rewrite (Hv k v Hk) in Hdiff. discriminate.
Qed.

(** [generateData] returns normally exactly when both formulas compile;
    when one does not, it throws and the trajectory, the dots, the
    version and the attributes are the ones it found. *)
Theorem generateData_outcome (model : Model) (fn : ODE) :
  (compiles model fn <-> exists d, fst (generateData model fn) = Normal d)
  /\ (compiles model fn \/ fst (generateData model fn) = Throw)
  /\ (fst (generateData model fn) = Throw ->
        data (snd (generateData model fn)) = data fn
        /\ dots (snd (generateData model fn)) = dots fn
        /\ version (snd (generateData model fn)) = version fn
        /\ attr (snd (generateData model fn)) = attr fn).
Proof.
  split; [apply generateData_normal_iff|].
  destruct (generateData_keeps model fn)
    as (_ & _ & _ & _ & _ & _ & _ & Ka & Kd & _).
  destruct (compiles_dec model fn) as [Hc | Hn].
  - split; [now left|].
    destruct (proj1 (generateData_normal_iff model fn) Hc) as [d Hd].
    rewrite Hd. discriminate.
  - destruct (generateData_compile_failure model fn Hn) as (T1 & T2 & T3).
    split; [now right|]. intros _. repeat split; assumption.
Qed.

(** Across any run of ticks the engine keeps its formulas, its initial
    condition, its step count and its step size, and its version never
    decreases and grows by at most one per tick. *)
Theorem ticks_keep_configuration_and_count (ticks : list (bool * Model))
    (fn : ODE) :
  let after := runTicks ticks fn in
  dxdtDef after = dxdtDef fn /\ dydtDef after = dydtDef fn
  /\ initial after = initial fn /\ steps after = steps fn /\ dt after = dt fn
  /\ (version fn <= version after <= version fn + length ticks)%nat.
Proof.
  revert fn. induction ticks as [|[force model] ticks IH]; intros fn.
  - cbn. repeat split; lia.
  - cbn [runTicks fold_left fst snd length].
    destruct (update_cases force model fn)
      as ((C1 & C2 & C3 & C4 & C5) & Hcase).
    specialize (IH (snd (update force model fn))).
    destruct IH as (I1 & I2 & I3 & I4 & I5 & I6).
    unfold runTicks in *.
    rewrite I1, I2, I3, I4, I5, C1, C2, C3, C4, C5.
    repeat split; try reflexivity;
      destruct Hcase as [(_ & _ & Hv & _) | [(_ & _ & _ & Hv & _)
                                             | (_ & _ & _ & Hv & _)]];
      rewrite Hv in I6; lia.
Qed.

(** Change detection settles: after a tick whose formulas compile, an
    unforced tick under the same parameters reports unchanged and keeps
    version and trajectory, provided neither the resolved initial
    condition nor a parameter is NaN. *)
Theorem update_settles (force : bool) (model : Model) (fn : ODE) :
  let ps := currentParamValues model in
  let r := resolveInitial ps (initial fn) in
  compiles model fn ->
  (fst r === fst r)%js = true -> (snd r === snd r)%js = true ->
  (forall k v, ps !! k = Some v -> (v === v)%js = true) ->
  let first := snd (update force model fn) in
  let second := snd (update false model first) in
  fst (update false model first) = Normal tt
  /\ hasChanged second = false
  /\ version second = version first
  /\ data second = data first.
Proof.
  intros ps r Hc Hx Hy Hv first second.
  assert (Hs : stale false model first = false).
  { destruct (update_cases force model fn)
      as ((_ & _ & C3 & _) & Hcase).
    fold first in C3, Hcase.
    destruct Hcase as [(S1 & _ & _ & Hd & Hl & Hp & _)
                      | [(_ & _ & _ & _ & Hd & _ & Hl & Hp & _)
                        | (_ & Hn & _)]].
    - rewrite (stale_fields false model first fn C3 Hl Hp Hd).
      now apply (stale_unforced force).
    - apply recorded_is_fresh; rewrite ?C3; assumption.
    - contradiction. }
  destruct (update_fresh false model first Hs) as (R1 & R2 & R3 & R4 & _).
  repeat split; assumption.
Qed.

(** A regeneration that fails hides the staleness it was meant to cure:
    the snapshot is recorded before [generateData] throws, so the next
    unforced tick under the same parameters reports unchanged and the old
    trajectory stays in place. *)
Theorem failed_update_masks_staleness (force : bool) (model : Model)
    (fn : ODE) :
  let ps := currentParamValues model in
  let r := resolveInitial ps (initial fn) in
  stale force model fn = true ->
  ~ compiles model fn ->
  data fn <> [] ->
  (fst r === fst r)%js = true -> (snd r === snd r)%js = true ->
  (forall k v, ps !! k = Some v -> (v === v)%js = true) ->
  let first := snd (update force model fn) in
  let second := snd (update false model first) in
  fst (update force model fn) = Throw
  /\ fst (update false model first) = Normal tt
  /\ hasChanged second = false
  /\ data second = data fn
  /\ version second = version fn.
Proof.
  intros ps r Hst Hn Hdata Hx Hy Hv first second.
  destruct (update_cases force model fn) as ((_ & _ & C3 & _) & Hcase).
  fold first in C3, Hcase.
  destruct Hcase as [(S1 & _) | [(_ & Hc & _)
                                | (_ & _ & T1 & T2 & T3 & Hl & Hp & _)]];
    [congruence|contradiction|].
  assert (Hs : stale false model first = false)
    by (apply recorded_is_fresh; rewrite ?C3, ?T3; assumption).
  destruct (update_fresh false model first Hs) as (R1 & R2 & R3 & R4 & _).
  split; [exact T1|]. split; [exact R1|]. split; [exact R2|].
  split; [rewrite <- T3; exact R4|rewrite <- T2; exact R3].
Qed.

(** A parameter that is NaN makes every tick stale: the trajectory is
    regenerated and the version counted each time. *)
Theorem nan_parameter_is_always_stale (force : bool) (model : Model)
    (fn : ODE) (k : string) :
  currentParamValues model !! k = Some NaN ->
  stale force model fn = true
  /\ stale false model (snd (update force model fn)) = true
  /\ (compiles model fn ->
        version (snd (update force model fn)) = S (version fn)).
Proof.
  intros Hk.
  assert (Hall : forall f g, stale f model g = true).
  { intros f g. apply stale_declared. do 4 right.
    exists k, NaN. split; [exact Hk|]. intros old _. reflexivity. }
  split; [apply Hall|]. split; [apply Hall|].
  intros Hc.
  destruct (update_regenerates force model fn (Hall force fn) Hc)
    as (d & _ & _ & _ & Hv & _).
  exact Hv.
Qed.

(** The first tick of a new engine always generates, forced or not: with
    formulas that compile it leaves version 1 and a trajectory of one
    state more than the step count. *)
Theorem first_tick_generates (def : ODESystemDefinition) (built : Model)
    (force : bool) (model : Model) :
  let fn := new_ODE def built in
  compiles model fn ->
  let after := snd (update force model fn) in
  stale force model fn = true
  /\ fst (update force model fn) = Normal tt
  /\ version after = 1%nat
  /\ length (data after) = S (Z.to_nat (steps fn))
  /\ hasChanged after = true.
Proof.
  intros fn Hc after.
  assert (Hs : stale force model fn = true).
  { apply stale_declared. right. left. reflexivity. }
  destruct (update_regenerates force model fn Hs Hc)
    as (d & Hd & R1 & R2 & R3 & R4 & _).
  fold after in R2, R3, R4.
  split; [exact Hs|]. split; [exact R1|]. split; [exact R3|].
  split; [|exact R4].
  rewrite R2. destruct Hc as [[cx Hx] [cy Hy]].
  rewrite (generateData_compiled model fn cx cy Hx Hy) in Hd.
  cbn [fst] in Hd. injection Hd as <-.
  cbn [length]. now rewrite integrate_length.
Qed.

End EngineExtras.

(** A model with no parameter, or with one, satisfies what its
    parameters satisfy. *)
Lemma no_parameter (P : string -> number -> Prop) :
  forall k v, currentParamValues (modelOf []) !! k = Some v -> P k v.
Proof. intros k v Hk. cbn in Hk. rewrite lookup_empty in Hk. discriminate. Qed.

Lemma one_parameter (name : string) (n : number)
    (P : string -> number -> Prop) :
  P name n ->
  forall k v, currentParamValues (modelOf [(name, n)]) !! k = Some v -> P k v.
Proof.
  intros Hp k v Hk. cbn in Hk.
  destruct (decide (k = name)) as [->|Hne].
  - rewrite lookup_insert_eq in Hk. now injection Hk as <-.
  - rewrite lookup_insert_ne in Hk by congruence.
    rewrite lookup_empty in Hk. discriminate.
Qed.

Lemma demo_compiles (model : Model) (fn : ODE) :
  dxdtDef fn = "1" -> dydtDef fn = "0" -> @compiles demoHost model fn.
Proof.
  intros Hx Hy. unfold compiles. cbn. rewrite Hx, Hy.
  split; eexists; reflexivity.
Qed.

Lemma update_settles_witness :
  let model := modelOf [("a", num 1)] in
  let first := snd (@update demoHost false model line3) in
  let second := snd (@update demoHost false model first) in
  @compiles demoHost model line3
  /\ fst (@update demoHost false model first) = Normal tt
  /\ hasChanged second = false
  /\ version second = version first.
Proof.
  intros model first second.
  assert (Hc : @compiles demoHost model line3)
    by (apply demo_compiles; reflexivity).
  split; [exact Hc|].
  destruct (@update_settles demoHost false model line3 Hc)
    as (R1 & R2 & R3 & _).
  - vm_compute. reflexivity.
  - vm_compute. reflexivity.
  - apply one_parameter. vm_compute. reflexivity.
  - exact (conj R1 (conj R2 R3)).
Defined.

Lemma failed_update_masks_staleness_witness :
  let model := modelOf [] in
  let first := snd (@update demoHost true model stuck) in
  stale true model stuck = true
  /\ ~ @compiles demoHost model stuck
  /\ data stuck <> []
  /\ fst (@update demoHost true model stuck) = Throw
  /\ fst (@update demoHost false model first) = Normal tt
  /\ hasChanged (snd (@update demoHost false model first)) = false
  /\ data (snd (@update demoHost false model first)) = data stuck.
Proof.
  intros model first.
  assert (Hs : stale true model stuck = true) by reflexivity.
  assert (Hn : ~ @compiles demoHost model stuck)
    by (intros [[c Hc] _]; vm_compute in Hc; discriminate).
  assert (Hd : data stuck <> []) by (vm_compute; discriminate).
  split; [exact Hs|]. split; [exact Hn|]. split; [exact Hd|].
  destruct (@failed_update_masks_staleness demoHost true model stuck Hs Hn Hd)
    as (R1 & R2 & R3 & R4 & _).
  - vm_compute. reflexivity.
  - vm_compute. reflexivity.
  - apply no_parameter.
  - exact (conj R1 (conj R2 (conj R3 R4))).
Defined.

Lemma nan_parameter_is_always_stale_witness :
  let model := modelOf [("a", NaN)] in
  currentParamValues model !! "a" = Some NaN
  /\ stale false model (snd (@update demoHost false model line3)) = true
  /\ version (snd (@update demoHost false model line3)) = 1%nat.
Proof.
  intros model.
  assert (Hk : currentParamValues model !! "a" = Some NaN)
    by (vm_compute; reflexivity).
  split; [exact Hk|].
  destruct (@nan_parameter_is_always_stale demoHost false model line3 "a" Hk)
    as (_ & R2 & R3).
  split; [exact R2|].
  apply R3, demo_compiles; reflexivity.
Defined.

Lemma first_tick_generates_witness :
  let fn := @new_ODE demoHost (defOf "1" "0" 3 noAttrs) (modelOf []) in
  @compiles demoHost (modelOf []) fn
  /\ version (snd (@update demoHost false (modelOf []) fn)) = 1%nat
  /\ length (data (snd (@update demoHost false (modelOf []) fn))) = 4%nat.
Proof.
  intros fn.
  assert (Hc : @compiles demoHost (modelOf []) fn)
    by (apply demo_compiles; reflexivity).
  split; [exact Hc|].
  destruct (@first_tick_generates demoHost (defOf "1" "0" 3 noAttrs)
              (modelOf []) false (modelOf []) Hc) as (_ & _ & R3 & R4 & _).
  exact (conj R3 R4).
Defined.

(* ================================================================== *)
(** ** More about lookups and integration *)
(* ================================================================== *)

Section Samples.

Lemma index_elem {A : Type} (a : list A) (i : number) (x : A) :
  JS.index a i = Some x -> x ∈ a.
Proof.
  destruct i as [| |q]; cbn; try discriminate.
  destruct (Qeq_bool (inject_Z (Qfloor q)) q && (0 <=? Qfloor q)%Z);
    [|discriminate].
  intros Hx. apply list_elem_of_lookup. eauto.
Qed.

Lemma index_nil {A : Type} (i : number) : JS.index (@nil A) i = None.
Proof.
  destruct i as [| |q]; cbn; try reflexivity.
  destruct (Qeq_bool (inject_Z (Qfloor q)) q && (0 <=? Qfloor q)%Z);
    reflexivity.
Qed.

(** [evaluate] never invents a state: what it returns is [undefined] or a
    state of the trajectory, and on an empty trajectory it is
    [undefined] for every time. *)
Theorem evaluate_returns_a_sample (fn : ODE) (t : number) :
  (data fn = [] -> evaluate fn t = None)
  /\ (forall s, evaluate fn t = Some s -> s ∈ data fn).
Proof.
  unfold evaluate. split.
  - intros ->. apply index_nil.
  - intros s. apply index_elem.
Qed.

(** Past the end of the trajectory [evaluate] returns its last state. *)
Theorem evaluate_past_end_is_last (fn : ODE) (t : number) :
  data fn <> [] ->
  (JS.of_nat (length (data fn)) - num 1 <? JS.floor (t / dt fn))%js = true ->
  evaluate fn t = data fn !! (length (data fn) - 1)%nat
  /\ is_Some (evaluate fn t).
Proof.
  intros Hdata Hlt. unfold evaluate.
  set (i := JS.floor (t / dt fn)%js) in *.
  set (hi := (JS.of_nat (length (data fn)) - num 1)%js) in *.
  assert (Hw : isWhole hi (length (data fn) - 1)).
  { subst hi. cbn. rewrite <- inject_Z_opp, <- inject_Z_plus.
    apply inject_Z_injective.
    destruct (data fn); [contradiction|]. cbn [length]. lia. }
  assert (Hmin : JS.min i hi = hi).
  { destruct i as [|s|q]; [destruct hi; discriminate| |];
      destruct hi as [|s'|q']; try contradiction;
      unfold JS.min; cbv iota; now rewrite Hlt. }
  rewrite Hmin, (index_whole (data fn) hi _ Hw).
  split; [reflexivity|].
  apply lookup_lt_is_Some_2.
  destruct (data fn); [contradiction|]. cbn [length]. lia.
Qed.

End Samples.

Lemma evaluate_from_zero_witness :
  let fn := holding 2 noAttrs in
  data fn <> []
  /\ (JS.floor (num 7 / dt fn)%js <? num 0)%js = false
  /\ evaluate fn (num 7) = evaluateAt fn (num 7)
  /\ evaluate fn (num 7) = Some (State.mk (num 1) (num 0)).
Proof.
  intros fn.
  assert (Hd : data fn <> []) by (vm_compute; discriminate).
  assert (Hi : (JS.floor (num 7 / dt fn)%js <? num 0)%js = false)
    by (vm_compute; reflexivity).
  split; [exact Hd|]. split; [exact Hi|].
  split; [exact (evaluate_from_zero fn (num 7) Hd Hi)|].
  vm_compute. reflexivity.
Defined.

Lemma evaluate_past_end_is_last_witness :
  let fn := holding 2 noAttrs in
  data fn <> []
  /\ evaluate fn (num 7) = Some (State.mk (num 1) (num 0)).
Proof.
  intros fn.
  assert (Hd : data fn <> []) by (vm_compute; discriminate).
  split; [exact Hd|].
  destruct (evaluate_past_end_is_last fn (num 7) Hd) as [R _].
  - vm_compute. reflexivity.
  - rewrite R. vm_compute. reflexivity.
Defined.

Section Integration.

(** Where both derivatives are 0 at every state, a step leaves the state
    where it is. *)
Lemma rk4Step_still (fn : ODE) (scope : Scope) (h x y : Q) :
  dt fn = Fin h ->
  (forall s, tryEvaluate (dxdtCompiled fn) (evalScope s scope) = num 0) ->
  (forall s, tryEvaluate (dydtCompiled fn) (evalScope s scope) = num 0) ->
  exists x' y',
    rk4Step fn (State.mk (Fin x) (Fin y)) scope (dt fn)
    = State.mk (Fin x') (Fin y')
    /\ x' == x /\ y' == y.
Proof.
  intros Hh Hx Hy. unfold rk4Step, deriv. cbn [dx dy State.x State.y].
  rewrite !Hx, !Hy, Hh.
  unfold half, num, JS.of_Z. cbn [JS.add JS.mul JS.div].
  change (JS.Qzero (inject_Z 6)) with false. cbv iota.
  eexists. eexists. split; [reflexivity|].
  unfold inject_Z. split; field.
Qed.

Lemma integrate_still (fn : ODE) (scope : Scope) (h : Q) :
  dt fn = Fin h ->
  (forall s, tryEvaluate (dxdtCompiled fn) (evalScope s scope) = num 0) ->
  (forall s, tryEvaluate (dydtCompiled fn) (evalScope s scope) = num 0) ->
  forall (n k : nat) (x y : Q), (k < n)%nat ->
    exists s,
      integrate fn scope n (State.mk (Fin x) (Fin y)) !! k = Some s
      /\ sameState s (State.mk (Fin x) (Fin y)).
Proof.
  intros Hh Hx Hy n.
  induction n as [|n IH]; intros k x y Hk; [lia|].
  destruct (rk4Step_still fn scope h x y Hh Hx Hy)
    as (x' & y' & Hstep & Hx' & Hy').
  cbn [integrate]. rewrite Hstep.
  destruct k as [|k].
  - eexists. split; [reflexivity|].
    unfold sameState. cbn [sameNumber State.x State.y]. now split.
  - destruct (IH k x' y' ltac:(lia)) as (s & Hs & Hsx & Hsy).
    exists s. split; [exact Hs|].
    destruct s as [[| |sx] [| |sy]];
      cbn [sameNumber State.x State.y] in Hsx, Hsy; try contradiction.
    unfold sameState. cbn [sameNumber State.x State.y].
    split; [now rewrite Hsx|now rewrite Hsy].
Qed.

End Integration.

(* ================================================================== *)
(** ** Formulas that fail and parameters that shadow *)
(* ================================================================== *)

Section Fields.
Context `{Host}.

(** Parameters named [x] and [y] take the place of the coordinates in
    the object the formulas are evaluated in. *)
Lemma evalScope_shadowed (s : State.t) (scope : Scope) (vx vy : number) :
  params scope !! "x" = Some vx ->
  params scope !! "y" = Some vy ->
  evalScope s scope = params scope.
Proof.
  intros Hx Hy. unfold evalScope. apply map_eq. intros k.
  destruct (params scope !! k) as [v|] eqn:E.
  - now apply lookup_union_Some_l.
  - rewrite (lookup_union_r _ _ _ E).
    assert (k <> "x") by congruence. assert (k <> "y") by congruence.
    rewrite lookup_insert_ne by congruence.
    rewrite lookup_insert_ne by congruence.
    apply lookup_empty.
Qed.

(** Derivative formulas that compile but whose evaluation throws at every
    state do not make [generateData] throw: each derivative is taken to
    be 0 and every state of the trajectory is the initial state. *)
Theorem evaluation_failure_freezes_the_trajectory (model : Model) (fn : ODE)
    (cx cy : EvalFunction) (h x0 y0 : Q) :
  math_compile (updateFunctionString (dxdtDef fn) (scope_of model)) = Some cx ->
  math_compile (updateFunctionString (dydtDef fn) (scope_of model)) = Some cy ->
  (forall s, cx (evalScope s (scope_of model)) = None) ->
  (forall s, cy (evalScope s (scope_of model)) = None) ->
  dt fn = Fin h ->
  resolveInitial (currentParamValues model) (initial fn) = (Fin x0, Fin y0) ->
  exists trajectory : list State.t,
    fst (generateData model fn) = Normal trajectory
    /\ length trajectory = S (Z.to_nat (steps fn))
    /\ forall k s, trajectory !! k = Some s ->
         sameState s (State.mk (Fin x0) (Fin y0)).
Proof.
  intros Hx Hy Hc Hd Hh Hr.
  rewrite (generateData_compiled model fn cx cy Hx Hy). cbn [fst].
  eexists. split; [reflexivity|]. rewrite Hr. cbn [fst snd].
  split; [cbn [length]; now rewrite integrate_length|].
  intros k s Hs. destruct k as [|k].
  - cbn [lookup list_lookup] in Hs. injection Hs as <-.
    unfold sameState. cbn [sameNumber State.x State.y]. split; reflexivity.
  - cbn [lookup list_lookup] in Hs.
    assert (Hk : (k < Z.to_nat (steps fn))%nat).
    { apply lookup_lt_Some in Hs. now rewrite integrate_length in Hs. }
    destruct (integrate_still
                (set_dydtCompiled (Some cy) (set_dxdtCompiled (Some cx) fn))
                (scope_of model) h Hh
                (fun s0 => eq_trans
                   (f_equal (fun o => match o with Some v => v | None => num 0 end)
                            (Hc s0)) eq_refl)
                (fun s0 => eq_trans
                   (f_equal (fun o => match o with Some v => v | None => num 0 end)
                            (Hd s0)) eq_refl)
                _ k x0 y0 Hk) as (s' & Hs' & Hsame).
    pose proof (eq_trans (eq_sym Hs) Hs') as Hss. injection Hss as ->.
    exact Hsame.
Qed.

(** The integrator only sees the formulas through the derivatives they
    give at the states it visits. *)
Lemma integrate_agree (fn fn' : ODE) (scope : Scope) :
  (forall s, deriv fn s scope = deriv fn' s scope) ->
  dt fn = dt fn' ->
  forall (n : nat) (s : State.t),
    integrate fn scope n s = integrate fn' scope n s.
Proof.
  intros Hd Hdt n.
  induction n as [|n IH]; intros s; cbn [integrate]; [reflexivity|].
  assert (Hstep : rk4Step fn s scope (dt fn) = rk4Step fn' s scope (dt fn')).
  { unfold rk4Step. rewrite <- Hdt. cbv zeta. now rewrite !Hd. }
  rewrite Hstep. f_equal. apply IH.
Qed.

(** Parameters named [x] and [y] shadow the state in the derivative
    formulas: at every state [deriv] gives the same pair, the values the
    formulas have at the parameters (0 where the evaluation throws), and
    the trajectory [generateData] returns is the one of the constant
    formulas with these values. *)
Theorem coordinate_parameters_shadow_the_state (model : Model) (fn : ODE)
    (cx cy : EvalFunction) (vx vy : number) :
  math_compile (updateFunctionString (dxdtDef fn) (scope_of model)) = Some cx ->
  math_compile (updateFunctionString (dydtDef fn) (scope_of model)) = Some cy ->
  currentParamValues model !! "x" = Some vx ->
  currentParamValues model !! "y" = Some vy ->
  let ps := currentParamValues model in
  let r := resolveInitial ps (initial fn) in
  let s0 := State.mk (fst r) (snd r) in
  let compiled := set_dydtCompiled (Some cy) (set_dxdtCompiled (Some cx) fn) in
  let frozen :=
    set_dydtCompiled (Some (fun _ => cy ps))
      (set_dxdtCompiled (Some (fun _ => cx ps)) fn) in
  (forall s, deriv compiled s (scope_of model)
             = {| dx := tryEvaluate (Some cx) ps;
                  dy := tryEvaluate (Some cy) ps |})
  /\ fst (generateData model fn)
     = Normal (s0 :: integrate frozen (scope_of model)
                       (Z.to_nat (steps fn)) s0).
Proof.
  intros Hx Hy Hvx Hvy ps r s0 compiled frozen.
  assert (Hd : forall s, deriv compiled s (scope_of model)
                         = {| dx := tryEvaluate (Some cx) ps;
                              dy := tryEvaluate (Some cy) ps |}).
  { intros s. unfold deriv.
    now rewrite (evalScope_shadowed s (scope_of model) vx vy Hvx Hvy). }
  split; [exact Hd|].
  rewrite (generateData_compiled model fn cx cy Hx Hy). cbn [fst].
  fold ps r s0 compiled.
  f_equal. f_equal.
  apply integrate_agree; [|reflexivity].
  intros s. rewrite Hd. reflexivity.
Qed.

End Fields.

Lemma evaluation_failure_freezes_the_trajectory_witness :
  exists trajectory : list State.t,
    fst (@generateData demoHost (modelOf [])
           (@new_ODE demoHost (defOf "q" "q" 3 noAttrs) (modelOf [])))
    = Normal trajectory
    /\ length trajectory = 4%nat.
Proof.
  destruct (@evaluation_failure_freezes_the_trajectory demoHost (modelOf [])
              (@new_ODE demoHost (defOf "q" "q" 3 noAttrs) (modelOf []))
              (fun _ => None) (fun _ => None)
              (1 # 10) (inject_Z 0) (inject_Z 0)
              eq_refl eq_refl (fun _ => eq_refl) (fun _ => eq_refl)
              eq_refl eq_refl)
    as (trajectory & Hfst & Hlen & _).
  exists trajectory. split; [exact Hfst|exact Hlen].
Defined.

Lemma coordinate_parameters_shadow_the_state_witness :
  deriv (set_dydtCompiled (Some (fun _ => Some (num 0)))
           (set_dxdtCompiled
              (Some (fun env : gmap string number => env !! "x"))
              (@new_ODE demoHost (defOf "x" "0" 3 noAttrs) (modelOf []))))
        (State.mk (num 5) (num 7))
        (scope_of (modelOf [("x", num 2); ("y", num 0)]))
  = {| dx := num 2; dy := num 0 |}.
Proof.
  assert (Hx : currentParamValues (modelOf [("x", num 2); ("y", num 0)])
               !! "x" = Some (num 2))
    by (vm_compute; reflexivity).
  assert (Hy : currentParamValues (modelOf [("x", num 2); ("y", num 0)])
               !! "y" = Some (num 0))
    by (vm_compute; reflexivity).
  destruct (@coordinate_parameters_shadow_the_state demoHost
              (modelOf [("x", num 2); ("y", num 0)])
              (@new_ODE demoHost (defOf "x" "0" 3 noAttrs) (modelOf []))
              (fun env => env !! "x") (fun _ => Some (num 0))
              (num 2) (num 0) eq_refl eq_refl Hx Hy) as [Hd _].
  refine (eq_trans (Hd (State.mk (num 5) (num 7))) _).
  vm_compute. reflexivity.
Defined.

(* ================================================================== *)
(** ** More about the dot sampler *)
(* ================================================================== *)

Section Dots.
Context `{Host}.

Lemma dotsLoop_head (data : list State.t) (s0 : State.t) (rest : list State.t)
    (sn : number) :
  data = s0 :: rest ->
  exists more, dotsLoop (length data) data (num 0) sn = Some s0 :: more.
Proof.
  intros ->. cbn [length dotsLoop].
  rewrite (lt_whole (num 0) (JS.of_nat (S (length rest))) 0 (S (length rest))
             (isWhole_of_nat 0) (isWhole_of_nat _)).
  rewrite (index_whole (s0 :: rest) (num 0) 0 (isWhole_of_nat 0)).
  eexists. reflexivity.
Qed.

(** Whenever [generateDots] samples, whatever its spacing is (a number,
    a boolean, a string), the first dot is the first state of the
    trajectory. *)
Theorem generateDots_first_dot (fn : ODE) :
  JS.truthy (attr fn showDots) = true ->
  data fn <> [] ->
  exists s0 more,
    data fn !! 0%nat = Some s0
    /\ fst (generateDots fn) = Some s0 :: more
    /\ dots (snd (generateDots fn)) = Some s0 :: more.
Proof.
  intros Hon Hdata.
  destruct (data fn) as [|s0 rest] eqn:Ed; [contradiction|].
  assert (Hd : forall sn, exists more,
               dotsLoop (length (data fn)) (data fn) (num 0) sn
               = Some s0 :: more)
    by (intros sn; now apply (dotsLoop_head (data fn) s0 rest)).
  assert (Hs : exists more,
             sampleDots (data fn)
               (JS.or_else (attr fn dotSpacing) (VNum (num 10)))
             = Some s0 :: more).
  { unfold sampleDots.
    destruct (JS.or_else (attr fn dotSpacing) (VNum (num 10)));
      try apply Hd.
    destruct (ToNumber (VStr s) <? num 1)%js; [apply Hd|].
    rewrite Ed.
    rewrite (index_whole (s0 :: rest) (num 0) 0 (isWhole_of_nat 0)).
    eexists. reflexivity. }
  destruct Hs as [more Hs]. exists s0, more.
  split; [reflexivity|].
  unfold generateDots. rewrite Hon, Ed. cbn [negb orb length Nat.eqb fst snd].
  rewrite <- Ed, Hs. split; reflexivity.
Qed.

Lemma dotsLoop_samples (data : list State.t) (sn : number) :
  forall (fuel : nat) (i : number),
    Forall (fun d => forall s, d = Some s -> s ∈ data)
           (dotsLoop fuel data i sn)
    /\ (length (dotsLoop fuel data i sn) <= fuel)%nat.
Proof.
  induction fuel as [|fuel IH]; intros i; cbn [dotsLoop].
  - split; [constructor|cbn; lia].
  - destruct (i <? JS.of_nat (length data))%js.
    + destruct (IH (i + sn)%js) as [IH1 IH2]. split.
      * constructor; [|exact IH1].
        intros s Hs. now apply (index_elem data i).
      * cbn [length]. lia.
    + split; [constructor|cbn; lia].
Qed.

(** With a spacing that is not a string, the dots are never
    interpolated and never outnumber the states: every dot is
    [undefined] or a state of the trajectory; the trajectory and the
    version are left as they were. *)
Theorem generateDots_only_samples (fn : ODE) :
  (forall e, attr fn dotSpacing <> VStr e) ->
  Forall (fun d => forall s, d = Some s -> s ∈ data fn) (fst (generateDots fn))
  /\ (length (fst (generateDots fn)) <= length (data fn))%nat
  /\ data (snd (generateDots fn)) = data fn
  /\ version (snd (generateDots fn)) = version fn.
Proof.
  intros Hns.
  destruct (generateDots_fields fn) as (G1 & G2 & _).
  split; [|split; [|split; assumption]];
    unfold generateDots;
    destruct (negb (JS.truthy (attr fn showDots))
              || (length (data fn) =? 0)%nat);
    cbn [fst]; try (constructor; fail); try (cbn; lia);
    unfold sampleDots, JS.or_else;
    destruct (attr fn dotSpacing) as [| |b|n|e] eqn:Ea;
    try (now destruct (Hns e));
    cbn [JS.truthy];
    repeat match goal with
           | |- context [if ?c then _ else _] => destruct c
           end;
    apply dotsLoop_samples.
Qed.

(** A numeric spacing that is below 1 once its default is in place, a
    fraction or a negative number, never yields an [undefined] dot. *)
Theorem spacing_below_one_gives_defined_dots (fn : ODE) (spacing : number) :
  JS.truthy (attr fn showDots) = true ->
  data fn <> [] ->
  attr fn dotSpacing = VNum spacing ->
  ((if JS.truthy (VNum spacing) then spacing else num 10) <? num 1)%js = true ->
  Forall (fun d => exists s, d = Some s /\ s ∈ data fn) (fst (generateDots fn)).
Proof.
  intros Hon Hdata Hsp Hlt.
  assert (Hlen : (1 <= length (data fn))%nat)
    by (destruct (data fn); [contradiction|cbn [length]; lia]).
  rewrite (generateDots_numeric fn spacing Hon Hdata Hsp).
  destruct (strideOf_below_one_whole _ spacing Hlen Hlt)
    as [[stride Hw] | Hinf].
  - pose proof (strideOf_at_least_one _ _ _ Hw) as Hpos.
    apply Forall_lookup. intros k d Hk.
    rewrite (dotsLoop_lookup (data fn) _ stride Hw Hpos
               (length (data fn)) (num 0) 0 k (isWhole_of_nat 0)) in Hk by lia.
    destruct (Nat.ltb_spec (0 + k * stride) (length (data fn))) as [Hin|];
      [|discriminate].
    injection Hk as <-.
    destruct (lookup_lt_is_Some_2 (data fn) _ Hin) as [s Hs].
    exists s. split; [exact Hs|]. apply list_elem_of_lookup. eauto.
  - rewrite Hinf. destruct (data fn) as [|s0 rest]; [contradiction|].
    cbn [length dotsLoop].
    rewrite (lt_whole (num 0) (JS.of_nat (S (length rest))) 0
               (S (length rest)) (isWhole_of_nat 0) (isWhole_of_nat _)).
    rewrite (index_whole (s0 :: rest) (num 0) 0 (isWhole_of_nat 0)).
    change (0 <? S (length rest))%nat with true. cbv iota.
    change (num 0 + Inf false)%js with (Inf false).
    constructor.
    + exists s0. split; [reflexivity|left].
    + destruct (length rest); cbn [dotsLoop]; constructor.
Qed.

End Dots.

Lemma generateDots_first_dot_witness :
  let fn := hundred (num 10) in
  JS.truthy (attr fn showDots) = true
  /\ data fn <> []
  /\ exists more,
       fst (@generateDots demoHost fn) = Some (State.mk (num 0) (num 0)) :: more.
Proof.
  intros fn.
  assert (Hon : JS.truthy (attr fn showDots) = true) by reflexivity.
  assert (Hd : data fn <> []) by (vm_compute; discriminate).
  split; [exact Hon|]. split; [exact Hd|].
  destruct (@generateDots_first_dot demoHost fn Hon Hd)
    as (s0 & more & H0 & Hfst & _).
  exists more. rewrite Hfst. f_equal.
  rewrite <- H0. vm_compute. reflexivity.
Defined.

Lemma generateDots_only_samples_witness :
  let fn := holding 4 (dotsOn (Fin (3 # 2))) in
  (forall e, attr fn dotSpacing <> VStr e)
  /\ (length (fst (@generateDots demoHost fn)) <= length (data fn))%nat
  /\ dotXs (fst (@generateDots demoHost fn))
     = [Some (num 0); None; Some (num 3)].
Proof.
  intros fn.
  assert (Hns : forall e, attr fn dotSpacing <> VStr e)
    by (intros e He; vm_compute in He; discriminate).
  split; [exact Hns|].
  destruct (@generateDots_only_samples demoHost fn Hns) as (_ & Hlen & _).
  split; [exact Hlen|]. vm_compute. reflexivity.
Defined.

Lemma spacing_below_one_gives_defined_dots_witness :
  let fn := hundred (Fin (1 # 4)) in
  JS.truthy (attr fn showDots) = true
  /\ data fn <> []
  /\ attr fn dotSpacing = VNum (Fin (1 # 4))
  /\ Forall (fun d => exists s, d = Some s /\ s ∈ data fn)
            (fst (@generateDots demoHost fn)).
Proof.
  intros fn.
  assert (Hon : JS.truthy (attr fn showDots) = true) by reflexivity.
  assert (Hd : data fn <> []) by (vm_compute; discriminate).
  assert (Hsp : attr fn dotSpacing = VNum (Fin (1 # 4))) by reflexivity.
  split; [exact Hon|]. split; [exact Hd|]. split; [exact Hsp|].
  apply (@spacing_below_one_gives_defined_dots demoHost fn (Fin (1 # 4))
           Hon Hd Hsp).
  vm_compute. reflexivity.
Defined.

Lemma sampling_ends_witness :
  points 3 <> []
  /\ dotsLoop (3 + 5) (points 3) (num 0) (strideOf 3 (Fin (1 # 2)))
     = dotsLoop 3 (points 3) (num 0) (strideOf 3 (Fin (1 # 2))).
Proof.
  assert (Hd : points 3 <> []) by (vm_compute; discriminate).
  split; [exact Hd|].
  exact (sampling_ends (points 3) (Fin (1 # 2)) 5 Hd).
Defined.

Lemma update_keeps_evaluated_witness :
  (forall e, attr shown showDots <> VStr e)
  /\ attr (snd (@update demoHost true (modelOf [("show", num 0)]) shown))
          showDots
     = attr shown showDots.
Proof.
  assert (Hns : forall e, attr shown showDots <> VStr e)
    by (intros e He; vm_compute in He; discriminate).
  split; [exact Hns|].
  exact (@update_keeps_evaluated demoHost true (modelOf [("show", num 0)])
           shown showDots Hns).
Defined.

(* ================================================================== *)
(** ** More about the evaluator *)
(* ================================================================== *)

Section Quoted.
Context `{Host}.

Lemma quote_is_not_white (q : ascii) :
  JS.is_quote q = true -> JS.is_white q = false.
Proof.
  unfold JS.is_quote. intros Hq. apply orb_true_iff in Hq.
  destruct Hq as [Hq | Hq]; apply Ascii.eqb_eq in Hq; subst q; reflexivity.
Qed.

Lemma trimEnd_snoc (s : string) (q : ascii) :
  JS.is_white q = false ->
  JS.trimEnd (s ++ String q EmptyString) = s ++ String q EmptyString.
Proof.
  intros Hq. induction s as [|c s IH].
  - change (JS.trimEnd (String q EmptyString) = String q EmptyString).
    cbn [JS.trimEnd]. now rewrite Hq.
  - change (JS.trimEnd (String c (s ++ String q EmptyString))
            = String c (s ++ String q EmptyString)).
    cbn [JS.trimEnd]. rewrite IH.
    destruct s; reflexivity.
Qed.

Lemma isLiteral_quoted (q : ascii) (r : string) :
  JS.is_quote q = true -> isLiteral (String q r) = true.
Proof.
  unfold JS.is_quote. intros Hq. apply orb_true_iff in Hq.
  unfold isLiteral, JS.startsWith.
  destruct Hq as [Hq | Hq]; apply Ascii.eqb_eq in Hq; subst q.
  - cbn [String.prefix].
    destruct (ascii_dec JS.apostrophe JS.apostrophe); [|contradiction].
    destruct r; reflexivity.
  - cbn [String.prefix].
    destruct (ascii_dec JS.apostrophe JS.dquote); [discriminate|].
    destruct (ascii_dec JS.dquote JS.dquote); [|contradiction].
    destruct r; reflexivity.
Qed.

(** Quoting protects a string: whatever lies between two quote
    characters is returned as it stands, white space included, and is
    never evaluated, whatever the host. *)
Theorem quoted_string_is_returned_verbatim (q q' : ascii) (s : string)
    (model : Model) :
  JS.is_quote q = true -> JS.is_quote q' = true ->
  evaluateExpr (VStr (String q (s ++ String q' EmptyString))) model = VStr s.
Proof.
  intros Hq Hq'. unfold evaluateExpr.
  assert (Ht : JS.trim (String q (s ++ String q' EmptyString))
               = String q (s ++ String q' EmptyString)).
  { unfold JS.trim. cbn [JS.trimStart].
    rewrite (quote_is_not_white q Hq).
    change (String q (s ++ String q' EmptyString))
      with (String q s ++ String q' EmptyString).
    apply trimEnd_snoc, quote_is_not_white, Hq'. }
  rewrite Ht, (isLiteral_quoted q _ Hq).
  now rewrite (stripQuotes_wrapped q q' s Hq Hq').
Qed.

End Quoted.

Lemma quoted_string_is_returned_verbatim_witness :
  JS.is_quote JS.apostrophe = true
  /\ @evaluateExpr demoHost
       (VStr (String JS.apostrophe
                (" params.show " ++ String JS.apostrophe EmptyString)))
       (modelOf [("show", num 1)])
     = VStr " params.show ".
Proof.
  assert (Hq : JS.is_quote JS.apostrophe = true) by reflexivity.
  split; [exact Hq|].
  exact (@quoted_string_is_returned_verbatim demoHost JS.apostrophe
           JS.apostrophe " params.show " (modelOf [("show", num 1)]) Hq Hq).
Defined.

(* ================================================================== *)
(** ** More about the scheduler *)
(* ================================================================== *)

Section Playback.
Context `{Host}.
Import Animation.

(** [stop] and [start] without any assumption on the world. *)
Lemma stop_state (w : World) :
  _active (animator (stop w)) = false
  /\ _paused (animator (stop w)) = _paused (animator w)
  /\ _restartTimeout (animator (stop w)) = _restartTimeout (animator w)
  /\ fn (stop w) = fn w
  /\ motionLoops (stop w) = motionLoops w.
Proof.
  unfold stop.
  destruct (negb (_active (animator w)) && negb (isSet (_handle (animator w))))
    eqn:Hg; [|repeat split; reflexivity].
  apply andb_true_iff in Hg as [Ha _]. apply negb_true_iff in Ha.
  repeat split; auto.
Qed.

Lemma start_state (o : value) (d : list State.t) (w : World) :
  _paused (animator (start o d w)) = _paused (animator w)
  /\ _active (animator (start o d w))
     = JS.truthy o && negb (length d =? 0)%nat.
Proof.
  destruct (stop_state w) as (S1 & S2 & _).
  unfold start.
  destruct (JS.truthy o); cbn [negb orb andb];
    [destruct (length d =? 0)%nat; cbn [negb]|]; auto.
Qed.

(** [stop] is idempotent from any state, and a second [stop] finds
    nothing to cancel. *)
Theorem stop_is_idempotent (w : World) :
  stop (stop w) = stop w
  /\ _active (animator (stop w)) = false
  /\ _handle (animator (stop w)) = _handle (animator (stop (stop w))).
Proof.
  assert (Hi : stop (stop w) = stop w).
  { destruct (negb (_active (animator w))
              && negb (isSet (_handle (animator w)))) eqn:Hg.
    - assert (E : stop w = w) by (unfold stop; now rewrite Hg).
      rewrite E. exact E.
    - assert (Hidle : forall v, negb (_active (animator v))
                                 && negb (isSet (_handle (animator v))) = true ->
                                 stop v = v)
        by (intros v Hv; unfold stop; now rewrite Hv).
      apply Hidle. unfold stop. now rewrite Hg. }
  split; [exact Hi|]. split; [apply stop_state|]. now rewrite Hi.
Qed.

(** What the firing of the armed timeout does. *)
Lemma timeout_fires (h : nat) (w : World) :
  wellFormed w ->
  h ∈ timeouts (browser w) ->
  let w' := step (TimeoutFires h) w in
  wellFormed w'
  /\ timeouts (browser w') = []
  /\ _paused (animator w') = _paused (animator w)
  /\ (if _active (animator w)
      then motionLoops w' = motionLoops w
           /\ animationFrames (browser w') = animationFrames (browser w)
           /\ _active (animator w') = true
      else if JS.truthy (attr (fn w) animation)
              && negb (length (data (fn w)) =? 0)%nat
           then motionLoops w' = S (motionLoops w)
                /\ length (animationFrames (browser w')) = 1%nat
                /\ _active (animator w') = true
           else motionLoops w' = motionLoops w
                /\ animationFrames (browser w') = []
                /\ _active (animator w') = false).
Proof.
  intros Hw Hin w'.
  destruct (restart_spec h w Hw Hin) as (R1 & R2 & _).
  assert (E : w' = restart (mkWorld (animator w) (fn w)
                              (clearTimeout h (browser w)) (motionLoops w))).
  { subst w'. cbn [step]. now rewrite (bool_decide_eq_true_2 _ Hin). }
  rewrite <- E in R1, R2.
  split; [exact R1|]. split; [exact R2|].
  rewrite E. unfold restart. cbn [animator fn browser motionLoops _active].
  destruct (_active (animator w)) eqn:Ea.
  - cbn. repeat split; reflexivity.
  - set (v := mkWorld _ _ _ _).
    assert (Hv : wellFormed v).
    { destruct Hw as (Ht & Hn & Htimer & Hframe).
      unfold timerHeld in Htimer.
      destruct (_restartTimeout (animator w)) as [h0|] eqn:Er;
        [|rewrite Htimer in Hin; now apply elem_of_nil in Hin].
      destruct Htimer as [Hpos Hth].
      rewrite Hth in Hin. apply list_elem_of_singleton in Hin. subst h0.
      subst v. unfold wellFormed, timerHeld, frameHeld. cbn.
      rewrite Hth, cancel_same. repeat split; auto. }
    destruct (start_spec (attr (fn w) animation) (data (fn w)) v Hv)
      as (_ & _ & _ & _ & Q5).
    destruct (start_state (attr (fn w) animation) (data (fn w)) v)
      as (P1 & P2).
    split; [exact P1|].
    change (motionLoops v) with (motionLoops w) in Q5.
    destruct (JS.truthy (attr (fn w) animation)
              && negb (length (data (fn w)) =? 0)%nat);
      destruct Q5 as [Q5 Q6]; repeat split; assumption.
Qed.

(** [pause] does not hold back an armed restart: the timeout stays
    pending, and when it fires the motion loop starts again although the
    scheduler is still marked paused. *)
Theorem pause_keeps_armed_restart (h : nat) (w : World) :
  wellFormed w ->
  _active (animator w) = true ->
  h ∈ timeouts (browser w) ->
  JS.truthy (attr (fn w) animation) = true ->
  data (fn w) <> [] ->
  let w1 := pause w in
  let w2 := step (TimeoutFires h) w1 in
  _active (animator w1) = false
  /\ _paused (animator w1) = true
  /\ animationFrames (browser w1) = []
  /\ timeouts (browser w1) = timeouts (browser w)
  /\ _active (animator w2) = true
  /\ _paused (animator w2) = true
  /\ motionLoops w2 = S (motionLoops w).
Proof.
  intros Hw Ha Hin Htr Hd w1 w2.
  set (v := mkWorld (mkAnimationODE true (_handle (animator w))
                       true (_restartTimeout (animator w)))
                    (fn w) (browser w) (motionLoops w)).
  assert (E1 : w1 = stop v) by (subst w1; unfold pause; now rewrite Ha).
  assert (Hv : wellFormed v)
    by (destruct Hw as (A & B & C & D); repeat split; assumption).
  pose proof (stop_wellFormed v Hv) as Hw1.
  destruct Hv as (_ & _ & _ & Hframe).
  destruct (stop_spec v Hframe) as (S1 & S2 & S3 & _ & _ & _ & S7 & S8 & S9).
  rewrite <- E1 in Hw1, S1, S2, S3, S7, S8, S9.
  change (timeouts (browser v)) with (timeouts (browser w)) in S3.
  change (_paused (animator v)) with true in S7.
  change (motionLoops v) with (motionLoops w) in S8.
  change (fn v) with (fn w) in S9.
  assert (Hin1 : h ∈ timeouts (browser w1)) by now rewrite S3.
  destruct (timeout_fires h w1 Hw1 Hin1) as (_ & _ & T3 & T4).
  fold w2 in T3, T4.
  rewrite S2, S9, Htr in T4. cbn [andb] in T4.
  assert (Hlen : (length (data (fn w)) =? 0)%nat = false).
  { apply Nat.eqb_neq. intros Hz. apply Hd. now apply length_zero_iff_nil. }
  rewrite Hlen in T4. cbn [negb] in T4. destruct T4 as (T4 & _ & T6).
  repeat split; try assumption; congruence.
Qed.

(** [pause] then [resume]: the loop is stopped, then exactly one loop is
    running again, and the armed timeout is untouched throughout. *)
Theorem pause_then_resume_restarts_one_loop (o : value) (d : list State.t)
    (w : World) :
  wellFormed w ->
  _active (animator w) = true ->
  JS.truthy o = true -> d <> [] ->
  let w1 := pause w in
  let w2 := resume o d w1 in
  _active (animator w1) = false
  /\ animationFrames (browser w1) = []
  /\ _active (animator w2) = true
  /\ _paused (animator w2) = false
  /\ length (animationFrames (browser w2)) = 1%nat
  /\ motionLoops w2 = S (motionLoops w)
  /\ timeouts (browser w2) = timeouts (browser w).
Proof.
  intros Hw Ha Htr Hd w1 w2.
  set (v := mkWorld (mkAnimationODE true (_handle (animator w))
                       true (_restartTimeout (animator w)))
                    (fn w) (browser w) (motionLoops w)).
  assert (E1 : w1 = stop v) by (subst w1; unfold pause; now rewrite Ha).
  assert (Hv : wellFormed v)
    by (destruct Hw as (A & B & C & D); repeat split; assumption).
  pose proof (stop_wellFormed v Hv) as Hw1.
  destruct Hv as (_ & _ & _ & Hframe).
  destruct (stop_spec v Hframe) as (S1 & S2 & S3 & _ & _ & _ & S7 & S8 & S9).
  rewrite <- E1 in Hw1, S1, S2, S3, S7, S8, S9.
  change (timeouts (browser v)) with (timeouts (browser w)) in S3.
  change (_paused (animator v)) with true in S7.
  change (motionLoops v) with (motionLoops w) in S8.
  set (u := mkWorld (mkAnimationODE (_active (animator w1))
                       (_handle (animator w1)) false
                       (_restartTimeout (animator w1)))
                    (fn w1) (browser w1) (motionLoops w1)).
  assert (E2 : w2 = start o d u) by (subst w2; unfold resume; now rewrite S7).
  assert (Hu : wellFormed u)
    by (destruct Hw1 as (A & B & C & D); repeat split; assumption).
  destruct (start_spec o d u Hu) as (_ & Q2 & _ & _ & Q5).
  destruct (start_state o d u) as (P1 & P2).
  rewrite <- E2 in Q2, Q5, P1, P2.
  assert (Hlen : (length d =? 0)%nat = false).
  { apply Nat.eqb_neq. intros Hz. apply Hd. now apply length_zero_iff_nil. }
  rewrite Htr, Hlen in Q5, P2. cbn [negb andb] in Q5, P2.
  destruct Q5 as [Q5 Q6].
  change (motionLoops u) with (motionLoops w1) in Q5.
  change (timeouts (browser u)) with (timeouts (browser w1)) in Q2.
  change (_paused (animator u)) with false in P1.
  repeat split; try assumption; congruence.
Qed.

(** No double start: when a paused scheduler is resumed while a restart
    is armed, the loop begins at the resume and the timeout, when it
    fires, starts nothing more. *)
Theorem resume_before_restart_single_loop (h : nat) (o : value)
    (d : list State.t) (w : World) :
  wellFormed w ->
  _paused (animator w) = true ->
  h ∈ timeouts (browser w) ->
  JS.truthy o = true -> d <> [] ->
  let w1 := resume o d w in
  let w2 := step (TimeoutFires h) w1 in
  motionLoops w1 = S (motionLoops w)
  /\ motionLoops w2 = S (motionLoops w)
  /\ length (animationFrames (browser w2)) = 1%nat
  /\ timeouts (browser w2) = [].
Proof.
  intros Hw Hp Hin Htr Hd w1 w2.
  set (u := mkWorld (mkAnimationODE (_active (animator w))
                       (_handle (animator w)) false
                       (_restartTimeout (animator w)))
                    (fn w) (browser w) (motionLoops w)).
  assert (E1 : w1 = start o d u) by (subst w1; unfold resume; now rewrite Hp).
  assert (Hu : wellFormed u)
    by (destruct Hw as (A & B & C & D); repeat split; assumption).
  destruct (start_spec o d u Hu) as (Q1 & Q2 & _ & _ & Q5).
  destruct (start_state o d u) as (_ & P2).
  rewrite <- E1 in Q1, Q2, Q5, P2.
  assert (Hlen : (length d =? 0)%nat = false).
  { apply Nat.eqb_neq. intros Hz. apply Hd. now apply length_zero_iff_nil. }
  rewrite Htr, Hlen in Q5, P2. cbn [negb andb] in Q5, P2.
  destruct Q5 as [Q5 Q6].
  change (motionLoops u) with (motionLoops w) in Q5.
  change (timeouts (browser u)) with (timeouts (browser w)) in Q2.
  assert (Hin1 : h ∈ timeouts (browser w1)) by now rewrite Q2.
  destruct (timeout_fires h w1 Q1 Hin1) as (_ & T2 & _ & T4).
  fold w2 in T2, T4. rewrite P2 in T4. destruct T4 as (T4 & T5 & _).
  repeat split; try assumption; congruence.
Qed.

End Playback.

Section Redraw.
Context `{Host}.
Import Animation.

(** The engine the scheduler's [update] leaves, and how it completes. *)
Lemma update_engine (present rendered : bool) (model : Model) (w : World) :
  fn (snd (update present rendered model w))
  = if present then
      match generateData model (fn w) with
      | (Throw, f) => f
      | (Normal _, f) =>
          if JS.truthy (attr f showDots) then snd (generateDots f) else f
      end
    else fn w.
Proof.
  unfold update. destruct present; cbn [negb]; [|reflexivity].
  destruct (generateData model (fn w)) as [[d|] f]; [|reflexivity].
  set (f' := if JS.truthy (attr f showDots) then snd (generateDots f) else f).
  destruct rendered; cbn [negb]; [|reflexivity].
  set (w0 := mkWorld (animator w) f' (browser w) (motionLoops w)).
  destruct (stop_state w0) as (_ & _ & _ & S4 & _).
  change (fn w0) with f' in S4.
  destruct (_restartTimeout (animator (stop w0))) as [h|];
    [destruct (isSet (Some h))|];
    match goal with
    | |- context [isAnimationOn ?a ?b] => destruct (isAnimationOn a b)
    end; cbn; rewrite ?S4; reflexivity.
Qed.

Lemma update_completes (model : Model) (w : World) :
  compiles model (fn w) -> fst (update true true model w) = Normal tt.
Proof.
  intros Hc.
  destruct (proj1 (generateData_normal_iff model (fn w)) Hc) as [d Hd].
  unfold update. cbn [negb].
  destruct (generateData model (fn w)) as [c f]. cbn [fst] in Hd. subst c.
  cbn [negb].
  match goal with
  | |- context [match _restartTimeout ?a with _ => _ end] =>
      destruct (_restartTimeout a) as [h|]; [destruct (isSet (Some h))|]
  end;
    match goal with
    | |- context [isAnimationOn ?a ?b] => destruct (isAnimationOn a b)
    end; reflexivity.
Qed.

(** The scheduler's [update] integrates the trajectory again on every
    call, whether or not anything changed since the last tick: with
    formulas that compile the version is counted once more each time. *)
Theorem scheduler_update_always_regenerates (rendered : bool) (model : Model)
    (w : World) :
  compiles model (fn w) ->
  let w' := snd (update true rendered model w) in
  version (fn w') = S (version (fn w))
  /\ fst (generateData model (fn w)) = Normal (data (fn w'))
  /\ attr (fn w') = attr (fn w)
  /\ motionLoops w' = motionLoops w.
Proof.
  intros Hc w'.
  destruct (proj1 (generateData_normal_iff model (fn w)) Hc) as [d Hd].
  assert (Hm : motionLoops w' = motionLoops w).
  { subst w'. unfold update. cbn [negb].
    destruct (generateData model (fn w)) as [c f]. cbn [fst] in Hd. subst c.
    set (f' := if JS.truthy (attr f showDots) then snd (generateDots f) else f).
    destruct rendered; cbn [negb]; [|reflexivity].
    set (w0 := mkWorld (animator w) f' (browser w) (motionLoops w)).
    destruct (stop_state w0) as (_ & _ & _ & _ & S5).
    change (motionLoops w0) with (motionLoops w) in S5.
    destruct (_restartTimeout (animator (stop w0))) as [h|];
      [destruct (isSet (Some h))|];
      match goal with
      | |- context [isAnimationOn ?a ?b] => destruct (isAnimationOn a b)
      end; cbn; rewrite ?S5; reflexivity. }
  subst w'. rewrite (update_engine true rendered model w).
  destruct (generateData model (fn w)) as [c f] eqn:E.
  cbn [fst] in Hd. subst c.
  destruct (generateData_fields model (fn w) f d E) as (F1 & F2 & F3 & _).
  destruct (generateDots_fields f) as (G1 & G2 & G3 & _).
  destruct (JS.truthy (attr f showDots)).
  - rewrite G1, G2, G3, F1, F2, F3. repeat split; try reflexivity. exact Hm.
  - rewrite F1, F2, F3. repeat split; try reflexivity. exact Hm.
Qed.

Lemma scheduler_update_shape (model : Model) (w : World) :
  compiles model (fn w) ->
  attr (fn (snd (update true true model w))) = attr (fn w).
Proof.
  intros Hc. rewrite (update_engine true true model w).
  pose proof (generateData_attr model (fn w)) as Ha.
  destruct (generateData model (fn w)) as [[d|] f]; cbn [snd] in Ha;
    [|exact Ha].
  destruct (generateDots_fields f) as (_ & _ & G3 & _).
  destruct (JS.truthy (attr f showDots)); [rewrite G3|]; exact Ha.
Qed.

(** A restart can be armed and start nothing: the arming reads the
    parameter [animation] first, the start reads the engine's attribute;
    when the parameter is 1 and the attribute is falsy, the timeout is
    armed, fires, and no motion loop begins. *)
Theorem armed_restart_may_start_nothing (n : number) (model : Model)
    (w : World) :
  wellFormed w ->
  compiles model (fn w) ->
  currentParamValues model !! "animation" = Some n ->
  (n === num 1)%js = true ->
  JS.truthy (attr (fn w) animation) = false ->
  let w1 := snd (update true true model w) in
  let h := nextTimeout (browser w) in
  let w2 := step (TimeoutFires h) w1 in
  timeouts (browser w1) = [h]
  /\ timeouts (browser w2) = []
  /\ motionLoops w2 = motionLoops w
  /\ animationFrames (browser w2) = []
  /\ _active (animator w2) = false.
Proof.
  intros Hw Hc Hp Hn Hoff w1 h w2.
  destruct (update_spec true true model w Hw) as (Hw1 & Hm1 & Hu).
  fold w1 in Hw1, Hm1, Hu.
  destruct (Hu eq_refl (update_completes model w Hc)) as (_ & Ha1 & _ & Harm).
  assert (Hon : isAnimationOn (fn w1) model = true)
    by (unfold isAnimationOn; rewrite Hp; exact Hn).
  rewrite Hon in Harm. destruct Harm as [Ht1 _]. fold h in Ht1.
  assert (Hin : h ∈ timeouts (browser w1))
    by (rewrite Ht1; now apply list_elem_of_singleton).
  destruct (timeout_fires h w1 Hw1 Hin) as (_ & T2 & _ & T4).
  fold w2 in T2, T4. rewrite Ha1 in T4.
  pose proof (scheduler_update_shape model w Hc) as Hattr. fold w1 in Hattr.
  rewrite Hattr, Hoff in T4. cbn [andb] in T4.
  destruct T4 as (T4 & T5 & T6).
  repeat split; try assumption. congruence.
Qed.

End Redraw.

(** The example worlds are reached by the scheduler's own steps, so they
    are well formed. *)
Lemma busy_wellFormed : wellFormed busy.
Proof.
  unfold busy. apply (@run_wellFormed demoHost).
  apply initialWorld_wellFormed.
Qed.

Lemma pausedArmed_wellFormed : wellFormed pausedArmed.
Proof.
  unfold pausedArmed. apply (@run_wellFormed demoHost).
  apply initialWorld_wellFormed.
Qed.

Lemma busy_timeouts : Animation.timeouts (Animation.browser busy) = [2%nat].
Proof. vm_compute. reflexivity. Qed.

Lemma pausedArmed_timeouts :
  Animation.timeouts (Animation.browser pausedArmed) = [2%nat].
Proof. vm_compute. reflexivity. Qed.

Lemma points_two : points 2 <> [].
Proof. unfold points. cbn [seq map]. discriminate. Qed.

Lemma pause_keeps_armed_restart_witness :
  Animation._active (Animation.animator
     (@Animation.step demoHost (Animation.TimeoutFires 2)
        (Animation.pause busy))) = true
  /\ Animation.motionLoops
       (@Animation.step demoHost (Animation.TimeoutFires 2)
          (Animation.pause busy))
     = S (Animation.motionLoops busy).
Proof.
  assert (Hin : 2%nat ∈ Animation.timeouts (Animation.browser busy))
    by (rewrite busy_timeouts; now apply list_elem_of_singleton).
  assert (Ha : Animation._active (Animation.animator busy) = true)
    by (vm_compute; reflexivity).
  assert (Hon : JS.truthy (attr (Animation.fn busy) animation) = true)
    by (vm_compute; reflexivity).
  assert (Hd : data (Animation.fn busy) <> [])
    by (vm_compute; discriminate).
  destruct (@pause_keeps_armed_restart demoHost 2%nat busy
              busy_wellFormed Ha Hin Hon Hd)
    as (_ & _ & _ & _ & R5 & _ & R7).
  exact (conj R5 R7).
Defined.

Lemma pause_then_resume_restarts_one_loop_witness :
  Animation.motionLoops
    (Animation.resume (VBool true) (points 2) (Animation.pause busy))
  = S (Animation.motionLoops busy)
  /\ length (Animation.animationFrames (Animation.browser
       (Animation.resume (VBool true) (points 2) (Animation.pause busy))))
     = 1%nat.
Proof.
  assert (Ha : Animation._active (Animation.animator busy) = true)
    by (vm_compute; reflexivity).
  destruct (@pause_then_resume_restarts_one_loop (VBool true) (points 2)
              busy busy_wellFormed Ha eq_refl points_two)
    as (_ & _ & _ & _ & R5 & R6 & _).
  exact (conj R6 R5).
Defined.

Lemma resume_before_restart_single_loop_witness :
  Animation.motionLoops
    (@Animation.step demoHost (Animation.TimeoutFires 2)
       (Animation.resume (VBool true) (points 2) pausedArmed))
  = S (Animation.motionLoops pausedArmed)
  /\ Animation.timeouts (Animation.browser
       (@Animation.step demoHost (Animation.TimeoutFires 2)
          (Animation.resume (VBool true) (points 2) pausedArmed))) = [].
Proof.
  assert (Hin : 2%nat ∈ Animation.timeouts (Animation.browser pausedArmed))
    by (rewrite pausedArmed_timeouts; now apply list_elem_of_singleton).
  assert (Hp : Animation._paused (Animation.animator pausedArmed) = true)
    by (vm_compute; reflexivity).
  destruct (@resume_before_restart_single_loop demoHost 2%nat (VBool true)
              (points 2) pausedArmed pausedArmed_wellFormed Hp Hin
              eq_refl points_two)
    as (_ & R2 & _ & R4).
  exact (conj R2 R4).
Defined.

Lemma scheduler_update_always_regenerates_witness :
  version (Animation.fn (snd (@Animation.update demoHost true true
             (modelOf []) (Animation.initialWorld line3))))
  = S (version line3).
Proof.
  assert (Hc : @compiles demoHost (modelOf [])
                 (Animation.fn (Animation.initialWorld line3)))
    by (apply demo_compiles; reflexivity).
  destruct (@scheduler_update_always_regenerates demoHost true (modelOf [])
              (Animation.initialWorld line3) Hc) as (R1 & _).
  exact R1.
Defined.

Lemma armed_restart_may_start_nothing_witness :
  Animation.timeouts (Animation.browser
    (snd (@Animation.update demoHost true true
            (modelOf [("animation", num 1)])
            (Animation.initialWorld line3)))) = [1%nat]
  /\ Animation.motionLoops
       (@Animation.step demoHost (Animation.TimeoutFires 1)
          (snd (@Animation.update demoHost true true
                  (modelOf [("animation", num 1)])
                  (Animation.initialWorld line3)))) = 0%nat.
Proof.
  assert (Hc : @compiles demoHost (modelOf [("animation", num 1)])
                 (Animation.fn (Animation.initialWorld line3)))
    by (apply demo_compiles; reflexivity).
  assert (Hp : currentParamValues (modelOf [("animation", num 1)])
               !! "animation" = Some (num 1))
    by (vm_compute; reflexivity).
  destruct (@armed_restart_may_start_nothing demoHost (num 1)
              (modelOf [("animation", num 1)])
              (Animation.initialWorld line3)
              (initialWorld_wellFormed line3) Hc Hp eq_refl eq_refl)
    as (R1 & _ & R3 & _).
  exact (conj R1 R3).
Defined.

Section Motion.
Local Open Scope Q_scope.

(** The remainder by a positive divisor: of a dividend that is not
    negative it lies in [0, q), of one that is not positive in (-q, 0]. *)
Lemma remainder_forward (p q : Q) :
  0 <= p -> 0 < q ->
  exists r, remainder (Fin p) (Fin q) = Fin r /\ 0 <= r /\ r < q.
Proof.
  intros Hp Hq. unfold remainder.
  assert (Hz : JS.Qzero q = false).
  { unfold JS.Qzero. destruct (Qeq_bool q 0) eqn:E; [|reflexivity].
    apply Qeq_bool_iff in E. lra. }
  rewrite Hz.
  assert (Hx : q * (p / q) == p) by (apply Qmult_div_r; lra).
  assert (H0 : 0 <= p / q) by (apply Qle_shift_div_l; lra).
  assert (Ht : truncate (p / q) = Qfloor (p / q)).
  { unfold truncate, JS.Qltb.
    destruct (Qle_bool 0 (p / q)) eqn:E; [reflexivity|].
    apply Qle_bool_iff in H0. congruence. }
  rewrite Ht. eexists. split; [reflexivity|].
  pose proof (Qfloor_le (p / q)) as H1.
  pose proof (Qlt_floor (p / q)) as H2.
  rewrite inject_Z_plus in H2. change (inject_Z 1) with 1 in H2.
  set (x := p / q) in *. set (n := inject_Z (Qfloor x)) in *.
  split; nra.
Qed.

Lemma remainder_backward (p q : Q) :
  p <= 0 -> 0 < q ->
  exists r, remainder (Fin p) (Fin q) = Fin r /\ - q < r /\ r <= 0.
Proof.
  intros Hp Hq. unfold remainder.
  assert (Hz : JS.Qzero q = false).
  { unfold JS.Qzero. destruct (Qeq_bool q 0) eqn:E; [|reflexivity].
    apply Qeq_bool_iff in E. lra. }
  rewrite Hz.
  assert (Hx : q * (p / q) == p) by (apply Qmult_div_r; lra).
  assert (H0 : p / q <= 0) by (apply Qle_shift_div_r; lra).
  unfold truncate, JS.Qltb.
  destruct (Qle_bool 0 (p / q)) eqn:E; cbn [negb].
  - apply Qle_bool_iff in E.
    assert (Hx0 : p / q == 0) by lra.
    assert (Hf : Qfloor (p / q) = 0%Z) by (rewrite Hx0; reflexivity).
    rewrite Hf. eexists. split; [reflexivity|].
    change (inject_Z 0) with 0.
    set (x := p / q) in *. split; nra.
  - eexists. split; [reflexivity|].
    pose proof (Qle_ceiling (p / q)) as H1.
    pose proof (Qceiling_lt (p / q)) as H2.
    unfold Z.sub in H2. rewrite inject_Z_plus in H2.
    set (x := p / q) in *. set (n := inject_Z (Qceiling x)) in *.
    assert (H2' : n - 1 < x) by exact H2.
    split; nra.
Qed.

Lemma nearestEven_nonneg (n d : Z) :
  (0 <= n)%Z -> (0 < d)%Z -> (0 <= JS.nearestEven n d)%Z.
Proof.
  intros Hn Hd. unfold JS.nearestEven.
  pose proof (Z.div_pos n d Hn Hd).
  destruct (2 * (n mod d) <? d)%Z; [assumption|].
  destruct (d <? 2 * (n mod d))%Z; [lia|].
  destruct (Z.even (n / d)); lia.
Qed.

Lemma significand_nonneg (a d : positive) : (0 <= JS.significand a d)%Z.
Proof.
  unfold JS.significand.
  destruct (Z.leb_spec 0 (JS.ulpOf a d)) as [Hu|Hu];
    apply nearestEven_nonneg;
    first [ lia
          | apply Z.mul_pos_pos; [lia|]; now apply Z.pow_pos_nonneg
          | apply Z.mul_nonneg_nonneg; [lia|]; apply Z.pow_nonneg; lia ].
Qed.

Lemma roundMagnitude_nonneg (a d : positive) (v : Q) :
  JS.roundMagnitude a d = Some v -> 0 <= v.
Proof.
  unfold JS.roundMagnitude.
  pose proof (significand_nonneg a d) as Hm.
  destruct (Z.leb_spec 0 (JS.ulpOf a d)) as [Hu|Hu].
  - destruct (2 ^ 1024 <=? JS.significand a d * 2 ^ JS.ulpOf a d)%Z;
      [discriminate|].
    intros [= <-]. change 0 with (inject_Z 0). rewrite <- Zle_Qle.
    apply Z.mul_nonneg_nonneg; [exact Hm|]. apply Z.pow_nonneg. lia.
  - intros [= <-]. unfold Qle. cbn [Qnum Qden]. lia.
Qed.

(** Rounding keeps the sign. *)
Lemma round_nonNegative (q : Q) : 0 <= q -> nonNegative (JS.round q).
Proof.
  intros Hq. unfold JS.round. destruct q as [n d]. cbn [Qnum Qden].
  destruct n as [|a|a].
  - cbn [nonNegative]. apply Qle_refl.
  - destruct (JS.roundMagnitude a d) as [v|] eqn:E; cbn [nonNegative];
      [exact (roundMagnitude_nonneg a d v E)|reflexivity].
  - unfold Qle in Hq. cbn [Qnum Qden] in Hq. lia.
Qed.

Lemma round_nonPositive (q : Q) : q <= 0 -> nonPositive (JS.round q).
Proof.
  intros Hq. unfold JS.round. destruct q as [n d]. cbn [Qnum Qden].
  destruct n as [|a|a].
  - cbn [nonPositive]. apply Qle_refl.
  - unfold Qle in Hq. cbn [Qnum Qden] in Hq. lia.
  - destruct (JS.roundMagnitude a d) as [v|] eqn:E; cbn [nonPositive];
      [|reflexivity].
    pose proof (roundMagnitude_nonneg a d v E). lra.
Qed.

Lemma Qltb_zero_of_nonneg (q : Q) : 0 <= q -> JS.Qltb q 0 = false.
Proof.
  intros Hq. unfold JS.Qltb. apply negb_false_iff. now apply Qle_bool_iff.
Qed.

Lemma Qltb_zero_of_negative (q : Q) :
  q <= 0 -> JS.Qzero q = false -> JS.Qltb q 0 = true.
Proof.
  intros Hq Hz. unfold JS.Qltb. apply negb_true_iff.
  destruct (Qle_bool 0 q) eqn:E; [|reflexivity].
  apply Qle_bool_iff in E.
  assert (Hq0 : q == 0) by lra.
  apply Qeq_bool_iff in Hq0. unfold JS.Qzero in Hz. congruence.
Qed.

Lemma Qzero_of_pos (q : Q) : 0 < q -> JS.Qzero q = false.
Proof.
  intros Hq. unfold JS.Qzero. destruct (Qeq_bool q 0) eqn:E; [|reflexivity].
  apply Qeq_bool_iff in E. lra.
Qed.

(** The signs of the four operations of a frame. *)
Lemma fsub_forward (t t0 : Q) : t0 <= t -> nonNegative (JS.fsub (Fin t) (Fin t0)).
Proof.
  intros Ht. unfold JS.fsub, JS.sub. cbn [JS.neg JS.add JS.rounded].
  apply round_nonNegative. lra.
Qed.

Lemma fdiv_forward (a : number) (c : Q) :
  nonNegative a -> 0 < c -> nonNegative (JS.fdiv a (Fin c)).
Proof.
  intros Ha Hc. unfold JS.fdiv.
  destruct a as [|b|p]; cbn [nonNegative] in Ha; [contradiction| |].
  - subst b. cbn [JS.div].
    rewrite (Qltb_zero_of_nonneg c) by lra. reflexivity.
  - cbn [JS.div]. rewrite (Qzero_of_pos c Hc). cbn [JS.rounded].
    apply round_nonNegative. apply Qle_shift_div_l; lra.
Qed.

Lemma frame_length :
  exists c, JS.fdiv (num 1000) (num 60) = Fin c /\ 0 < c.
Proof. eexists. split; vm_compute; reflexivity. Qed.

Lemma fmul_forward (a b : number) :
  nonNegative a -> nonNegative b ->
  JS.fmul a b = NaN \/ nonNegative (JS.fmul a b).
Proof.
  intros Ha Hb. unfold JS.fmul.
  destruct a as [|sa|p], b as [|sb|q]; cbn [nonNegative] in Ha, Hb;
    try contradiction; subst; cbn [JS.mul].
  - right. reflexivity.
  - destruct (JS.Qzero q); [now left|right].
    rewrite (Qltb_zero_of_nonneg q Hb). reflexivity.
  - destruct (JS.Qzero p); [now left|right].
    rewrite (Qltb_zero_of_nonneg p Ha). reflexivity.
  - right. cbn [JS.rounded]. apply round_nonNegative.
    now apply Qmult_le_0_compat.
Qed.

Lemma fmul_backward (a b : number) :
  nonPositive a -> nonNegative b ->
  JS.fmul a b = NaN \/ nonPositive (JS.fmul a b).
Proof.
  intros Ha Hb. unfold JS.fmul.
  destruct a as [|sa|p], b as [|sb|q]; cbn [nonPositive nonNegative] in Ha, Hb;
    try contradiction; subst; cbn [JS.mul].
  - right. reflexivity.
  - destruct (JS.Qzero q); [now left|right].
    rewrite (Qltb_zero_of_nonneg q Hb). reflexivity.
  - destruct (JS.Qzero p) eqn:Hz; [now left|right].
    rewrite (Qltb_zero_of_negative p Ha Hz). reflexivity.
  - right. cbn [JS.rounded]. apply round_nonPositive.
    assert (0 <= (- p) * q) by (apply Qmult_le_0_compat; lra). lra.
Qed.

Lemma fadd_forward (f x : number) :
  forwards f -> x = NaN \/ nonNegative x ->
  JS.fadd f x = NaN \/ nonNegative (JS.fadd f x).
Proof.
  intros Hf Hx. unfold JS.fadd.
  destruct f as [|sf|p]; cbn [forwards] in Hf; [now left|contradiction|].
  destruct Hx as [-> | Hx]; [now left|].
  destruct x as [|sx|q]; cbn [nonNegative] in Hx; [contradiction| |].
  - subst sx. right. reflexivity.
  - right. cbn [JS.add JS.rounded]. apply round_nonNegative. lra.
Qed.

Lemma fadd_backward (f x : number) :
  backwards f -> x = NaN \/ nonPositive x ->
  JS.fadd f x = NaN \/ nonPositive (JS.fadd f x).
Proof.
  intros Hf Hx. unfold JS.fadd.
  destruct f as [|sf|p]; cbn [backwards] in Hf; [now left|contradiction|].
  destruct Hx as [-> | Hx]; [now left|].
  destruct x as [|sx|q]; cbn [nonPositive] in Hx; [contradiction| |].
  - subst sx. right. reflexivity.
  - right. cbn [JS.add JS.rounded]. apply round_nonPositive. lra.
Qed.

(** The remainder of a frame: lost, or back inside. *)
Lemma remainder_wraps (x : number) (q : Q) :
  x = NaN \/ nonNegative x -> 0 < q ->
  remainder x (Fin q) = NaN
  \/ exists r, remainder x (Fin q) = Fin r /\ 0 <= r /\ r < q.
Proof.
  intros [-> | Hx] Hq; [now left|].
  destruct x as [|sx|p]; cbn [nonNegative] in Hx; [contradiction|now left|].
  right. now apply remainder_forward.
Qed.

Lemma remainder_rests (x : number) (q : Q) :
  x = NaN \/ nonPositive x -> 0 < q ->
  backwards (remainder x (Fin q))
  /\ (forall r, remainder x (Fin q) = Fin r -> r <= 0).
Proof.
  intros [-> | Hx] Hq; [split; [exact I|discriminate]|].
  destruct x as [|sx|p]; cbn [nonPositive] in Hx;
    [contradiction|split; [exact I|discriminate]|].
  destruct (remainder_backward p q Hx Hq) as (r & Er & _ & Hr).
  rewrite Er. split; [exact Hr|]. now intros r' [= <-].
Qed.

Lemma length_positive {A : Type} (a : list A) :
  a <> [] -> 0 < inject_Z (Z.of_nat (length a)).
Proof.
  intros Ha. destruct a as [|x a]; [congruence|].
  change 0 with (inject_Z 0). rewrite <- Zlt_Qlt. cbn [length]. lia.
Qed.

Lemma index_of_Z {A : Type} (a : list A) (z : Z) :
  JS.index a (JS.of_Z z)
  = if (0 <=? z)%Z then a !! Z.to_nat z else None.
Proof.
  unfold JS.index, JS.of_Z. rewrite Qfloor_Z.
  assert (E : Qeq_bool (inject_Z z) (inject_Z z) = true)
    by (apply Qeq_bool_iff; reflexivity).
  rewrite E. reflexivity.
Qed.

(** The point drawn for a lost playhead and for one that is not
    positive: the first state. *)
Lemma pointAt_lost (data : list State.t) :
  pointAt data (JS.floor NaN) = data !! 0%nat.
Proof.
  unfold pointAt. cbn [JS.floor JS.index]. unfold num.
  rewrite index_of_Z. reflexivity.
Qed.

Lemma pointAt_resting (data : list State.t) (r : Q) :
  r <= 0 -> pointAt data (JS.floor (Fin r)) = data !! 0%nat.
Proof.
  intros Hr.
  assert (Hz : (Qfloor r <= 0)%Z).
  { change 0%Z with (Qfloor 0). now apply Qfloor_resp_le. }
  unfold pointAt. cbn [JS.floor]. unfold num. rewrite !index_of_Z.
  change (0 <=? 0)%Z with true. cbv iota. change (Z.to_nat 0) with 0%nat.
  destruct (Z.leb_spec 0 (Qfloor r)) as [Hge|_].
  - assert (E : Qfloor r = 0%Z) by lia. rewrite E.
    change (Z.to_nat 0) with 0%nat. now destruct (data !! 0%nat).
  - reflexivity.
Qed.

(** Whatever the clock and the speed are, not-a-number included, the
    moving dot is drawn at a state of the trajectory the loop was started
    with: a frame index that reads nothing from it falls back to its first
    state. *)
Theorem moving_dot_is_on_the_trajectory (data : list State.t)
    (speed time : number) (p : Playhead) :
  data <> [] ->
  exists s, snd (animateFrame data speed time p) = Some s /\ s ∈ data.
Proof.
  intros Hd. unfold animateFrame. cbn [snd]. unfold pointAt.
  destruct (JS.index data (JS.floor _)) as [s|] eqn:E.
  - exists s. split; [reflexivity|]. exact (index_elem _ _ _ E).
  - destruct data as [|s0 data]; [congruence|].
    exists s0. split; [|left].
    unfold num. rewrite index_of_Z. reflexivity.
Qed.

(** With a speed that is not negative and a clock that does not run
    backwards, a playhead that is not negative is, after a frame, lost
    (the product or the sum has overflowed) or inside [0, length): it
    wraps round at the end.  A lost playhead stays lost.  The moving dot
    is drawn at the trajectory state under the playhead, at the first
    state when the playhead is lost; [lastTime] is the time of the
    frame. *)
Theorem playhead_forward_stays_inside (data : list State.t)
    (speed f : number) (t t0 : Q) :
  data <> [] -> forwards f -> nonNegative speed -> t0 <= t ->
  let out := animateFrame data speed (Fin t) (mkPlayhead f (Fin t0)) in
  lastTime (fst out) = Fin t
  /\ is_Some (snd out)
  /\ ((frame (fst out) = NaN /\ snd out = data !! 0%nat)
      \/ exists r,
           frame (fst out) = Fin r
           /\ 0 <= r /\ r < inject_Z (Z.of_nat (length data))
           /\ snd out = data !! Z.to_nat (Qfloor r)).
Proof.
  intros Hd Hf Hv Ht out. subst out. unfold animateFrame.
  cbn [fst snd frame lastTime].
  destruct frame_length as (c & Ec & Hc). rewrite Ec.
  change (JS.of_nat (length data))
    with (Fin (inject_Z (Z.of_nat (length data)))).
  pose proof (fdiv_forward _ c (fsub_forward t t0 Ht) Hc) as Hdelta.
  pose proof (fmul_forward speed _ Hv Hdelta) as Hstep.
  pose proof (fadd_forward f _ Hf Hstep) as Hsum.
  assert (Hfirst : is_Some (data !! 0%nat))
    by (destruct data; [congruence|now eexists]).
  split; [reflexivity|].
  destruct (remainder_wraps _ _ Hsum (length_positive data Hd))
    as [-> | (r & -> & Hr0 & Hr1)].
  - rewrite pointAt_lost. split; [exact Hfirst|]. left. now split.
  - assert (Hz0 : (0 <= Qfloor r)%Z).
    { change 0%Z with (Qfloor 0). now apply Qfloor_resp_le. }
    assert (Hz1 : (Qfloor r < Z.of_nat (length data))%Z).
    { rewrite Zlt_Qlt. pose proof (Qfloor_le r). lra. }
    assert (Hin : is_Some (data !! Z.to_nat (Qfloor r)))
      by (apply lookup_lt_is_Some_2; lia).
    assert (Hp : pointAt data (JS.floor (Fin r))
                 = data !! Z.to_nat (Qfloor r)).
    { unfold pointAt. cbn [JS.floor]. rewrite index_of_Z.
      destruct (Z.leb_spec 0 (Qfloor r)) as [_|]; [|lia].
      destruct Hin as [s Hs]. now rewrite Hs. }
    rewrite Hp. split; [exact Hin|]. right. exists r. now repeat split.
Qed.

(** A negative speed does not play the trajectory backwards: from a
    playhead that is not positive, as the one a loop starts with, or
    lost, the playhead stays not positive or lost and the moving dot
    rests at the first state of the trajectory. *)
Theorem negative_speed_rests_at_first_state (data : list State.t)
    (speed f : number) (t t0 : Q) :
  data <> [] -> backwards f -> nonPositive speed -> t0 <= t ->
  let out := animateFrame data speed (Fin t) (mkPlayhead f (Fin t0)) in
  backwards (frame (fst out))
  /\ snd out = data !! 0%nat
  /\ lastTime (fst out) = Fin t.
Proof.
  intros Hd Hf Hv Ht out. subst out. unfold animateFrame.
  cbn [fst snd frame lastTime].
  destruct frame_length as (c & Ec & Hc). rewrite Ec.
  change (JS.of_nat (length data))
    with (Fin (inject_Z (Z.of_nat (length data)))).
  pose proof (fdiv_forward _ c (fsub_forward t t0 Ht) Hc) as Hdelta.
  pose proof (fmul_backward speed _ Hv Hdelta) as Hstep.
  pose proof (fadd_backward f _ Hf Hstep) as Hsum.
  destruct (remainder_rests _ _ Hsum (length_positive data Hd)) as [Hb Hr].
  split; [exact Hb|]. split; [|reflexivity].
  destruct (remainder _ _) as [|b|r]; cbn [backwards] in Hb.
  - apply pointAt_lost.
  - contradiction.
  - apply pointAt_resting. now apply Hr.
Qed.

End Motion.

Lemma moving_dot_is_on_the_trajectory_witness :
  exists s,
    snd (animateFrame (points 2) NaN (num 16) (mkPlayhead (num 0) (num 0)))
    = Some s /\ s ∈ points 2.
Proof. exact (moving_dot_is_on_the_trajectory _ _ _ _ points_two). Defined.

(** One step at speed 1 over twenty states, 250 ms after the start: the
    quotient 250 / (1000 / 60) is rounded below 15, and the dot is drawn
    at state 14. *)
Lemma playhead_forward_stays_inside_witness :
  snd (animateFrame (points 20) (num 1) (Fin 250)
         (mkPlayhead (num 0) (num 0)))
  = points 20 !! 14%nat.
Proof.
  assert (Hd : points 20 <> []) by (unfold points; cbn [seq map]; discriminate).
  assert (Hf : forwards (num 0)) by (vm_compute; discriminate).
  assert (Hv : nonNegative (num 1)) by (vm_compute; discriminate).
  assert (Ht : (0 <= 250)%Q) by lra.
  destruct (playhead_forward_stays_inside (points 20) (num 1) (num 0)
              250 0%Q Hd Hf Hv Ht)
    as (_ & _ & [[E _] | (r & E & _ & _ & Hdot)]).
  - vm_compute in E. discriminate E.
  - refine (eq_trans Hdot _).
    assert (Hr : Qfloor r = 14%Z).
    { vm_compute in E. injection E as <-. vm_compute. reflexivity. }
    rewrite Hr. reflexivity.
Defined.

Lemma negative_speed_rests_at_first_state_witness :
  snd (animateFrame (points 2) (num (-1)) (Fin 50)
         (mkPlayhead (num 0) (num 0)))
  = points 2 !! 0%nat.
Proof.
  assert (Hf : backwards (num 0)) by (vm_compute; discriminate).
  assert (Hv : nonPositive (num (-1))) by (vm_compute; discriminate).
  assert (Ht : (0 <= 50)%Q) by lra.
  destruct (negative_speed_rests_at_first_state (points 2) (num (-1)) (num 0)
              50 0%Q points_two Hf Hv Ht) as (_ & R & _).
  exact R.
Defined.
